(** * ChaLearn video-classification pipeline: a shallow embedding

    Source: [03a-chalearn/chalearn.py].  The script is a batch job in four
    stages that talk to each other through the file system:
    [video2frames], [frames2features], [train] and [evaluate]/[predict].

    The embedding keeps the script's structure.  Paths are Python strings;
    the file system is a finite map from resolved paths (lists of
    components) to nodes; every function of the script is a computation in a
    state-and-exception monad over that map.  The external tools (mediainfo,
    ffmpeg, the image loader, the networks) and the classes of the module
    [deeplearning] are section variables and records of functions.  The
    [print] calls of the script are not modelled; [train] and [evaluate],
    which only hand loaded features to the framework, are not embedded.

    The first part holds the definitions, the second the properties: the
    frame directory of a video, prediction, class restriction, paths and
    listings, the effect of the feature stage (shape, frame, assertion,
    resumption), the guard on the output directories, the frame count of
    the frame stage, and the order in which frames are loaded.  A last part
    follows the stages further: when [predict] returns and what it
    reports, the class limit at its extremes, what the frame stage writes
    and what it leaves alone, the conditions under which each extraction
    stage, and both in a row, run through, and the frames a fresh run
    leaves for the feature stage. *)

From Stdlib Require Import ZArith QArith Ascii String.
From Stdlib Require Import Sorting.Sorted Sorting.Permutation.
From stdpp Require Import gmap strings list fin_maps sorting.

Local Open Scope string_scope.
Local Open Scope list_scope.

(** ** Python strings *)

Module PyStr.

(** [s.split(sep)] for a one-character separator: never the empty list. *)
Fixpoint split (sep : ascii) (s : string) : list string :=
  match s with
  | EmptyString => [""]
  | String c s' =>
      if Ascii.eqb c sep then "" :: split sep s'
      else match split sep s' with
           | [] => [String c ""]
           | w :: ws => String c w :: ws
           end
  end.

(** [sep.join(l)]. *)
Fixpoint join (sep : string) (l : list string) : string :=
  match l with
  | [] => ""
  | [x] => x
  | x :: l' => x +:+ sep +:+ join sep l'
  end.

(** [s.startswith(p)]. *)
Fixpoint startswith (s p : string) {struct p} : bool :=
  match p with
  | EmptyString => true
  | String b p' =>
      match s with
      | EmptyString => false
      | String a s' => Ascii.eqb a b && startswith s' p'
      end
  end.

(** [s.endswith(p)]: some suffix of [s] is [p]. *)
Fixpoint endswith (s p : string) : bool :=
  String.eqb s p ||
  match s with
  | EmptyString => false
  | String _ s' => endswith s' p
  end.

(** Does the character occur in the string? *)
Fixpoint mem (c : ascii) (s : string) : bool :=
  match s with
  | EmptyString => false
  | String a s' => Ascii.eqb a c || mem c s'
  end.

(** Python's negative index [l[-k]], [k >= 1]; [None] is [IndexError]. *)
Definition index_back {A} (l : list A) (k : nat) : option A :=
  if (k =? 0)%nat then None
  else if (length l <? k)%nat then None
  else l !! (length l - k)%nat.

(** The slice [l[:n]] for a Python integer [n] (negative counts from the
    end). *)
Definition slice_to {A} (l : list A) (n : Z) : list A :=
  if (n <? 0)%Z then take (length l - Z.to_nat (- n)) l
  else take (Z.to_nat n) l.

(** Decimal digits of a natural number, most significant first. *)
Definition digit (d : nat) : ascii := ascii_of_nat (48 + d).

Fixpoint digits_fuel (fuel n : nat) (acc : string) : string :=
  match fuel with
  | O => acc
  | S fuel' =>
      let acc' := String (digit (n mod 10)) acc in
      if (n / 10 =? 0)%nat then acc' else digits_fuel fuel' (n / 10) acc'
  end.

Definition str_of_nat (n : nat) : string := digits_fuel (S n) n "".

Fixpoint zeros (k : nat) : string :=
  match k with
  | O => ""
  | S k' => String "0" (zeros k')
  end.

(** The C format [%0wd] for a non-negative argument. *)
Definition zero_pad (w n : nat) : string :=
  let s := str_of_nat n in
  zeros (w - String.length s) +:+ s.

(** Python's order on strings: by code points, shorter prefix first. *)
Definition leb (a b : string) : bool := String.leb a b.

Fixpoint insert_sorted (x : string) (l : list string) : list string :=
  match l with
  | [] => [x]
  | y :: l' => if leb x y then x :: l else y :: insert_sorted x l'
  end.

(** [sorted(l)] on a list of strings. *)
Definition sorted (l : list string) : list string :=
  foldr insert_sorted [] l.

(** [unique()] of a pandas column: first occurrences, in order. *)
Fixpoint unique (l : list string) : list string :=
  match l with
  | [] => []
  | x :: l' => x :: filter (fun y => y ≠ x) (unique l')
  end.

End PyStr.

(** ** Arrays *)

(** A numpy array: its shape and its entries in row-major order.  Entries
    are rationals; floating-point rounding is not modelled. *)
Record ndarray := { shape : list nat; data : list Q }.

Definition size (a : ndarray) : nat := foldr Nat.mul 1%nat (shape a).

(** [np.array(l)] on a list of equally shaped arrays: a new leading axis. *)
Definition np_array (l : list ndarray) : ndarray :=
  {| shape := length l :: match l with [] => [] | a :: _ => shape a end;
     data := concat (map data l) |}.

(** ** Exceptions and the file system *)

Inductive exn :=
  | ValueError (msg : string)
  | AssertionError
  | ZeroDivisionError
  | IndexError
  | KeyError
  | OSError (msg : string).

Inductive content :=
  | Blob (bytes : list Z)
  | Npy (arr : ndarray).

Inductive node :=
  | Dir
  | File (c : content).

#[global] Instance Q_eq_dec : EqDecision Q.
Proof. solve_decision. Defined.

#[global] Instance ndarray_eq_dec : EqDecision ndarray.
Proof. solve_decision. Defined.

#[global] Instance exn_eq_dec : EqDecision exn.
Proof. solve_decision. Defined.

#[global] Instance content_eq_dec : EqDecision content.
Proof. solve_decision. Defined.

#[global] Instance node_eq_dec : EqDecision node.
Proof. solve_decision. Defined.

(** The store maps a resolved path to the node there.  A relative path is
    resolved against the (fixed) working directory, an absolute one starts
    with the component ["/"].  Symbolic links are not modelled, and a
    component [".."] is kept as a name: paths that climb back out of a
    directory they have entered are outside the model. *)
Abbreviation store := (gmap (list string) node).

Module OsPath.

(** A component that survives resolution. *)
Definition proper (s : string) : Prop := s ≠ "" ∧ s ≠ ".".

Definition root (p : string) : list string :=
  if PyStr.startswith p "/" then ["/"] else [].

(** Resolution of a path string: empty and ["."] components vanish. *)
Definition resolve (p : string) : list string :=
  (root p ++ filter proper (PyStr.split "/" p))%list.

(** A name a directory entry can have. *)
Definition is_name (s : string) : Prop :=
  s ≠ "" ∧ s ≠ "." ∧ s ≠ ".." ∧ PyStr.mem "/" s = false.

(** [os.path.exists]. *)
Definition exists_ (fs : store) (p : string) : bool :=
  if decide (p = "") then false else bool_decide (is_Some (fs !! resolve p)).

(** [os.path.isdir]. *)
Definition isdir (fs : store) (p : string) : bool :=
  if decide (p = "") then false
  else match fs !! resolve p with Some Dir => true | _ => false end.

(** [os.path.join(a, b)]. *)
Definition join (a b : string) : string :=
  if PyStr.startswith b "/" then b
  else if decide (a = "") then b
  else if PyStr.endswith a "/" then a +:+ b
  else a +:+ "/" +:+ b.

Fixpoint slashes (k : nat) : string :=
  match k with
  | O => ""
  | S k' => String "/" (slashes k')
  end.

(** A list of components without its trailing empty ones. *)
Fixpoint drop_trailing_empty (l : list string) : list string :=
  match l with
  | [] => []
  | x :: l' =>
      match drop_trailing_empty l' with
      | [] => if decide (x = "") then [] else [x]
      | r => x :: r
      end
  end.

(** [os.path.dirname(p)]: everything up to the last slash; trailing slashes
    of that head are stripped unless it consists of slashes only. *)
Definition dirname (p : string) : string :=
  let hc := removelast (PyStr.split "/" p) in
  if decide (Forall (fun c => c = "") hc) then slashes (length hc)
  else PyStr.join "/" (drop_trailing_empty hc).

End OsPath.

(** ** Directory listings *)

(** The patterns the script uses inside one path component. *)
Inductive pattern :=
  | Star
  | StarSuffix (ext : string).

(** [fnmatch] as [glob] applies it: a leading dot is never matched by [*]. *)
Definition fnmatch (pat : pattern) (n : string) : bool :=
  negb (PyStr.startswith n ".") &&
  match pat with
  | Star => true
  | StarSuffix ext => PyStr.endswith n ext
  end.

Fixpoint strip_prefix (pre k : list string) : option (list string) :=
  match pre, k with
  | [], _ => Some k
  | x :: pre', y :: k' => if decide (x = y) then strip_prefix pre' k' else None
  | _ :: _, [] => None
  end.

(** The entries of the store exactly [length pats] components below [dir]
    whose components are names matching the patterns, in the order the
    system lists them.  The directory part of a pattern is taken literally
    (it holds no metacharacters). *)
Definition glob_rel (fs : store) (dir : list string) (pats : list pattern)
  : list (list string) :=
  filter (fun r => Forall2 (fun p n => OsPath.is_name n ∧ fnmatch p n = true) pats r)
         (omap (strip_prefix dir) (elements (dom fs))).

(** The result strings of [glob(pattern)], where [sDirPart] is the
    literal directory part of the pattern: each hit is joined onto it. *)
Definition glob (fs : store) (sDirPart : string) (pats : list pattern) : list string :=
  (fun r => OsPath.join sDirPart (PyStr.join "/" r))
    <$> glob_rel fs (OsPath.resolve sDirPart) pats.

(** ** The script's monad: a store that is updated in place, and an
    exception that ends the run where it is raised *)

Definition M (A : Type) : Type := store -> store * (exn + A).

Definition ret {A} (a : A) : M A := fun fs => (fs, inr a).

Definition raise {A} (e : exn) : M A := fun fs => (fs, inl e).

Definition bind {A B} (m : M A) (k : A -> M B) : M B :=
  fun fs =>
    match m fs with
    | (fs', inl e) => (fs', inl e)
    | (fs', inr a) => k a fs'
    end.

Definition get : M store := fun fs => (fs, inr fs).

Definition write (k : list string) (n : node) : M unit :=
  fun fs => (<[k := n]> fs, inr tt).

(** An expression that may raise, run inside the monad. *)
Definition lift {A} (r : exn + A) : M A :=
  match r with
  | inl e => raise e
  | inr a => ret a
  end.

Notation "'do' x <- m ; k" := (bind m (fun x => k))
  (at level 10, x name, m at level 100, k at level 200, only parsing).
Notation "'run' m ; k" := (bind m (fun _ => k))
  (at level 10, m at level 100, k at level 200, only parsing).

(** [for x in l: body(x)]. *)
Fixpoint for_each {A} (l : list A) (body : A -> M unit) : M unit :=
  match l with
  | [] => ret tt
  | x :: l' => run body x; for_each l' body
  end.

(** [[f(x) for x in l]] for an [f] that may raise. *)
Fixpoint map_exn {A B} (f : A -> exn + B) (l : list A) : exn + list B :=
  match l with
  | [] => inr []
  | x :: l' =>
      match f x with
      | inl e => inl e
      | inr y =>
          match map_exn f l' with
          | inl e => inl e
          | inr ys => inr (y :: ys)
          end
      end
  end.

(** [os.makedirs(p, exist_ok=True)]: the missing directories on the way to
    [p] are created from the top; a file in the way raises. *)
Fixpoint mkdirs (above todo : list string) : M unit :=
  match todo with
  | [] => ret tt
  | c :: todo' =>
      let k := (above ++ [c])%list in
      do fs <- get;
      match fs !! k with
      | Some (File _) => raise (OSError "File exists")
      | Some Dir => mkdirs k todo'
      | None => run write k Dir; mkdirs k todo'
      end
  end.

Definition os_makedirs (p : string) : M unit := mkdirs [] (OsPath.resolve p).

(** ** Built-ins of Python and numpy *)

Definition is_space (c : ascii) : bool :=
  let n := nat_of_ascii c in (n =? 32)%nat || ((9 <=? n)%nat && (n <=? 13)%nat).

Definition is_digit (c : ascii) : bool :=
  let n := nat_of_ascii c in (48 <=? n)%nat && (n <=? 57)%nat.

Fixpoint lstrip (l : list ascii) : list ascii :=
  match l with
  | c :: l' => if is_space c then lstrip l' else l
  | [] => []
  end.

Definition strip (l : list ascii) : list ascii := rev (lstrip (rev (lstrip l))).

Definition digits_value (l : list ascii) : Z :=
  foldl (fun acc c => 10 * acc + Z.of_nat (nat_of_ascii c - 48))%Z 0%Z l.

(** [int(s)] on the output of a process: surrounding white space and one
    sign are allowed, the rest must be decimal digits. *)
Definition int (s : string) : exn + Z :=
  let bad := inl (ValueError ("invalid literal for int() with base 10: " +:+ s)) in
  let body sign l :=
    match l with
    | [] => bad
    | _ => if forallb is_digit l then inr (sign * digits_value l)%Z else bad
    end in
  match strip (list_ascii_of_string s) with
  | "-"%char :: l => body (-1)%Z l
  | "+"%char :: l => body 1%Z l
  | l => body 1%Z l
  end.

(** [a.reshape(n, -1)]: the second axis is inferred; it cannot be when [n]
    is not positive or does not divide the size. *)
Definition reshape_rows (a : ndarray) (n : Z) : exn + ndarray :=
  if (0 <? n)%Z && (size a mod Z.to_nat n =? 0)%nat
  then inr {| shape := [Z.to_nat n; (size a / Z.to_nat n)%nat]; data := data a |}
  else inl (ValueError "cannot reshape array").

Fixpoint argmax_from (best_i : nat) (best : Q) (i : nat) (l : list Q) : nat :=
  match l with
  | [] => best_i
  | x :: l' =>
      if Qle_bool x best then argmax_from best_i best (S i) l'
      else argmax_from i x (S i) l'
  end.

(** [row.argmax()]: the first index of a largest entry. *)
Definition argmax (row : list Q) : exn + nat :=
  match row with
  | [] => inl (ValueError "attempt to get argmax of an empty sequence")
  | x :: l => inr (argmax_from 0 x 1 l)
  end.

(** [np.mean] of a list of booleans ([nan], here [0], on the empty list). *)
Definition np_mean (l : list bool) : Q :=
  (inject_Z (Z.of_nat (length (filter (fun b => b = true) l)))
   / inject_Z (Z.of_nat (length l)))%Q.

(** Python's [str] of a list of strings. *)
Definition str_list (l : list string) : string :=
  "[" +:+ PyStr.join ", " (map (fun s => "'" +:+ s +:+ "'") l) +:+ "]".

(** ** Restriction to the first classes (both extraction stages) *)

(** [s.split("/")[-2]]. *)
Definition label_of (s : string) : exn + string :=
  match PyStr.index_back (PyStr.split "/" s) 2 with
  | Some l => inr l
  | None => inl IndexError
  end.

(** The data frame after the block [if nClasses != None: ...] (lines
    46-51 and 103-108): rows are (path, label); without a restriction the
    label column is not made. *)
Definition restrict_classes (nClasses : option Z) (paths : list string)
  : exn + list string :=
  match nClasses with
  | None => inr paths
  | Some n =>
      match map_exn label_of paths with
      | inl e => inl e
      | inr labels =>
          let dfVideos := zip paths labels in
          let liClasses := PyStr.slice_to (PyStr.sorted (PyStr.unique labels)) n in
          inr (filter (fun row => row.2 ∈ liClasses) dfVideos).*1
      end
  end.

(** ** The stages *)

(** [sDir + "/frame-%03d.jpg" % i]. *)
Definition frame_name (i : nat) : string :=
  "frame-" +:+ PyStr.zero_pad 3 i +:+ ".jpg".

Definition frame_file (sDir : string) (i : nat) : string :=
  sDir +:+ "/" +:+ frame_name i.

(** The frame directory of a video, lines 58-63 of the script. *)
Definition video_dir (sFrameDir sVideoPath : string) : exn + string :=
  let li_sVideoPath := PyStr.split "/" sVideoPath in
  if (length li_sVideoPath <? 4)%nat
  then inl (ValueError ("Video path should have min 4 components: "
                        +:+ str_list li_sVideoPath))
  else
    match PyStr.index_back li_sVideoPath 1,
          PyStr.index_back li_sVideoPath 3,
          PyStr.index_back li_sVideoPath 2 with
    | Some sFile, Some c3, Some c2 =>
        match PyStr.split "." sFile with
        | sVideoName :: _ =>
            inr (sFrameDir +:+ "/" +:+ c3 +:+ "/" +:+ c2 +:+ "/" +:+ sVideoName)
        | [] => inl IndexError
        end
    | _, _, _ => inl IndexError
    end.

(** The network of the feature stage: the members of [ConvNet] that the
    script uses.  The class lives in the module [deeplearning]; its
    methods are fields here. *)
Record ConvNet := {
  tuHeightWidth : nat * nat;
  preprocess_input : ndarray -> ndarray;
  cnn_predict : ndarray -> ndarray
}.

(** The class table ([VideoClasses]): the column [sClass] of [dfClass]
    under its default index [0, 1, ...]. *)
Record VideoClasses := {
  dfClass : list string;
  liClasses : list string
}.

(** The sequence model ([RecurrentNet]); [rnn_predict] gives one row of
    class probabilities per sample. *)
Record RecurrentNet := {
  rnn_nFramesNorm : Z;
  nFeatureLength : nat;
  oClasses : VideoClasses;
  rnn_predict : ndarray -> list (list Q)
}.

(** What [VideoFeatures] holds after loading a feature directory. *)
Record VideoFeatures := {
  arFeatures : ndarray;
  liLabels : list string;
  nSamples : nat
}.

Section Pipeline.

(** Standard output of [mediainfo --Inform=Video;%Duration%] on a file. *)
Variable mediainfo : option node -> string.

(** The frames [ffmpeg -i video -r fps -frames n] extracts, in the order
    of extraction. *)
Variable ffmpeg : option node -> Q -> Z -> list content.

(** [img_to_array(load_img(file, target_size))]; [None] when the file
    cannot be read as an image. *)
Variable load_img : option node -> nat * nat -> option ndarray.

(** The constructor of [VideoFeatures] (module [deeplearning]). *)
Variable load_features :
  store -> string -> Z -> nat -> list string -> exn + VideoFeatures.

(** [ffmpeg] writes frame [i] (from 1) to [sDir/frame-%03d.jpg], over
    whatever is there ([-y]). *)
Fixpoint write_frames (sDir : string) (i : nat) (frames : list content) : M unit :=
  match frames with
  | [] => ret tt
  | f :: frames' =>
      run write (OsPath.resolve (frame_file sDir i)) (File f);
      write_frames sDir (S i) frames'
  end.

(** [len(glob.glob(sDir + "/*.jpg"))], line 77. *)
Definition count_frames (fs : store) (sDir : string) : nat :=
  length (glob fs (OsPath.dirname (sDir +:+ "/*.jpg")) [StarSuffix ".jpg"]).

(** One round of the loop of [video2frames], lines 57-81. *)
Definition video2frames_body (sFrameDir : string) (nFramesNorm : Z)
    (sVideoPath : string) : M unit :=
  do sDir <- lift (video_dir sFrameDir sVideoPath);
  run os_makedirs sDir;
  do fs <- get;
  do nMillis <- lift (int (mediainfo (fs !! OsPath.resolve sVideoPath)));
  if (nMillis =? 0)%Z then raise ZeroDivisionError else
  let fVideoSec := (inject_Z nMillis / 1000)%Q in
  let fFramesPerSec := (inject_Z nFramesNorm / fVideoSec)%Q in
  run write_frames sDir 1 (ffmpeg (fs !! OsPath.resolve sVideoPath) fFramesPerSec nFramesNorm);
  do fs <- get;
  let nFrames := count_frames fs sDir in
  if decide (Z.of_nat nFrames = nFramesNorm) then ret tt
  else raise (ValueError "Incorrect number of frames extracted").

(** The videos [video2frames] loops over, lines 42-51. *)
Definition located_videos (fs : store) (sVideoDir : string) (nClasses : option Z)
  : exn + list string :=
  restrict_classes nClasses
    (glob fs (OsPath.dirname (sVideoDir +:+ "/*")) [Star; Star; StarSuffix ".avi"]).

(** [video2frames], lines 35-87. *)
Definition video2frames (sVideoDir sFrameDir : string) (nFramesNorm : Z)
    (nClasses : option Z) : M unit :=
  do fs <- get;
  if OsPath.exists_ fs sFrameDir
  then raise (ValueError ("Folder " +:+ sFrameDir +:+ " alredy exists"))
  else
    do dfVideos <- lift (located_videos fs sVideoDir nClasses);
    for_each dfVideos (video2frames_body sFrameDir nFramesNorm).

(** The sorted frame files of one video, line 124. *)
Definition frame_files (fs : store) (sFrameDir seVideo : string) : list string :=
  PyStr.sorted
    (glob fs (OsPath.dirname (OsPath.join (OsPath.join sFrameDir seVideo) "*.jpg"))
          [StarSuffix ".jpg"]).

(** One round of the loop of [frames2features], lines 115-146. *)
Definition frames2features_body (sFrameDir sFeatureDir : string) (oCNN : ConvNet)
    (nFramesNorm : Z) (seVideo : string) : M unit :=
  let sFeaturePath := OsPath.join sFeatureDir (seVideo +:+ ".npy") in
  do fs <- get;
  if OsPath.exists_ fs sFeaturePath then ret tt else
  run os_makedirs (OsPath.dirname sFeaturePath);
  do fs <- get;
  let sFrames := frame_files fs sFrameDir seVideo in
  if decide (Z.of_nat (length sFrames) = nFramesNorm) then
    do liFrames <- lift (map_exn
        (fun sFrame =>
           match load_img (fs !! OsPath.resolve sFrame) (tuHeightWidth oCNN) with
           | Some arFrame => inr arFrame
           | None => inl (OSError "cannot identify image file")
           end)
        sFrames);
    let arFrames := preprocess_input oCNN (np_array liFrames) in
    let arFeatures := cnn_predict oCNN arFrames in
    do arFeatures <- lift (reshape_rows arFeatures nFramesNorm);
    write (OsPath.resolve sFeaturePath) (File (Npy arFeatures))
  else raise AssertionError.

(** The frame directories [frames2features] loops over, lines 96-108: the
    entries three levels below [sFrameDir], named relative to it (the
    listing is made from inside [sFrameDir]). *)
Definition listed_videos (fs : store) (sFrameDir : string) (nClasses : option Z)
  : exn + list string :=
  restrict_classes nClasses
    (PyStr.join "/" <$> glob_rel fs (OsPath.resolve sFrameDir) [Star; Star; Star]).

(** [frames2features], lines 90-147; leaving the working directory for
    [sFrameDir] fails when that is no directory. *)
Definition frames2features (sFrameDir sFeatureDir : string) (oCNN : ConvNet)
    (nFramesNorm : Z) (nClasses : option Z) : M unit :=
  do fs <- get;
  if OsPath.exists_ fs sFeatureDir
  then raise (ValueError ("Folder " +:+ sFeatureDir +:+ " alredy exists"))
  else if negb (OsPath.isdir fs sFrameDir)
  then raise (OSError "No such directory")
  else
    do dfVideos <- lift (listed_videos fs sFrameDir nClasses);
    for_each dfVideos (frames2features_body sFrameDir sFeatureDir oCNN nFramesNorm).

(** [dfClass.loc[arPred, "sClass"]]: a missing index raises. *)
Definition loc_sClass (oClasses : VideoClasses) (arPred : list nat) : exn + list string :=
  map_exn (fun i => match dfClass oClasses !! i with
                    | Some c => inr c
                    | None => inl KeyError
                    end) arPred.

(** [liLabels == series], element by element. *)
Definition eq_elementwise (a b : list string) : exn + list bool :=
  if decide (length a = length b)
  then inr (zip_with (fun x y => bool_decide (x = y)) a b)
  else inl (ValueError "Lengths must match to compare").

(** [predict], lines 221-244; the value is the accuracy it prints. *)
Definition predict (sFeatureDir : string) (oRNN : RecurrentNet) : M Q :=
  do fs <- get;
  do oFeatures <- lift (load_features fs sFeatureDir (rnn_nFramesNorm oRNN)
                          (nFeatureLength oRNN) (liClasses (oClasses oRNN)));
  let arProba := rnn_predict oRNN (arFeatures oFeatures) in
  do arPred <- lift (map_exn argmax arProba);
  do sePred <- lift (loc_sClass (oClasses oRNN) arPred);
  do arEqual <- lift (eq_elementwise (liLabels oFeatures) sePred);
  ret (np_mean arEqual).

End Pipeline.

(** ** A small data set *)

Module Sample.

(** A video file is one byte: the number of frames the transcoder gets
    out of it. *)
Definition video (nFrames : Z) : node := File (Blob [nFrames]).

Definition tree (videos : list (list string * node)) : store :=
  list_to_map ([(["v"], Dir); (["v"; "train"], Dir);
                (["v"; "train"; "c1"], Dir); (["v"; "train"; "c2"], Dir)] ++ videos).

(** Two videos in two classes, two frames each. *)
Definition fs_videos : store :=
  tree [(["v"; "train"; "c1"; "a.avi"], video 2); (["v"; "train"; "c2"; "b.avi"], video 2)].

(** One video that yields a single frame. *)
Definition fs_short : store := tree [(["v"; "train"; "c1"; "a.avi"], video 1)].

(** One video of a thousand frames. *)
Definition fs_long : store := tree [(["v"; "train"; "c1"; "a.avi"], video 1000)].

(** Every video lasts one second. *)
Definition mediainfo (_ : option node) : string := "1000".

Definition ffmpeg (f : option node) (_ : Q) (_ : Z) : list content :=
  match f with
  | Some (File (Blob [z])) => (fun i => Blob [Z.of_nat i]) <$> seq 1 (Z.to_nat z)
  | _ => []
  end.

Definition load_img (f : option node) (_ : nat * nat) : option ndarray :=
  match f with
  | Some (File (Blob [z])) => Some {| shape := [1; 1; 3]%nat; data := [inject_Z z; 0%Q; 0%Q] |}
  | _ => None
  end.

Definition cnn : ConvNet :=
  {| tuHeightWidth := (1, 1)%nat; preprocess_input := id; cnn_predict := id |}.

(** The store after the frame stage, and after the feature stage. *)
Definition fs_frames : store :=
  (video2frames mediainfo ffmpeg "v" "f" 2 None fs_videos).1.

Definition fs_features : store :=
  (frames2features load_img "f" "feat" cnn 2 None fs_frames).1.

(** The store after the frame stage on the long video. *)
Definition fs_long_frames : store :=
  (video2frames mediainfo ffmpeg "v" "f" 1000 None fs_long).1.

End Sample.

(** ** Notions used in the statements *)

(** [i] is the first index of a largest entry of [row]. *)
Definition is_argmax (row : list Q) (i : nat) : Prop :=
  ∃ x, row !! i = Some x
       ∧ (∀ j y, row !! j = Some y → (y <= x)%Q)
       ∧ (∀ j y, row !! j = Some y → (j < i)%nat → (y < x)%Q).

(** The number of positions at which the two lists agree. *)
Fixpoint hits (pred truth : list string) : nat :=
  match pred, truth with
  | p :: pred', t :: truth' => (if decide (t = p) then 1 else 0) + hits pred' truth'
  | _, _ => 0
  end.

Definition str_le (a b : string) : Prop := PyStr.leb a b = true.

(** [l] is the second-to-last slash-separated component of [s]. *)
Definition second_to_last (s l : string) : Prop :=
  ∃ pre last, PyStr.split "/" s = pre ++ [l; last].

(** [L] lists the distinct labels in ascending order. *)
Definition ascending_distinct (labels L : list string) : Prop :=
  Sorted str_le L ∧ NoDup L ∧ ∀ x, x ∈ L ↔ x ∈ labels.

(** What the block [if nClasses != None] leaves of the located paths:
    those whose label is among the first [n] of the distinct labels in
    ascending order (for a negative [n], as the slice [[:n]] has it, all
    but the last [-n]), in the order of the listing. *)
Definition restricted_to (paths : list string) (n : Z) (r : exn + list string) : Prop :=
  ∃ labels L sel,
    Forall2 second_to_last paths labels
    ∧ ascending_distinct labels L
    ∧ r = inr sel
    ∧ sel `sublist_of` paths
    ∧ ∀ s, s ∈ sel ↔ s ∈ paths ∧ ∃ l, second_to_last s l ∧ l ∈ PyStr.slice_to L n.

(** [fs] arises from [fs0] by the writes of the feature stage into the
    feature directory [BF]: nothing of [fs0] is changed or removed; what
    is new is a directory on the way to [BF] or at most two levels below
    it, or an array file [BF/x/y/c.npy] with [n] rows. *)
Definition feature_made (BF : list string) (n : Z) (fs0 fs : store) : Prop :=
  fs0 ⊆ fs
  ∧ ∀ k, fs0 !! k = None →
      match fs !! k with
      | None => True
      | Some Dir => k `prefix_of` BF ∨ ∃ r, k = BF ++ r ∧ (length r ≤ 2)%nat
      | Some (File (Npy arr)) =>
          (∃ x y c, k = BF ++ [x; y; c +:+ ".npy"])
          ∧ (0 < n)%Z ∧ ∃ F, shape arr = [Z.to_nat n; F]
      | Some (File (Blob _)) => False
      end.

(** In a well-formed store whatever lies above an entry exists as well. *)
Definition well_formed (fs : store) : Prop :=
  ∀ k k', is_Some (fs !! k) → k' `prefix_of` k → k' ≠ [] → is_Some (fs !! k').

(** The message of the guard. *)
Definition folder_exists (sDir : string) : exn :=
  ValueError ("Folder " +:+ sDir +:+ " alredy exists").

(** An exception raised past the guard. *)
Definition past_guard (e : exn) : Prop :=
  match e with
  | ValueError msg => ∃ c rest, msg = String c rest ∧ c ≠ "F"%char
  | _ => True
  end.

(** [fs] arises from [fs0] by the writes of the frame stage below [base]:
    an entry either is as it was, or is a new directory on the way to
    [base] or at most three levels below it, or is a frame file four levels
    below it. *)
Definition frames_made (base : list string) (fs0 fs : store) : Prop :=
  ∀ k, fs !! k = fs0 !! k
       ∨ (fs0 !! k = None ∧ fs !! k = Some Dir
          ∧ (k `prefix_of` base ∨ ∃ r, k = base ++ r ∧ (length r ≤ 3)%nat))
       ∨ (∃ x y z i c, k = base ++ [x; y; z; frame_name i] ∧ fs !! k = Some (File c)).

(** * Properties *)

(** A closed, decidable statement settled by evaluation. *)
Ltac by_computation :=
  match goal with
  | |- ?P => apply (bool_decide_eq_true_1 P); vm_compute; reflexivity
  end.

Example split_empty : PyStr.split "/" "" = [""].
Proof. reflexivity. Qed.

Example split_edges : PyStr.split "/" "/a//b/" = [""; "a"; ""; "b"; ""].
Proof. reflexivity. Qed.

Example pad_7 : PyStr.zero_pad 3 7 = "007".
Proof. reflexivity. Qed.

Example pad_1000 : PyStr.zero_pad 3 1000 = "1000".
Proof. reflexivity. Qed.

Example sorted_ex : PyStr.sorted ["b"; "a"; "ab"; "B"] = ["B"; "a"; "ab"; "b"].
Proof. reflexivity. Qed.

Example unique_ex : PyStr.unique ["b"; "a"; "b"; "c"; "a"] = ["b"; "a"; "c"].
Proof. reflexivity. Qed.

Example slice_neg : PyStr.slice_to [1; 2; 3] (-1) = [1; 2].
Proof. reflexivity. Qed.

(** ** Strings *)

Section StringFacts.

Variable sep : ascii.

Lemma split_nonempty s : PyStr.split sep s ≠ [].
Proof.
  destruct s as [|c s]; simpl; [done|].
  destruct (Ascii.eqb c sep); [done|].
  by destruct (PyStr.split sep s).
Qed.

Lemma split_cons s : ∃ w ws, PyStr.split sep s = w :: ws.
Proof.
  pose proof (split_nonempty s) as H.
  destruct (PyStr.split sep s) as [|w ws]; [done|eauto].
Qed.

(** Splitting distributes over a separator in the middle. *)
Lemma split_app_sep x y :
  PyStr.split sep (x +:+ String sep y) = (PyStr.split sep x ++ PyStr.split sep y)%list.
Proof.
  induction x as [|c x IH]; simpl.
  - by rewrite Ascii.eqb_refl.
  - destruct (Ascii.eqb c sep); [by rewrite IH|].
    rewrite IH. destruct (split_cons x) as (w & ws & ->). done.
Qed.

(** A string without the separator is its own single component. *)
Lemma split_no_sep s : PyStr.mem sep s = false → PyStr.split sep s = [s].
Proof.
  induction s as [|c s IH]; simpl; [done|].
  intros [Hc Hs]%orb_false_iff. rewrite Hc, (IH Hs). done.
Qed.

(** No component contains the separator. *)
Lemma split_mem s w : w ∈ PyStr.split sep s → PyStr.mem sep w = false.
Proof.
  revert w. induction s as [|c s IH]; simpl; intros w.
  - by intros ->%list_elem_of_singleton.
  - destruct (Ascii.eqb c sep) eqn:Hc.
    + intros [->|Hw]%elem_of_cons; [done|by apply IH].
    + destruct (split_cons s) as (w0 & ws & Hs). rewrite Hs in IH |- *.
      intros [->|Hw]%elem_of_cons.
      * simpl. rewrite Hc. apply IH. by left.
      * apply IH. by right.
Qed.

End StringFacts.

Lemma index_back_app {A} (pre l : list A) (k : nat) :
  (1 ≤ k ≤ length l)%nat →
  PyStr.index_back (pre ++ l) k = l !! (length l - k)%nat.
Proof.
  intros Hk. unfold PyStr.index_back.
  destruct (Nat.eqb_spec k 0); [lia|].
  rewrite length_app.
  destruct (Nat.ltb_spec (length pre + length l) k); [lia|].
  rewrite lookup_app_r by lia. f_equal. lia.
Qed.

Example split_path : PyStr.split "/" "v/train/c1/a.avi" = ["v"; "train"; "c1"; "a.avi"].
Proof. reflexivity. Qed.

(** ** The frame directory of a video *)

Lemma video_dir_short sFrameDir sVideoPath :
  (length (PyStr.split "/" sVideoPath) < 4)%nat →
  video_dir sFrameDir sVideoPath =
    inl (ValueError ("Video path should have min 4 components: "
                     +:+ str_list (PyStr.split "/" sVideoPath))).
Proof.
  intros H. unfold video_dir.
  by destruct (Nat.ltb_spec (length (PyStr.split "/" sVideoPath)) 4); [|lia].
Qed.

Lemma video_dir_long sFrameDir sVideoPath pre a b f :
  PyStr.split "/" sVideoPath = (pre ++ [a; b; f])%list → pre ≠ [] →
  video_dir sFrameDir sVideoPath =
    match PyStr.split "." f with
    | sVideoName :: _ => inr (sFrameDir +:+ "/" +:+ a +:+ "/" +:+ b +:+ "/" +:+ sVideoName)
    | [] => inl IndexError
    end.
Proof.
  intros Hli Hpre. unfold video_dir. rewrite Hli.
  destruct (Nat.ltb_spec (length (pre ++ [a; b; f])) 4) as [Hlt|_].
  { rewrite length_app in Hlt. destruct pre; [done|]. simpl in Hlt. lia. }
  rewrite !index_back_app by (simpl; lia). done.
Qed.

(** The first component of a split is the part before the first
    separator. *)
Lemma split_stem (c : ascii) f stem rest :
  PyStr.mem c stem = false → f = stem ∨ f = stem +:+ String c rest →
  ∃ ws, PyStr.split c f = stem :: ws.
Proof.
  intros Hstem [->| ->].
  - rewrite split_no_sep by done. eauto.
  - rewrite split_app_sep, split_no_sep by done. simpl. eauto.
Qed.

(** C9.  A video path with fewer than four slash-separated components makes
    the loop body of [video2frames] raise [ValueError] (before anything is
    written); for a path with at least four components, ending in
    [a/b/f], the frame directory is [sFrameDir/a/b/stem], where [stem] is
    the part of the file name [f] before its first dot. *)
Theorem video_dir_components
    (mediainfo : option node → string) (ffmpeg : option node → Q → Z → list content)
    (sFrameDir : string) (nFramesNorm : Z) (sVideoPath : string) (fs : store) :
  ((length (PyStr.split "/" sVideoPath) < 4)%nat →
     ∃ msg, video2frames_body mediainfo ffmpeg sFrameDir nFramesNorm sVideoPath fs
            = (fs, inl (ValueError msg)))
  ∧ (∀ pre a b f stem rest,
       PyStr.split "/" sVideoPath = (pre ++ [a; b; f])%list → pre ≠ [] →
       PyStr.mem "." stem = false → f = stem ∨ f = stem +:+ "." +:+ rest →
       video_dir sFrameDir sVideoPath
       = inr (sFrameDir +:+ "/" +:+ a +:+ "/" +:+ b +:+ "/" +:+ stem)).
Proof.
  split.
  - intros H. eexists. unfold video2frames_body, bind.
    rewrite (video_dir_short _ _ H). reflexivity.
  - intros pre a b f stem rest Hli Hpre Hstem Hf.
    rewrite (video_dir_long _ _ _ _ _ _ Hli Hpre).
    destruct (split_stem "." f stem rest Hstem Hf) as [ws ->]. done.
Qed.

Lemma video_dir_components_witness :
  (∃ msg, video2frames_body (fun _ => "1000") (fun _ _ _ => []) "frames" 20 "c1/a.avi" ∅
          = (∅, inl (ValueError msg)))
  ∧ video_dir "frames" "videos/train/c1/a.b.avi" = inr "frames/train/c1/a".
Proof.
  split.
  - apply (video_dir_components (fun _ => "1000") (fun _ _ _ => []) "frames" 20 "c1/a.avi" ∅).
    vm_compute. lia.
  - apply (proj2 (video_dir_components (fun _ => "1000") (fun _ _ _ => [])
                    "frames" 20 "videos/train/c1/a.b.avi" ∅)
             ["videos"] "train" "c1" "a.b.avi" "a" "b.avi");
      [reflexivity | discriminate | reflexivity | right; reflexivity].
Defined.

(** ** Prediction *)

Lemma argmax_from_spec (l pre : list Q) (best_i : nat) (best : Q) :
  pre !! best_i = Some best →
  (∀ j y, pre !! j = Some y → (y <= best)%Q) →
  (∀ j y, pre !! j = Some y → (j < best_i)%nat → (y < best)%Q) →
  is_argmax (pre ++ l) (argmax_from best_i best (length pre) l).
Proof.
  revert pre best_i best.
  induction l as [|x l IH]; intros pre best_i best Hb Hle Hlt; simpl.
  - rewrite app_nil_r. exists best. done.
  - replace (pre ++ x :: l) with ((pre ++ [x]) ++ l) by (by rewrite <- app_assoc).
    replace (S (length pre)) with (length (pre ++ [x])) by (rewrite length_app; simpl; lia).
    destruct (Qle_bool x best) eqn:Hx.
    + apply Qle_bool_iff in Hx. apply IH.
      * by apply lookup_app_l_Some.
      * intros j y [Hj|[_ Hj]]%lookup_app_Some; [by eapply Hle|].
        destruct (j - length pre)%nat; simpl in Hj; [|done]. by simplify_eq.
      * intros j y Hj Hji. apply (Hlt j y); [|done].
        apply lookup_lt_Some in Hb.
        rewrite lookup_app_l in Hj by lia. done.
    + assert (best < x)%Q as Hbx.
      { apply Qnot_le_lt. intros Hc. apply Qle_bool_iff in Hc. congruence. }
      rewrite length_app. simpl. rewrite Nat.add_1_r.
      replace (S (length pre)) with (length (pre ++ [x])) by (rewrite length_app; simpl; lia).
      apply IH.
      * rewrite lookup_app_r by lia. by rewrite Nat.sub_diag.
      * intros j y [Hj|[_ Hj]]%lookup_app_Some.
        -- apply Qlt_le_weak. eapply Qle_lt_trans; [by eapply Hle|done].
        -- destruct (j - length pre)%nat; simpl in Hj; [|done].
           simplify_eq. apply Qle_refl.
      * intros j y Hj Hji. rewrite lookup_app_l in Hj by lia.
        eapply Qle_lt_trans; [by eapply Hle|done].
Qed.

Lemma argmax_spec (row : list Q) :
  row ≠ [] → ∃ i, argmax row = inr i ∧ is_argmax row i.
Proof.
  destruct row as [|x l]; [done|]. intros _. eexists. split; [done|].
  apply (argmax_from_spec l [x] 0 x).
  - done.
  - intros [|j] y Hj; simpl in Hj; [|done]. simplify_eq. apply Qle_refl.
  - intros j y _ Hj. lia.
Qed.

Lemma is_argmax_lt (row : list Q) (i : nat) : is_argmax row i → (i < length row)%nat.
Proof. intros (x & Hx & _). by eapply lookup_lt_Some. Qed.

Lemma map_exn_argmax (arProba : list (list Q)) :
  Forall (fun row => row ≠ []) arProba →
  ∃ arPred, map_exn argmax arProba = inr arPred ∧ Forall2 is_argmax arProba arPred.
Proof.
  induction 1 as [|row rows Hrow _ (arPred & Hmap & IH)]; simpl.
  - exists []. done.
  - destruct (argmax_spec row Hrow) as (i & -> & Hi). rewrite Hmap.
    exists (i :: arPred). split; [done|]. by constructor.
Qed.

Lemma loc_sClass_spec (oC : VideoClasses) (arPred : list nat) :
  Forall (fun i => (i < length (dfClass oC))%nat) arPred →
  ∃ sePred, loc_sClass oC arPred = inr sePred
            ∧ Forall2 (fun i c => dfClass oC !! i = Some c) arPred sePred.
Proof.
  unfold loc_sClass.
  induction 1 as [|i l Hi _ (sePred & Hmap & IH)]; simpl.
  - exists []. done.
  - destruct (lookup_lt_is_Some_2 _ _ Hi) as [c Hc]. rewrite Hc, Hmap.
    exists (c :: sePred). split; [done|]. by constructor.
Qed.

Lemma np_mean_hits (truth pred : list string) :
  length truth = length pred →
  np_mean (zip_with (fun x y => bool_decide (x = y)) truth pred)
  = (inject_Z (Z.of_nat (hits pred truth)) / inject_Z (Z.of_nat (length pred)))%Q.
Proof.
  intros Hlen. unfold np_mean. f_equal; f_equal; f_equal.
  - clear Hlen. revert pred. induction truth as [|t truth IH]; intros [|p pred]; simpl; try done.
    rewrite filter_cons. rewrite <- IH.
    destruct (decide (t = p)).
    + rewrite bool_decide_true by done. by destruct (decide (true = true)).
    + rewrite bool_decide_false by done. by destruct (decide (false = true)).
  - rewrite length_zip_with. lia.
Qed.



Example predict_half :
  predict (fun _ _ _ _ _ =>
             inr {| arFeatures := {| shape := [2; 1; 1]%nat; data := [1%Q; 2%Q] |};
                    liLabels := ["c2"; "c2"]; nSamples := 2 |})
          "feat/val"
          {| rnn_nFramesNorm := 1; nFeatureLength := 1;
             oClasses := {| dfClass := ["c1"; "c2"]; liClasses := ["c1"; "c2"] |};
             rnn_predict := fun _ => [[(1#5)%Q; (4#5)%Q]; [(3#5)%Q; (2#5)%Q]] |} ∅
  = (∅, inr (1 / 2)%Q).
Proof. reflexivity. Qed.

(** ** The order of strings and [sorted] *)

Lemma ascii_compare_lt_trans (x y z : ascii) :
  Ascii.compare x y = Lt → Ascii.compare y z = Lt → Ascii.compare x z = Lt.
Proof.
  unfold Ascii.compare. rewrite !N.compare_lt_iff. apply N.lt_trans.
Qed.

Lemma leb_trans (a b c : string) :
  String.leb a b = true → String.leb b c = true → String.leb a c = true.
Proof.
  revert b c. unfold String.leb.
  induction a as [|x a IH]; intros [|y b] [|z c]; simpl; try done.
  destruct (Ascii.compare x y) eqn:E1; [| |done].
  - apply Ascii.compare_eq_iff in E1 as ->.
    destruct (Ascii.compare y z) eqn:E2; [apply IH|done|done].
  - destruct (Ascii.compare y z) eqn:E2; [| |done].
    + apply Ascii.compare_eq_iff in E2 as ->. by rewrite E1.
    + by rewrite (ascii_compare_lt_trans _ _ _ E1 E2).
Qed.

#[local] Instance str_le_trans : Transitive str_le.
Proof. intros a b c. apply leb_trans. Qed.

#[local] Instance str_le_antisym : AntiSymm (=) str_le.
Proof. intros a b. apply String.leb_antisym. Qed.

#[local] Instance str_le_total : Total str_le.
Proof. intros a b. apply String.leb_total. Qed.

Lemma insert_sorted_perm x l : PyStr.insert_sorted x l ≡ₚ x :: l.
Proof.
  induction l as [|y l IH]; simpl; [done|].
  destruct (PyStr.leb x y); [done|].
  rewrite IH. apply Permutation_swap.
Qed.

Lemma sorted_perm l : PyStr.sorted l ≡ₚ l.
Proof.
  induction l as [|x l IH]; simpl; [done|].
  rewrite insert_sorted_perm. by rewrite IH.
Qed.

Lemma insert_sorted_Sorted x l :
  Sorted str_le l → Sorted str_le (PyStr.insert_sorted x l).
Proof.
  induction 1 as [|y l Hl IH Hhd]; simpl.
  - by repeat constructor.
  - destruct (PyStr.leb x y) eqn:Hxy.
    + constructor; [by constructor|]. by constructor.
    + constructor; [done|].
      assert (str_le y x) as Hyx.
      { destruct (String.leb_total x y) as [H|H]; [unfold PyStr.leb in Hxy; congruence|done]. }
      destruct Hhd as [|z l' Hyz]; simpl.
      * by constructor.
      * destruct (PyStr.leb x z); by constructor.
Qed.

Lemma sorted_Sorted l : Sorted str_le (PyStr.sorted l).
Proof.
  induction l as [|x l IH]; simpl; [constructor|]. by apply insert_sorted_Sorted.
Qed.

(** [sorted] finds the ascending arrangement, whatever the order of its
    argument. *)
Lemma sorted_of_perm l t : Sorted str_le t → l ≡ₚ t → PyStr.sorted l = t.
Proof.
  intros Ht Hp. apply (Sorted_unique str_le); [apply sorted_Sorted|done|].
  by rewrite sorted_perm.
Qed.

Lemma unique_elem_of x l : x ∈ PyStr.unique l ↔ x ∈ l.
Proof.
  induction l as [|y l IH]; simpl; [done|].
  rewrite !elem_of_cons, list_elem_of_filter, IH.
  destruct (decide (x = y)); naive_solver.
Qed.

Lemma unique_NoDup l : NoDup (PyStr.unique l).
Proof.
  induction l as [|y l IH]; simpl; constructor.
  - rewrite list_elem_of_filter. naive_solver.
  - by apply NoDup_filter.
Qed.

(** ** Restriction to the first classes *)

Lemma label_of_inr s l : label_of s = inr l ↔ second_to_last s l.
Proof.
  unfold label_of, second_to_last. split.
  - destruct (PyStr.index_back _ 2) as [l'|] eqn:Hl; [|done].
    intros [= ->]. revert Hl. unfold PyStr.index_back. simpl.
    generalize (PyStr.split "/" s). intros li.
    destruct (Nat.ltb_spec (length li) 2) as [|Hlen]; [done|]. intros Hl.
    exists (take (length li - 2) li).
    destruct (drop (length li - 2) li) as [|x [|y [|z r]]] eqn:Hd.
    + apply (f_equal length) in Hd. rewrite length_drop in Hd. simpl in Hd. lia.
    + apply (f_equal length) in Hd. rewrite length_drop in Hd. simpl in Hd. lia.
    + exists y.
      assert (drop (length li - 2) li !! 0%nat = Some l) as Hx.
      { rewrite lookup_drop. by rewrite Nat.add_0_r. }
      rewrite Hd in Hx. simpl in Hx. simplify_eq.
      rewrite <- Hd. symmetry. apply take_drop.
    + apply (f_equal length) in Hd. rewrite length_drop in Hd. simpl in Hd. lia.
  - intros (pre & last & ->). by rewrite index_back_app by (simpl; lia).
Qed.

Lemma map_exn_inr {A B} (f : A → exn + B) (l : list A) (ys : list B) :
  map_exn f l = inr ys ↔ Forall2 (fun x y => f x = inr y) l ys.
Proof.
  revert ys. induction l as [|x l IH]; intros ys; simpl.
  - split; [intros [= <-]; constructor|by inversion 1].
  - destruct (f x) as [e|y] eqn:Hx.
    + split; [done|]. inversion 1; congruence.
    + destruct (map_exn f l) as [e|ys'] eqn:Hl.
      * split; [done|]. inversion 1 as [|???? _ Hr]; subst.
        apply IH in Hr. done.
      * split.
        -- intros [= <-]. constructor; [done|]. by apply IH.
        -- inversion 1 as [|???? Hy Hr]; subst. apply IH in Hr. congruence.
Qed.

Lemma map_exn_exn {A B} (f : A → exn + B) (Q : exn → Prop) (l : list A) (e : exn) :
  (∀ x e, f x = inl e → Q e) → map_exn f l = inl e → Q e.
Proof.
  intros Hf. induction l as [|x l IH]; simpl; [done|].
  destruct (f x) as [e'|y] eqn:Hx; [intros [= <-]; by eapply Hf|].
  destruct (map_exn f l) as [e'|ys]; [|done]. intros [= <-]. by apply IH.
Qed.

Lemma map_exn_total {A B} (f : A → exn + B) (l : list A) :
  Forall (fun x => ∃ y, f x = inr y) l → ∃ ys, map_exn f l = inr ys.
Proof.
  induction 1 as [|x l [y Hy] _ [ys IH]]; simpl; [eauto|].
  rewrite Hy, IH. eauto.
Qed.

Lemma restrict_rows (C : list string) (paths labels : list string) :
  Forall2 (fun s l => label_of s = inr l) paths labels →
  (filter (fun row : string * string => row.2 ∈ C) (zip paths labels)).*1 `sublist_of` paths
  ∧ ∀ s, s ∈ (filter (fun row : string * string => row.2 ∈ C) (zip paths labels)).*1
         ↔ s ∈ paths ∧ ∃ l, label_of s = inr l ∧ l ∈ C.
Proof.
  induction 1 as [|s0 l0 paths labels Hl0 _ [IHsub IHin]]; simpl.
  - split; [done|]. intros s. rewrite elem_of_nil. naive_solver.
  - rewrite filter_cons. simpl. destruct (decide (l0 ∈ C)) as [Hin|Hnin]; simpl.
    + split; [by apply sublist_skip|].
      intros s. rewrite !elem_of_cons, IHin. split.
      * intros [->|[? ?]]; [|by auto]. split; [by left|]. eauto.
      * intros [[->|?] ?]; [by left|by right].
    + split; [by apply sublist_cons|].
      intros s. rewrite elem_of_cons, IHin. split.
      * intros [? ?]. by auto.
      * intros [[->|?] (l & Hl & HC)]; [|by eauto].
        rewrite Hl0 in Hl. by simplify_eq.
Qed.

Lemma slice_to_nonneg {A : Type} (l : list A) (n : Z) :
  (0 ≤ n)%Z → PyStr.slice_to l n = take (Z.to_nat n) l.
Proof. intros Hn. unfold PyStr.slice_to. by destruct (Z.ltb_spec n 0); [lia|]. Qed.

Lemma restrict_classes_spec (n : Z) (paths : list string) :
  Forall (fun s => ∃ l, second_to_last s l) paths →
  restricted_to paths n (restrict_classes (Some n) paths).
Proof.
  intros Hpaths.
  destruct (map_exn_total label_of paths) as [labels Hlabels].
  { eapply Forall_impl; [exact Hpaths|]. intros s [l Hl]. exists l. by apply label_of_inr. }
  pose proof Hlabels as HF. apply map_exn_inr in HF.
  exists labels, (PyStr.sorted (PyStr.unique labels)). eexists.
  unfold restrict_classes. rewrite Hlabels.
  split; [|split; [|split; [done|]]].
  - eapply Forall2_impl; [exact HF|]. intros s l. by apply label_of_inr.
  - split; [apply sorted_Sorted|]. split.
    + rewrite sorted_perm. apply unique_NoDup.
    + intros x. by rewrite sorted_perm, unique_elem_of.
  - destruct (restrict_rows (PyStr.slice_to (PyStr.sorted (PyStr.unique labels)) n)
                paths labels HF) as [Hsub Hin].
    split; [done|]. intros s. rewrite Hin.
    split; intros [? (l & Hl & ?)]; (split; [done|]); exists l; by rewrite label_of_inr in *.
Qed.

(** ** Paths *)

Lemma append_cons (x : ascii) (a b : string) : String x a +:+ b = String x (a +:+ b).
Proof. reflexivity. Qed.

Lemma append_assoc (a b c : string) : (a +:+ b) +:+ c = a +:+ (b +:+ c).
Proof. induction a as [|x a IH]; [done|]. rewrite !append_cons. by f_equal. Qed.

Lemma append_slash (a b : string) : a +:+ "/" +:+ b = a +:+ String "/" b.
Proof. reflexivity. Qed.

Lemma root_cons (c : ascii) (s : string) :
  OsPath.root (String c s) = if Ascii.eqb c "/" then ["/"] else [].
Proof.
  unfold OsPath.root. cbn [PyStr.startswith]. by rewrite andb_true_r.
Qed.

Lemma root_app (s t : string) : s ≠ "" → OsPath.root (s +:+ t) = OsPath.root s.
Proof. destruct s as [|c s]; [done|]. intros _. by rewrite append_cons, !root_cons. Qed.

(** The root marker can be read off the components. *)
Lemma root_split (p : string) :
  OsPath.root p = match PyStr.split "/" p with
                  | "" :: _ :: _ => ["/"]
                  | _ => []
                  end.
Proof.
  destruct p as [|c p]; [done|]. rewrite root_cons. simpl.
  destruct (Ascii.eqb c "/").
  - by destruct (split_cons "/" p) as (w & ws & ->).
  - by destruct (split_cons "/" p) as (w & ws & ->).
Qed.

Lemma endswith_inv (a p : string) :
  PyStr.endswith a p = true → ∃ a', a = a' +:+ p.
Proof.
  induction a as [|c a IH]; cbn [PyStr.endswith].
  - rewrite orb_false_r. intros <-%String.eqb_eq. by exists "".
  - intros [->%String.eqb_eq|H]%orb_true_iff; [by exists ""|].
    destruct (IH H) as [a' ->]. by exists (String c a').
Qed.

Lemma is_name_proper n : OsPath.is_name n → OsPath.proper n.
Proof. intros (? & ? & _). done. Qed.

Lemma is_name_no_slash n : OsPath.is_name n → PyStr.mem "/" n = false.
Proof. by intros (_ & _ & _ & ?). Qed.

Lemma no_slash_startswith n : PyStr.mem "/" n = false → PyStr.startswith n "/" = false.
Proof.
  destruct n as [|c n]; [done|]. cbn [PyStr.mem PyStr.startswith].
  by intros [-> _]%orb_false_iff.
Qed.

Lemma split_join (l : list string) :
  l ≠ [] → Forall (fun n => PyStr.mem "/" n = false) l →
  PyStr.split "/" (PyStr.join "/" l) = l.
Proof.
  intros Hl. induction 1 as [|x l Hx Hrest IH]; [done|].
  destruct l as [|y l].
  - by apply split_no_sep.
  - change (PyStr.join "/" (x :: y :: l))
      with (x +:+ String "/" (PyStr.join "/" (y :: l))).
    rewrite split_app_sep, split_no_sep by done.
    rewrite IH by done. done.
Qed.

Lemma join_startswith (l : list string) :
  Forall OsPath.is_name l → PyStr.startswith (PyStr.join "/" l) "/" = false.
Proof.
  destruct 1 as [|x l Hx _]; [done|].
  destruct Hx as (Hne & _ & _ & Hx).
  destruct x as [|c x]; [done|].
  cbn [PyStr.mem] in Hx. apply orb_false_iff in Hx as [Hc _].
  destruct l; cbn [PyStr.join]; rewrite ?append_cons; cbn [PyStr.startswith]; by rewrite Hc.
Qed.

(** The components of [os.path.join(F, r)] for a relative [r]. *)
Lemma join_split (F r : string) :
  PyStr.startswith r "/" = false →
  ∃ pre, PyStr.split "/" (OsPath.join F r) = pre ++ PyStr.split "/" r
         ∧ OsPath.root (OsPath.join F r) ++ filter OsPath.proper pre = OsPath.resolve F
         ∧ (F ≠ "" → pre ≠ []).
Proof.
  intros Hr. unfold OsPath.join. rewrite Hr.
  destruct (decide (F = "")) as [->|HF].
  { exists []. split; [done|]. split; [|done].
    unfold OsPath.root. by rewrite Hr. }
  destruct (PyStr.endswith F "/") eqn:Hend.
  - apply endswith_inv in Hend as [F' ->].
    exists (PyStr.split "/" F'). rewrite append_assoc, append_slash, split_app_sep.
    split; [done|]. split; [|by intros _; apply split_nonempty].
    unfold OsPath.resolve.
    rewrite <- append_slash, <- append_assoc, root_app by done.
    rewrite (split_app_sep "/" F' ""), filter_app. f_equal.
    cbn [PyStr.split]. rewrite filter_cons.
    destruct (decide (OsPath.proper "")) as [[? _]|_]; [done|].
    by rewrite filter_nil, app_nil_r.
  - exists (PyStr.split "/" F). rewrite append_slash, split_app_sep.
    split; [done|]. split; [|by intros _; apply split_nonempty].
    by rewrite root_app.
Qed.

Lemma resolve_join (F r : string) :
  PyStr.startswith r "/" = false →
  OsPath.resolve (OsPath.join F r) = OsPath.resolve F ++ filter OsPath.proper (PyStr.split "/" r).
Proof.
  intros Hr. destruct (join_split F r Hr) as (pre & Hsplit & Hres & _).
  unfold OsPath.resolve at 1. rewrite Hsplit, filter_app, app_assoc. by rewrite Hres.
Qed.

Lemma filter_proper_names (l : list string) :
  Forall OsPath.is_name l → filter OsPath.proper l = l.
Proof.
  induction 1 as [|x l Hx _ IH]; [done|].
  rewrite filter_cons, IH. destruct (decide (OsPath.proper x)) as [|Hn]; [done|].
  destruct Hn. by apply is_name_proper.
Qed.

(** Joining a relative name list onto a directory appends it to the
    resolved directory. *)
Lemma resolve_join_names (F : string) (l : list string) :
  l ≠ [] → Forall OsPath.is_name l →
  OsPath.resolve (OsPath.join F (PyStr.join "/" l)) = OsPath.resolve F ++ l.
Proof.
  intros Hne Hl. rewrite resolve_join by by apply join_startswith.
  rewrite split_join; [|done|].
  - by rewrite filter_proper_names.
  - eapply Forall_impl; [exact Hl|]. apply is_name_no_slash.
Qed.

Lemma split_slashes (k : nat) : PyStr.split "/" (OsPath.slashes k) = replicate (S k) "".
Proof. induction k as [|k IH]; [done|]. cbn [OsPath.slashes PyStr.split]. by rewrite IH. Qed.

Lemma filter_proper_empty (l : list string) :
  Forall (fun c => c = "") l → filter OsPath.proper l = [].
Proof.
  induction 1 as [|x l -> _ IH]; [done|].
  rewrite filter_cons, IH. by destruct (decide (OsPath.proper "")) as [[? _]|_].
Qed.

Lemma dte_not_nil (l : list string) :
  ¬ Forall (fun c => c = "") l → OsPath.drop_trailing_empty l ≠ [].
Proof.
  induction l as [|x l IH]; [by intros []|].
  intros Hn. cbn [OsPath.drop_trailing_empty].
  destruct (OsPath.drop_trailing_empty l) as [|y r] eqn:Hd; [|done].
  destruct (decide (x = "")) as [->|]; [|done].
  destruct (decide (Forall (fun c => c = "") l)) as [Hl|Hl].
  - destruct Hn. by constructor.
  - by destruct (IH Hl).
Qed.

Lemma dte_cons (x : string) (l : list string) :
  OsPath.drop_trailing_empty l ≠ [] →
  OsPath.drop_trailing_empty (x :: l) = x :: OsPath.drop_trailing_empty l.
Proof.
  intros Hl. cbn [OsPath.drop_trailing_empty].
  by destruct (OsPath.drop_trailing_empty l).
Qed.

Lemma dte_filter (l : list string) :
  filter OsPath.proper (OsPath.drop_trailing_empty l) = filter OsPath.proper l.
Proof.
  induction l as [|x l IH]; [done|].
  cbn [OsPath.drop_trailing_empty].
  destruct (OsPath.drop_trailing_empty l) as [|y r] eqn:Hd.
  - rewrite filter_cons, <- IH, filter_nil.
    destruct (decide (x = "")) as [->|Hx]; [|by rewrite filter_cons, filter_nil].
    by destruct (decide (OsPath.proper "")) as [[? _]|_].
  - by rewrite !filter_cons, <- IH.
Qed.

Lemma dte_Forall (P : string → Prop) (l : list string) :
  Forall P l → Forall P (OsPath.drop_trailing_empty l).
Proof.
  induction 1 as [|x l Hx _ IH]; [done|].
  cbn [OsPath.drop_trailing_empty].
  destruct (OsPath.drop_trailing_empty l) as [|y r].
  - destruct (decide (x = "")); [done|by constructor].
  - by constructor.
Qed.

Lemma split_no_slash (p : string) :
  Forall (fun n => PyStr.mem "/" n = false) (PyStr.split "/" p).
Proof. apply Forall_forall. intros w. apply split_mem. Qed.

Lemma removelast_snoc {A} (l : list A) (x : A) : removelast (l ++ [x]) = l.
Proof. by rewrite removelast_app, app_nil_r. Qed.

Lemma split_snoc (p : string) :
  ∃ last, PyStr.split "/" p = removelast (PyStr.split "/" p) ++ [last].
Proof.
  exists (List.last (PyStr.split "/" p) "").
  apply app_removelast_last, split_nonempty.
Qed.

(** [os.path.dirname] drops the last component. *)
Lemma resolve_dirname (p : string) :
  OsPath.resolve (OsPath.dirname p)
  = OsPath.root p ++ filter OsPath.proper (removelast (PyStr.split "/" p)).
Proof.
  unfold OsPath.dirname. rewrite (root_split p).
  destruct (split_snoc p) as [last Hsplit].
  pose proof (split_no_slash p) as Hslash.
  set (hc := removelast (PyStr.split "/" p)) in *. clearbody hc.
  rewrite Hsplit in Hslash |- *. clear Hsplit.
  apply Forall_app in Hslash as [Hslash _].
  destruct (decide (Forall (fun c => c = "") hc)) as [Hall|Hsome].
  - rewrite (filter_proper_empty hc Hall). unfold OsPath.resolve.
    rewrite split_slashes, filter_proper_empty
      by (apply Forall_forall; by intros x [-> _]%elem_of_replicate).
    destruct Hall as [|h hc -> _].
    + simpl. by destruct last.
    + cbn [length OsPath.slashes]. rewrite root_cons. simpl. by destruct hc.
  - pose proof (dte_not_nil hc Hsome) as Hne.
    unfold OsPath.resolve. rewrite root_split.
    rewrite split_join by (done || by apply dte_Forall).
    rewrite dte_filter. f_equal.
    destruct hc as [|h hc]; [by destruct Hsome|].
    destruct h as [|c h].
    + assert (¬ Forall (fun c => c = "") hc) as Hrest.
      { intros H. apply Hsome. by constructor. }
      rewrite dte_cons by by apply dte_not_nil.
      pose proof (dte_not_nil hc Hrest).
      destruct (OsPath.drop_trailing_empty hc); [done|]. by destruct hc.
    + cbn [OsPath.drop_trailing_empty]. simpl.
      by destruct (OsPath.drop_trailing_empty hc).
Qed.

(** ** Directory listings *)

Lemma strip_prefix_Some (pre k r : list string) :
  strip_prefix pre k = Some r ↔ k = pre ++ r.
Proof.
  revert k. induction pre as [|x pre IH]; intros k; simpl.
  - split; [by intros [= ->]|by intros ->].
  - destruct k as [|y k]; [done|].
    destruct (decide (x = y)) as [->|Hne].
    + rewrite IH. split; [by intros ->|by intros [= ->]].
    + split; [done|]. by intros [= -> _].
Qed.

Lemma NoDup_omap_inj {A B} (f : A → option B) (l : list A) :
  (∀ x y z, f x = Some z → f y = Some z → x = y) →
  NoDup l → NoDup (omap f l).
Proof.
  intros Hinj. induction 1 as [|x l Hx _ IH]; simpl; [constructor|].
  destruct (f x) as [z|] eqn:Hz; [|done].
  constructor; [|done].
  intros (y & Hy & Hfy)%list_elem_of_omap.
  by rewrite (Hinj x y z Hz Hfy) in Hx.
Qed.

(** The hits of a listing are the existing entries below the directory
    whose components are names matching the patterns. *)
Lemma elem_of_glob_rel (fs : store) (dir : list string) (pats : list pattern)
    (r : list string) :
  r ∈ glob_rel fs dir pats
  ↔ is_Some (fs !! (dir ++ r))
    ∧ Forall2 (fun p n => OsPath.is_name n ∧ fnmatch p n = true) pats r.
Proof.
  unfold glob_rel. rewrite list_elem_of_filter, list_elem_of_omap. split.
  - intros [Hm (k & Hk & Hr)]. split; [|done].
    apply strip_prefix_Some in Hr as ->.
    by apply elem_of_elements, elem_of_dom in Hk.
  - intros [Hs Hm]. split; [done|]. exists (dir ++ r). split.
    + by apply elem_of_elements, elem_of_dom.
    + by apply strip_prefix_Some.
Qed.

Lemma glob_rel_NoDup (fs : store) (dir : list string) (pats : list pattern) :
  NoDup (glob_rel fs dir pats).
Proof.
  apply NoDup_filter, NoDup_omap_inj; [|apply NoDup_elements].
  intros x y z Hx%strip_prefix_Some Hy%strip_prefix_Some. congruence.
Qed.

(** A listing only depends on which matching entries exist. *)
Lemma glob_rel_perm (fs fs' : store) (dir : list string) (pats : list pattern) :
  (∀ r, Forall2 (fun p n => OsPath.is_name n ∧ fnmatch p n = true) pats r →
        is_Some (fs !! (dir ++ r)) ↔ is_Some (fs' !! (dir ++ r))) →
  glob_rel fs dir pats ≡ₚ glob_rel fs' dir pats.
Proof.
  intros H. apply NoDup_Permutation; [apply glob_rel_NoDup..|].
  intros r. rewrite !elem_of_glob_rel. naive_solver.
Qed.

Lemma glob_rel_names (fs : store) (dir : list string) (pats : list pattern)
    (r : list string) :
  r ∈ glob_rel fs dir pats → length r = length pats ∧ Forall OsPath.is_name r.
Proof.
  intros [_ Hm]%elem_of_glob_rel. split; [symmetry; by eapply Forall2_length|].
  induction Hm as [|p n pats r [Hn _] _ IH]; by constructor.
Qed.

Lemma glob_rel_3 (fs : store) (dir : list string) (p1 p2 p3 : pattern) (r : list string) :
  r ∈ glob_rel fs dir [p1; p2; p3] →
  ∃ a b c, r = [a; b; c] ∧ OsPath.is_name a ∧ OsPath.is_name b ∧ OsPath.is_name c
           ∧ fnmatch p3 c = true.
Proof.
  intros [_ Hm]%elem_of_glob_rel.
  inversion Hm as [|? a ? r1 [Ha _] Hm1]; subst.
  inversion Hm1 as [|? b ? r2 [Hb _] Hm2]; subst.
  inversion Hm2 as [|? c ? r3 [Hc Hf] Hm3]; subst.
  inversion Hm3; subst. by exists a, b, c.
Qed.

(** Every located video and every listed frame directory has a label. *)
Lemma located_second_to_last (fs : store) (sDirPart : string) (p1 p2 p3 : pattern) :
  Forall (fun s => ∃ l, second_to_last s l) (glob fs sDirPart [p1; p2; p3]).
Proof.
  apply Forall_forall. intros s (r & -> & Hr)%list_elem_of_fmap.
  destruct (glob_rel_3 _ _ _ _ _ _ Hr) as (a & b & c & -> & Ha & Hb & Hc & _).
  assert (Forall OsPath.is_name [a; b; c]) as Hnames.
  { repeat (apply Forall_cons; split; [done|]). constructor. }
  destruct (join_split sDirPart (PyStr.join "/" [a; b; c])) as (pre & Hsplit & _).
  { by apply join_startswith. }
  rewrite split_join in Hsplit.
  - exists b, (pre ++ [a]), c. rewrite Hsplit. by rewrite <- app_assoc.
  - done.
  - eapply Forall_impl; [exact Hnames|]. apply is_name_no_slash.
Qed.

Lemma listed_second_to_last (fs : store) (dir : list string) (p1 p2 p3 : pattern) :
  Forall (fun s => ∃ l, second_to_last s l)
         (PyStr.join "/" <$> glob_rel fs dir [p1; p2; p3]).
Proof.
  apply Forall_forall. intros s (r & -> & Hr)%list_elem_of_fmap.
  destruct (glob_rel_3 _ _ _ _ _ _ Hr) as (a & b & c & -> & Ha & Hb & Hc & _).
  exists b, [a], c. apply split_join; [done|].
  repeat (apply Forall_cons; split; [by apply is_name_no_slash|]). constructor.
Qed.

(** C8.  In both extraction stages, without a class limit all located
    videos are processed; with a limit [n], exactly those located videos
    are processed, in their listing order, whose label (the second-to-last
    path component) is among the first [n] of the distinct labels in
    ascending order. *)
Theorem class_restriction (fs : store) (sVideoDir sFrameDir : string) :
  let videos := glob fs (OsPath.dirname (sVideoDir +:+ "/*")) [Star; Star; StarSuffix ".avi"] in
  let dirs := PyStr.join "/" <$> glob_rel fs (OsPath.resolve sFrameDir) [Star; Star; Star] in
  located_videos fs sVideoDir None = inr videos
  ∧ listed_videos fs sFrameDir None = inr dirs
  ∧ ∀ n : Z,
      restricted_to videos n (located_videos fs sVideoDir (Some n))
      ∧ restricted_to dirs n (listed_videos fs sFrameDir (Some n)).
Proof.
  intros videos dirs. split; [done|]. split; [done|].
  intros n. split.
  - apply restrict_classes_spec. apply located_second_to_last.
  - apply restrict_classes_spec. apply listed_second_to_last.
Qed.

Example restriction_first_class :
  located_videos Sample.fs_videos "v" (Some 1%Z) = inr ["v/train/c1/a.avi"]
  ∧ listed_videos Sample.fs_frames "f" (Some 1%Z) = inr ["train/c1/a"].
Proof. split; vm_compute; reflexivity. Qed.

(** ** Loops and directory creation *)

Lemma for_each_inv {A : Type} (I : store → Prop) (body : A → M unit) (l : list A) :
  (∀ x fs fs' r, x ∈ l → I fs → body x fs = (fs', r) → I fs') →
  ∀ fs fs' r, I fs → for_each l body fs = (fs', r) → I fs'.
Proof.
  induction l as [|x l IH]; intros Hbody fs fs' r HI; simpl.
  - by intros [= <- _].
  - unfold bind. destruct (body x fs) as [fs1 [e|[]]] eqn:Hx.
    + intros [= <- _]. eapply Hbody; [by left|done..].
    + apply IH.
      * intros y ? ? ? Hy. apply Hbody. by right.
      * eapply Hbody; [by left|done..].
Qed.

Lemma for_each_inv_ok {A : Type} (I : store → Prop) (body : A → M unit) (l : list A) :
  (∀ x fs fs', x ∈ l → I fs → body x fs = (fs', inr tt) → I fs') →
  ∀ fs fs', I fs → for_each l body fs = (fs', inr tt) → I fs'.
Proof.
  induction l as [|x l IH]; intros Hbody fs fs' HI; simpl.
  - by intros [= <-].
  - unfold bind. destruct (body x fs) as [fs1 [e|[]]] eqn:Hx; [done|].
    apply IH.
    + intros y ? ? Hy. apply Hbody. by right.
    + eapply Hbody; [by left|done..].
Qed.

(** A loop that returns has run its body, without an exception, on every
    element in turn. *)
Lemma for_each_ok {A : Type} (body : A → M unit) (l1 l2 : list A) (x : A) (fs fs' : store) :
  for_each (l1 ++ x :: l2) body fs = (fs', inr tt) →
  ∃ fs1 fs2, for_each l1 body fs = (fs1, inr tt)
             ∧ body x fs1 = (fs2, inr tt)
             ∧ for_each l2 body fs2 = (fs', inr tt).
Proof.
  revert fs. induction l1 as [|y l1 IH]; intros fs; simpl; unfold bind.
  - destruct (body x fs) as [fs2 [e|[]]] eqn:Hx; [done|].
    intros H. exists fs, fs2. done.
  - destruct (body y fs) as [fs1 [e|[]]] eqn:Hy; [done|].
    intros (fs1' & fs2 & H1 & H2 & H3)%IH. exists fs1', fs2. done.
Qed.

Lemma mkdirs_spec (todo above : list string) (fs fs' : store) (r : exn + unit) :
  mkdirs above todo fs = (fs', r) →
  fs ⊆ fs'
  ∧ ∀ k, fs !! k = None →
         fs' !! k = None
         ∨ (fs' !! k = Some Dir
            ∧ ∃ i, (0 < i ≤ length todo)%nat ∧ k = above ++ take i todo).
Proof.
  revert above fs. induction todo as [|c todo IH]; intros above fs; simpl.
  - intros [= <- _]. split; [done|]. by left.
  - unfold bind, get. simpl.
    assert (∀ fs1, fs ⊆ fs1 →
              (∀ k, fs !! k = None → fs1 !! k = None ∨ fs1 !! k = Some Dir ∧ k = above ++ [c]) →
              mkdirs (above ++ [c]) todo fs1 = (fs', r) →
              fs ⊆ fs'
              ∧ ∀ k, fs !! k = None →
                  fs' !! k = None
                  ∨ (fs' !! k = Some Dir
                     ∧ ∃ i, (0 < i ≤ S (length todo))%nat ∧ k = above ++ take i (c :: todo)))
      as Hrest.
    { intros fs1 Hsub Hnew [Hsub' Hnew']%IH. split; [by etrans|].
      intros k Hk. destruct (Hnew k Hk) as [Hk1|[Hk1 ->]].
      - destruct (Hnew' k Hk1) as [?|[? (i & Hi & ->)]]; [by left|].
        right. split; [done|]. exists (S i). split; [lia|].
        simpl. by rewrite <- app_assoc.
      - right. split; [by apply (lookup_weaken _ _ _ _ Hk1 Hsub')|].
        exists 1%nat. split; [lia|]. simpl. by rewrite take_0. }
    destruct (fs !! (above ++ [c])) as [[|f]|] eqn:Hc.
    + apply Hrest; [done|]. by left.
    + intros [= <- _]. split; [done|]. by left.
    + unfold write. apply Hrest.
      * by apply insert_subseteq.
      * intros k Hk. destruct (decide (k = above ++ [c])) as [->|Hne].
        -- right. by rewrite lookup_insert_eq.
        -- left. by rewrite lookup_insert_ne.
Qed.

Lemma os_makedirs_spec (p : string) (fs fs' : store) (r : exn + unit) :
  os_makedirs p fs = (fs', r) →
  fs ⊆ fs'
  ∧ ∀ k, fs !! k = None →
         fs' !! k = None
         ∨ (fs' !! k = Some Dir ∧ k ≠ [] ∧ k `prefix_of` OsPath.resolve p).
Proof.
  intros [Hsub Hnew]%mkdirs_spec. split; [done|].
  intros k Hk. destruct (Hnew k Hk) as [?|[? (i & Hi & ->)]]; [by left|].
  right. split; [done|]. simpl. split.
  - destruct (OsPath.resolve p); simpl in *; [lia|]. by destruct i; [lia|].
  - apply prefix_take.
Qed.

(** ** Paths built by the feature stage *)

Lemma mem_app (c : ascii) (a b : string) :
  PyStr.mem c (a +:+ b) = PyStr.mem c a || PyStr.mem c b.
Proof.
  induction a as [|x a IH]; [done|].
  rewrite append_cons. cbn [PyStr.mem]. by rewrite IH, orb_assoc.
Qed.

Lemma is_name_suffix (c ext : string) :
  OsPath.is_name c → PyStr.mem "/" ext = false → ext ≠ "" → ext ≠ "." →
  OsPath.is_name (c +:+ ext).
Proof.
  intros (Hne & Hdot & Hdots & Hslash) Hext Hext1 Hext2.
  destruct c as [|x c]; [done|].
  repeat split.
  - by rewrite append_cons.
  - rewrite append_cons. intros [= -> Hc].
    destruct c; [exact (Hext1 Hc)|by rewrite append_cons in Hc].
  - rewrite append_cons. intros [= -> Hc].
    destruct c as [|y c]; [exact (Hext2 Hc)|].
    rewrite append_cons in Hc. injection Hc as -> Hc.
    destruct c; [exact (Hext1 Hc)|by rewrite append_cons in Hc].
  - by rewrite mem_app, Hslash, Hext.
Qed.

Lemma resolve_dirname_join (F : string) (l : list string) (last : string) :
  Forall OsPath.is_name l → OsPath.is_name last →
  OsPath.resolve (OsPath.dirname (OsPath.join F (PyStr.join "/" (l ++ [last]))))
  = OsPath.resolve F ++ l.
Proof.
  intros Hl Hlast.
  assert (Forall OsPath.is_name (l ++ [last])) as Hall.
  { apply Forall_app. split; [done|]. apply Forall_cons. split; [done|constructor]. }
  rewrite resolve_dirname.
  destruct (join_split F (PyStr.join "/" (l ++ [last]))) as (pre & Hsplit & Hres & _).
  { by apply join_startswith. }
  rewrite Hsplit, split_join.
  - rewrite (app_assoc pre l [last]), removelast_snoc, filter_app.
    rewrite (filter_proper_names l) by done.
    by rewrite (app_assoc _ _ l), Hres.
  - by destruct l.
  - eapply Forall_impl; [exact Hall|]. apply is_name_no_slash.
Qed.

Lemma npy_join (a b c : string) :
  PyStr.join "/" [a; b; c] +:+ ".npy" = PyStr.join "/" [a; b; c +:+ ".npy"].
Proof. cbn [PyStr.join]. by rewrite !append_assoc. Qed.

Lemma is_name_npy (c : string) : OsPath.is_name c → OsPath.is_name (c +:+ ".npy").
Proof. intros Hc. by apply is_name_suffix. Qed.

Section FeaturePaths.

Variables (sFrameDir sFeatureDir a b c : string).
Hypotheses (Ha : OsPath.is_name a) (Hb : OsPath.is_name b) (Hc : OsPath.is_name c).

Let seVideo := PyStr.join "/" [a; b; c].
Let sFeaturePath := OsPath.join sFeatureDir (seVideo +:+ ".npy").

Lemma feature_path_resolve :
  OsPath.resolve sFeaturePath = OsPath.resolve sFeatureDir ++ [a; b; c +:+ ".npy"].
Proof.
  unfold sFeaturePath, seVideo. rewrite npy_join. apply resolve_join_names; [done|].
  repeat (apply Forall_cons; split; [done || by apply is_name_npy|]). constructor.
Qed.

Lemma feature_dir_resolve :
  OsPath.resolve (OsPath.dirname sFeaturePath) = OsPath.resolve sFeatureDir ++ [a; b].
Proof.
  unfold sFeaturePath, seVideo. rewrite npy_join.
  apply (resolve_dirname_join sFeatureDir [a; b] (c +:+ ".npy")).
  - repeat (apply Forall_cons; split; [done|]). constructor.
  - by apply is_name_npy.
Qed.

Lemma feature_path_nonempty : sFeaturePath ≠ "".
Proof.
  intros H. pose proof feature_path_resolve as Hr. rewrite H in Hr.
  by destruct (OsPath.resolve sFeatureDir).
Qed.

Lemma frame_dir_resolve :
  OsPath.resolve (OsPath.dirname (OsPath.join (OsPath.join sFrameDir seVideo) "*.jpg"))
  = OsPath.resolve sFrameDir ++ [a; b; c].
Proof.
  pose proof (resolve_dirname_join (OsPath.join sFrameDir seVideo) [] "*.jpg") as H.
  change (PyStr.join "/" ([] ++ ["*.jpg"])) with "*.jpg" in H.
  rewrite H by done. clear H.
  rewrite app_nil_r. unfold seVideo. apply resolve_join_names; [done|].
  repeat (apply Forall_cons; split; [done|]). constructor.
Qed.

End FeaturePaths.

(** ** What the feature stage writes *)

Lemma feature_made_refl (BF : list string) (n : Z) (fs : store) :
  feature_made BF n fs fs.
Proof. split; [done|]. intros k Hk. by rewrite Hk. Qed.

Lemma feature_made_trans (BF : list string) (n : Z) (fs0 fs1 fs2 : store) :
  feature_made BF n fs0 fs1 → feature_made BF n fs1 fs2 → feature_made BF n fs0 fs2.
Proof.
  intros [Hsub1 Hnew1] [Hsub2 Hnew2]. split; [by etrans|].
  intros k Hk. specialize (Hnew1 k Hk).
  destruct (fs1 !! k) as [v|] eqn:Hk1.
  - by rewrite (lookup_weaken _ _ _ _ Hk1 Hsub2).
  - by apply Hnew2.
Qed.

Lemma prefix_app_cases {A : Type} (k l1 l2 : list A) :
  k `prefix_of` l1 ++ l2 →
  k `prefix_of` l1 ∨ ∃ r, k = l1 ++ r ∧ r `prefix_of` l2.
Proof.
  intros Hk.
  destruct (prefix_weak_total k l1 (l1 ++ l2) Hk) as [?|[r ->]]; [by apply prefix_app_r|by left|].
  right. exists r. split; [done|]. by apply prefix_app_inv in Hk.
Qed.

Lemma feature_made_makedirs (BF : list string) (n : Z) (p : string) (x y : string)
    (fs fs' : store) (r : exn + unit) :
  OsPath.resolve p = BF ++ [x; y] →
  os_makedirs p fs = (fs', r) → feature_made BF n fs fs'.
Proof.
  intros Hp [Hsub Hnew]%os_makedirs_spec. split; [done|].
  intros k Hk. destruct (Hnew k Hk) as [->|[-> [_ Hpre]]]; [done|].
  rewrite Hp in Hpre.
  destruct (prefix_app_cases _ _ _ Hpre) as [?|(r' & -> & Hr)]; [by left|].
  right. exists r'. split; [done|]. by apply prefix_length in Hr.
Qed.

Lemma feature_made_save (BF : list string) (n : Z) (x y c : string) (arr : ndarray)
    (F : nat) (fs : store) :
  fs !! (BF ++ [x; y; c +:+ ".npy"]) = None →
  (0 < n)%Z → shape arr = [Z.to_nat n; F] →
  feature_made BF n fs (<[BF ++ [x; y; c +:+ ".npy"] := File (Npy arr)]> fs).
Proof.
  intros Hk Hn Hshape. split; [by apply insert_subseteq|].
  intros k Hk0. destruct (decide (k = BF ++ [x; y; c +:+ ".npy"])) as [->|Hne].
  - rewrite lookup_insert_eq. split; [by exists x, y, c|]. split; [done|by exists F].
  - by rewrite lookup_insert_ne, Hk0.
Qed.

Lemma reshape_rows_shape (a arr : ndarray) (n : Z) :
  reshape_rows a n = inr arr →
  (0 < n)%Z ∧ shape arr = [Z.to_nat n; (size a / Z.to_nat n)%nat].
Proof.
  unfold reshape_rows. destruct (Z.ltb_spec 0 n); simpl; [|done].
  destruct (_ =? _)%nat; [|done]. by intros [= <-].
Qed.

Lemma exists_false (fs : store) (p : string) :
  OsPath.exists_ fs p = false → p ≠ "" → fs !! OsPath.resolve p = None.
Proof.
  unfold OsPath.exists_. destruct (decide (p = "")); [done|].
  intros H%bool_decide_eq_false _. by apply eq_None_not_Some.
Qed.

Section FeatureStage.

Variable load_img : option node → nat * nat → option ndarray.
Variables (sFrameDir sFeatureDir : string) (oCNN : ConvNet) (nFramesNorm : Z).

Let BF := OsPath.resolve sFeatureDir.

(** One round of the loop, on a listed frame directory. *)
Lemma body_made (a b c : string) (fs fs' : store) (r : exn + unit) :
  OsPath.is_name a → OsPath.is_name b → OsPath.is_name c →
  frames2features_body load_img sFrameDir sFeatureDir oCNN nFramesNorm
    (PyStr.join "/" [a; b; c]) fs = (fs', r) →
  feature_made BF nFramesNorm fs fs'.
Proof.
  intros Ha Hb Hc. unfold frames2features_body, bind, get. lazy beta iota.
  pose proof (feature_path_resolve sFeatureDir a b c Ha Hb Hc) as Hkey.
  pose proof (feature_dir_resolve sFeatureDir a b c Ha Hb Hc) as Hdir.
  pose proof (feature_path_nonempty sFeatureDir a b c Ha Hb Hc) as Hne.
  destruct (OsPath.exists_ fs _) eqn:Hex.
  { intros [= <- _]. apply feature_made_refl. }
  apply exists_false in Hex; [|done]. rewrite Hkey in Hex.
  destruct (os_makedirs _ fs) as [fs1 [e|[]]] eqn:Hmk.
  { intros [= <- _]. by eapply feature_made_makedirs. }
  pose proof (feature_made_makedirs BF nFramesNorm _ _ _ _ _ _ Hdir Hmk) as Hmade.
  assert (fs1 !! (BF ++ [a; b; c +:+ ".npy"]) = None) as Hk1.
  { apply os_makedirs_spec in Hmk as [_ Hnew].
    destruct (Hnew _ Hex) as [?|[_ [_ Hpre%prefix_length]]]; [done|].
    rewrite Hdir in Hpre. unfold BF in Hpre. rewrite !length_app in Hpre. simpl in Hpre. lia. }
  destruct (decide _) as [_|_]; [|by intros [= <- _]].
  destruct (map_exn _ _) as [e|liFrames]; unfold lift, raise, ret; lazy beta iota;
    [by intros [= <- _]|].
  destruct (reshape_rows _ _) as [e|arr] eqn:Hre; unfold lift, raise, ret; lazy beta iota;
    [by intros [= <- _]|].
  unfold write. rewrite Hkey. intros [= <- _].
  eapply feature_made_trans; [exact Hmade|].
  apply reshape_rows_shape in Hre as [Hn Hshape].
  by eapply feature_made_save.
Qed.

(** Every element the loop runs over is a listed frame directory. *)
Lemma listed_names (fs : store) (nClasses : option Z) (dfVideos : list string) (d : string) :
  listed_videos fs sFrameDir nClasses = inr dfVideos → d ∈ dfVideos →
  ∃ a b c, d = PyStr.join "/" [a; b; c]
           ∧ [a; b; c] ∈ glob_rel fs (OsPath.resolve sFrameDir) [Star; Star; Star]
           ∧ OsPath.is_name a ∧ OsPath.is_name b ∧ OsPath.is_name c.
Proof.
  unfold listed_videos, restrict_classes. intros Hl Hd.
  assert (d ∈ PyStr.join "/" <$> glob_rel fs (OsPath.resolve sFrameDir) [Star; Star; Star])
    as (r & -> & Hr)%list_elem_of_fmap.
  { destruct nClasses as [n|]; [|by simplify_eq].
    destruct (map_exn label_of _) as [e|labels]; [done|]. simplify_eq.
    apply list_elem_of_fmap in Hd as ([s l] & -> & [_ Hin]%list_elem_of_filter).
    by eapply elem_of_zip_l. }
  destruct (glob_rel_3 _ _ _ _ _ _ Hr) as (a & b & c & -> & Ha & Hb & Hc & _).
  by exists a, b, c.
Qed.

(** The whole stage, whatever its outcome. *)
Lemma frames2features_made (nClasses : option Z) (fs fs' : store) (r : exn + unit) :
  frames2features load_img sFrameDir sFeatureDir oCNN nFramesNorm nClasses fs = (fs', r) →
  feature_made BF nFramesNorm fs fs'.
Proof.
  unfold frames2features, bind, get. lazy beta iota.
  destruct (OsPath.exists_ fs sFeatureDir); [intros [= <- _]; apply feature_made_refl|].
  destruct (negb _); [intros [= <- _]; apply feature_made_refl|].
  destruct (listed_videos fs sFrameDir nClasses) as [e|dfVideos] eqn:Hl;
    unfold lift, raise, ret; lazy beta iota;
    [intros [= <- _]; apply feature_made_refl|].
  apply (for_each_inv (feature_made BF nFramesNorm fs)); [|apply feature_made_refl].
  intros d fs1 fs2 r' Hd Hinv Hbody.
  destruct (listed_names fs nClasses dfVideos d Hl Hd) as (a & b & c & -> & _ & Ha & Hb & Hc).
  eapply feature_made_trans; [exact Hinv|]. exact (body_made a b c fs1 fs2 r' Ha Hb Hc Hbody).
Qed.

End FeatureStage.

(** ** The feature stage: shape, frame and resumption *)

Example sample_frames :
  video2frames Sample.mediainfo Sample.ffmpeg "v" "f" 2 None Sample.fs_videos
  = (Sample.fs_frames, inr tt).
Proof. by_computation. Qed.

Example sample_features :
  frames2features Sample.load_img "f" "feat" Sample.cnn 2 None Sample.fs_frames
  = (Sample.fs_features, inr tt).
Proof. by_computation. Qed.

Example sample_feature_file :
  Sample.fs_features !! ["feat"; "train"; "c1"; "a.npy"]
  = Some (File (Npy {| shape := [2; 3]%nat; data := [1%Q; 0%Q; 0%Q; 2%Q; 0%Q; 0%Q] |})).
Proof. vm_compute. reflexivity. Qed.

(** C3.  Whatever the outcome of [frames2features], every array file that
    is in the store afterwards and was not there before has the shape
    [(nFramesNorm, F)] for some [F]. *)
Theorem feature_files_shape
    (load_img : option node → nat * nat → option ndarray)
    (sFrameDir sFeatureDir : string) (oCNN : ConvNet) (nFramesNorm : Z)
    (nClasses : option Z) (fs fs' : store) (r : exn + unit) :
  frames2features load_img sFrameDir sFeatureDir oCNN nFramesNorm nClasses fs = (fs', r) →
  ∀ k arr, fs' !! k = Some (File (Npy arr)) → fs !! k ≠ Some (File (Npy arr)) →
    ∃ rows F, shape arr = [rows; F] ∧ Z.of_nat rows = nFramesNorm.
Proof.
  intros [Hsub Hnew]%frames2features_made k arr Hk' Hk.
  destruct (fs !! k) as [v|] eqn:Hk0.
  { rewrite (lookup_weaken _ _ _ _ Hk0 Hsub) in Hk'. congruence. }
  specialize (Hnew k Hk0). rewrite Hk' in Hnew.
  destruct Hnew as (_ & Hn & F & HF). exists (Z.to_nat nFramesNorm), F.
  split; [done|lia].
Qed.

Lemma feature_files_shape_witness :
  ∃ rows F, shape {| shape := [2; 3]%nat; data := [1%Q; 0%Q; 0%Q; 2%Q; 0%Q; 0%Q] |}
            = [rows; F] ∧ Z.of_nat rows = 2%Z.
Proof.
  apply (feature_files_shape Sample.load_img "f" "feat" Sample.cnn 2 None
           Sample.fs_frames Sample.fs_features (inr tt))
    with (k := ["feat"; "train"; "c1"; "a.npy"]).
  - by_computation.
  - vm_compute. reflexivity.
  - vm_compute. discriminate.
Defined.

Lemma predict_reads
    (load_features : store → string → Z → nat → list string → exn + VideoFeatures)
    (sDir : string) (oRNN : RecurrentNet) (fs1 fs2 : store) :
  (predict load_features sDir oRNN fs1).1 = fs1
  ∧ (load_features fs1 sDir (rnn_nFramesNorm oRNN) (nFeatureLength oRNN)
                   (liClasses (oClasses oRNN))
     = load_features fs2 sDir (rnn_nFramesNorm oRNN) (nFeatureLength oRNN)
                     (liClasses (oClasses oRNN)) →
     (predict load_features sDir oRNN fs1).2 = (predict load_features sDir oRNN fs2).2).
Proof.
  unfold predict, bind, get. lazy beta iota. split.
  - destruct (load_features fs1 _ _ _ _) as [e|oFeatures]; [done|].
    unfold lift, raise, ret. lazy beta iota.
    destruct (map_exn argmax _) as [e|arPred]; [done|]. lazy beta iota.
    destruct (loc_sClass _ _) as [e|sePred]; [done|]. lazy beta iota.
    by destruct (eq_elementwise _ _).
  - intros <-.
    destruct (load_features fs1 _ _ _ _) as [e|oFeatures]; [done|].
    unfold lift, raise, ret. lazy beta iota.
    destruct (map_exn argmax _) as [e|arPred]; [done|]. lazy beta iota.
    destruct (loc_sClass _ _) as [e|sePred]; [done|]. lazy beta iota.
    by destruct (eq_elementwise _ _).
Qed.

Lemma app_eq_prefix {A : Type} (l1 l2 l3 l4 : list A) :
  l1 ++ l2 = l3 ++ l4 → (length l4 ≤ length l2)%nat → l1 `prefix_of` l3.
Proof.
  intros Heq Hlen.
  assert (l1 `prefix_of` l3 ++ l4) as H1 by (rewrite <- Heq; by apply prefix_app_r).
  destruct (prefix_weak_total l1 l3 (l3 ++ l4) H1) as [?|Hpre]; [by apply prefix_app_r|done|].
  apply (f_equal length) in Heq. rewrite !length_app in Heq.
  pose proof (prefix_length _ _ Hpre).
  assert (l3 = l1) as ->; [|done].
  apply prefix_length_eq; [done|lia].
Qed.




(** ** The assertion on the number of frames *)

Lemma for_each_inv_exn {A : Type} (I : store → Prop) (Q : exn → Prop)
    (body : A → M unit) (l : list A) :
  (∀ x fs fs' r, x ∈ l → I fs → body x fs = (fs', r) →
     I fs' ∧ ∀ e, r = inl e → Q e) →
  ∀ fs fs' r, I fs → for_each l body fs = (fs', r) → I fs' ∧ ∀ e, r = inl e → Q e.
Proof.
  induction l as [|x l IH]; intros Hbody fs fs' r HI; simpl.
  - intros [= <- <-]. done.
  - unfold bind. destruct (body x fs) as [fs1 [e|[]]] eqn:Hx.
    + intros [= <- <-]. eapply Hbody; [by left|done..].
    + apply IH.
      * intros y ? ? ? Hy. apply Hbody. by right.
      * eapply Hbody; [by left|done..].
Qed.

Lemma mkdirs_exn (todo above : list string) (fs fs' : store) (e : exn) :
  mkdirs above todo fs = (fs', inl e) → e = OSError "File exists".
Proof.
  revert above fs. induction todo as [|c todo IH]; intros above fs; simpl; [done|].
  unfold bind, get, write. lazy beta iota.
  destruct (fs !! (above ++ [c])) as [[|f]|]; [apply IH|by intros [= _ <-]|apply IH].
Qed.

Lemma sorted_length (l : list string) : length (PyStr.sorted l) = length l.
Proof. apply Permutation_length, sorted_perm. Qed.

(** The frames of a listed directory are those it had when the stage
    began, provided the feature directory is not inside the frame
    directory. *)
Lemma frames_kept (BF KF : list string) (n : Z) (fs0 fs : store) (r3 : list string) :
  feature_made BF n fs0 fs → ¬ KF `prefix_of` BF → length r3 = 3%nat →
  glob_rel fs (KF ++ r3) [StarSuffix ".jpg"] ≡ₚ glob_rel fs0 (KF ++ r3) [StarSuffix ".jpg"].
Proof.
  intros [Hsub Hnew] Hnest Hr3. apply glob_rel_perm. intros r Hr.
  apply Forall2_length in Hr. simpl in Hr.
  split; [|intros [v Hv]; exists v; by apply (lookup_weaken _ _ _ _ Hv Hsub)].
  intros [v Hv]. destruct (fs0 !! ((KF ++ r3) ++ r)) as [v0|] eqn:Hk0; [done|].
  specialize (Hnew _ Hk0). rewrite Hv in Hnew. destruct Hnest.
  destruct v as [|[bytes|arr]]; [|done|].
  - destruct Hnew as [Hup|(r' & Heq & Hlen)].
    + etrans; [|exact Hup]. rewrite <- app_assoc. by apply prefix_app_r.
    + rewrite <- app_assoc in Heq. apply (app_eq_prefix _ _ _ _ Heq).
      rewrite length_app. lia.
  - destruct Hnew as [(x & y & c & Heq) _].
    rewrite <- app_assoc in Heq. apply (app_eq_prefix _ _ _ _ Heq).
    rewrite length_app. simpl. lia.
Qed.

Section Assertion.

Variable load_img : option node → nat * nat → option ndarray.
Variables (sFrameDir sFeatureDir : string) (oCNN : ConvNet) (nFramesNorm : Z).
Variable fs0 : store.

Hypothesis not_inside :
  ¬ OsPath.resolve sFrameDir `prefix_of` OsPath.resolve sFeatureDir.

Lemma body_asserts (a b c : string) (fs fs' : store) (r : exn + unit) :
  OsPath.is_name a → OsPath.is_name b → OsPath.is_name c →
  Z.of_nat (length (glob_rel fs0 (OsPath.resolve sFrameDir ++ [a; b; c]) [StarSuffix ".jpg"]))
    = nFramesNorm →
  feature_made (OsPath.resolve sFeatureDir) nFramesNorm fs0 fs →
  frames2features_body load_img sFrameDir sFeatureDir oCNN nFramesNorm
    (PyStr.join "/" [a; b; c]) fs = (fs', r) →
  r ≠ inl AssertionError.
Proof.
  intros Ha Hb Hc Hcount Hmade. unfold frames2features_body, bind, get. lazy beta iota.
  pose proof (feature_dir_resolve sFeatureDir a b c Ha Hb Hc) as Hdir.
  destruct (OsPath.exists_ fs _); [by intros [= _ <-]|].
  destruct (os_makedirs _ fs) as [fs1 [e|[]]] eqn:Hmk.
  { apply mkdirs_exn in Hmk as ->. by intros [= _ <-]. }
  destruct (decide _) as [_|Hlen].
  - destruct (map_exn _ _) as [e|liFrames] eqn:Hload; unfold lift, raise, ret; lazy beta iota.
    + intros [= _ <-] [= ->].
      apply (map_exn_exn _ (fun e => e ≠ AssertionError)) in Hload; [done|].
      intros x e. destruct (load_img _ _); [done|]. by intros [= <-].
    + destruct (reshape_rows _ _) as [e|arr] eqn:Hre; unfold write; lazy beta iota.
      * unfold reshape_rows in Hre. destruct (_ && _); [done|]. simplify_eq.
        by intros [= _ <-].
      * by intros [= _ <-].
  - destruct Hlen. rewrite <- Hcount. f_equal.
    unfold frame_files, glob. rewrite sorted_length, length_fmap.
    rewrite (frame_dir_resolve sFrameDir a b c Ha Hb Hc).
    apply Permutation_length, (frames_kept (OsPath.resolve sFeatureDir) _ nFramesNorm);
      [|done..].
    eapply feature_made_trans; [exact Hmade|]. by eapply feature_made_makedirs.
Qed.

End Assertion.




(** ** A fresh feature directory: nothing to skip *)

Lemma append_length (a b : string) :
  String.length (a +:+ b) = (String.length a + String.length b)%nat.
Proof. induction a as [|x a IH]; [done|]. rewrite append_cons. simpl. by rewrite IH. Qed.

Lemma append_inj_r (a b s : string) : a +:+ s = b +:+ s → a = b.
Proof.
  revert b. induction a as [|x a IH]; intros [|y b] H.
  - done.
  - apply (f_equal String.length) in H. rewrite !append_length in H. simpl in H. lia.
  - apply (f_equal String.length) in H. rewrite !append_length in H. simpl in H. lia.
  - rewrite !append_cons in H. injection H as -> H. f_equal. by apply IH.
Qed.

Lemma restrict_sublist (nClasses : option Z) (paths sel : list string) :
  restrict_classes nClasses paths = inr sel → sel `sublist_of` paths.
Proof.
  unfold restrict_classes. destruct nClasses as [n|]; [|by intros [= <-]].
  destruct (map_exn label_of paths) as [e|labels] eqn:Hl; [done|].
  intros [= <-]. apply map_exn_inr in Hl. by apply restrict_rows.
Qed.

Lemma listed_NoDup (fs : store) (sFrameDir : string) (nClasses : option Z)
    (dfVideos : list string) :
  listed_videos fs sFrameDir nClasses = inr dfVideos → NoDup dfVideos.
Proof.
  intros H%restrict_sublist. eapply sublist_NoDup; [|exact H].
  apply NoDup_fmap_2_strong; [|apply glob_rel_NoDup].
  intros x y Hx Hy Heq.
  destruct (glob_rel_names _ _ _ _ Hx) as [Hlx Hnx].
  destruct (glob_rel_names _ _ _ _ Hy) as [Hly Hny].
  rewrite <- (split_join x), <- (split_join y), Heq; [done|..].
  - by destruct y.
  - eapply Forall_impl; [exact Hny|]. apply is_name_no_slash.
  - by destruct x.
  - eapply Forall_impl; [exact Hnx|]. apply is_name_no_slash.
Qed.

Section FreshRun.

Variable load_img : option node → nat * nat → option ndarray.
Variables (sFrameDir sFeatureDir : string) (oCNN : ConvNet) (nFramesNorm : Z).

Let BF := OsPath.resolve sFeatureDir.

(** What a round of the loop can leave three levels below the feature
    directory. *)
Lemma body_feature_keys (a b c : string) (fs fs' : store) (r : exn + unit) (r3 : list string) :
  OsPath.is_name a → OsPath.is_name b → OsPath.is_name c →
  frames2features_body load_img sFrameDir sFeatureDir oCNN nFramesNorm
    (PyStr.join "/" [a; b; c]) fs = (fs', r) →
  length r3 = 3%nat → is_Some (fs' !! (BF ++ r3)) →
  is_Some (fs !! (BF ++ r3)) ∨ r3 = [a; b; c +:+ ".npy"].
Proof.
  intros Ha Hb Hc Hbody Hr3 Hsome. revert Hbody.
  unfold frames2features_body, bind, get. lazy beta iota.
  pose proof (feature_path_resolve sFeatureDir a b c Ha Hb Hc) as Hkey.
  pose proof (feature_dir_resolve sFeatureDir a b c Ha Hb Hc) as Hdir.
  destruct (OsPath.exists_ fs _); [intros [= <- _]; by left|].
  destruct (os_makedirs _ fs) as [fs1 rm] eqn:Hmk.
  assert (is_Some (fs1 !! (BF ++ r3)) → is_Some (fs !! (BF ++ r3))) as Hkeep.
  { intros H1. apply os_makedirs_spec in Hmk as [_ Hnew].
    destruct (fs !! (BF ++ r3)) as [v|] eqn:Hk; [done|].
    destruct (Hnew _ Hk) as [Hn|[_ [_ Hp%prefix_length]]].
    - rewrite Hn in H1. by destruct H1.
    - rewrite Hdir in Hp. unfold BF in Hp. rewrite !length_app in Hp. simpl in Hp. lia. }
  destruct rm as [e1|[]]; [intros [= <- _]; left; by apply Hkeep|].
  destruct (decide _); [|intros [= <- _]; left; by apply Hkeep].
  destruct (map_exn _ _) as [e2|liFrames]; unfold lift, raise, ret; lazy beta iota;
    [intros [= <- _]; left; by apply Hkeep|].
  destruct (reshape_rows _ _) as [e3|arr]; lazy beta iota;
    [intros [= <- _]; left; by apply Hkeep|].
  unfold write. rewrite Hkey. intros [= <- _].
  destruct (decide (r3 = [a; b; c +:+ ".npy"])) as [->|Hne]; [by right|].
  left. apply Hkeep. rewrite lookup_insert_ne in Hsome; [done|].
  intros Heq. by apply app_inv_head in Heq.
Qed.

(** When the stage starts on a well-formed store without the feature
    directory, the feature file of a video never exists when the loop
    comes to it. *)
Lemma nothing_to_skip (nClasses : option Z) (fs : store) (dfVideos l1 l2 : list string)
    (d : string) (fs1 : store) :
  well_formed fs → BF ≠ [] → fs !! BF = None →
  listed_videos fs sFrameDir nClasses = inr dfVideos →
  dfVideos = l1 ++ d :: l2 →
  for_each l1 (frames2features_body load_img sFrameDir sFeatureDir oCNN nFramesNorm) fs
    = (fs1, inr tt) →
  OsPath.exists_ fs1 (OsPath.join sFeatureDir (d +:+ ".npy")) = false.
Proof.
  intros Hwf HBF Habsent Hl Hsplit Hloop.
  assert (∀ d', d' ∈ dfVideos →
            ∃ a b c, d' = PyStr.join "/" [a; b; c]
                     ∧ OsPath.is_name a ∧ OsPath.is_name b ∧ OsPath.is_name c) as Hnames.
  { intros d' Hd'. destruct (listed_names sFrameDir fs nClasses dfVideos d' Hl Hd')
      as (a & b & c & ? & _ & ? & ? & ?). by exists a, b, c. }
  assert (∀ r3, length r3 = 3%nat → is_Some (fs1 !! (BF ++ r3)) →
                ∃ a b c, PyStr.join "/" [a; b; c] ∈ l1 ∧ r3 = [a; b; c +:+ ".npy"]) as Hinv.
  { revert Hloop.
    apply (for_each_inv_ok
             (fun s => ∀ r3, length r3 = 3%nat → is_Some (s !! (BF ++ r3)) →
                             ∃ a b c, PyStr.join "/" [a; b; c] ∈ l1
                                      ∧ r3 = [a; b; c +:+ ".npy"])).
    - intros d' s s' Hd' HI Hbody r3 Hr3 Hsome.
      destruct (Hnames d') as (a & b & c & -> & Ha & Hb & Hc).
      { rewrite Hsplit. apply elem_of_app. by left. }
      destruct (body_feature_keys a b c s s' _ r3 Ha Hb Hc Hbody Hr3 Hsome) as [Hold| ->].
      + destruct (HI r3 Hr3 Hold) as (a' & b' & c' & Hin & ->). by exists a', b', c'.
      + by exists a, b, c.
    - intros r3 Hr3 Hsome. exfalso.
      assert (is_Some (fs !! BF)) as [v Hv].
      { apply (Hwf (BF ++ r3)); [done|by apply prefix_app_r|done]. }
      congruence. }
  destruct (Hnames d) as (a & b & c & -> & Ha & Hb & Hc).
  { rewrite Hsplit. apply elem_of_app. right. by left. }
  destruct (OsPath.exists_ fs1 _) eqn:Hex; [|done]. exfalso.
  unfold OsPath.exists_ in Hex. destruct (decide _); [done|].
  apply bool_decide_eq_true_1 in Hex.
  rewrite (feature_path_resolve sFeatureDir a b c Ha Hb Hc) in Hex.
  destruct (Hinv [a; b; c +:+ ".npy"] eq_refl Hex) as (a' & b' & c' & Hin & Heq).
  injection Heq as -> -> Hc'. apply append_inj_r in Hc' as ->.
  apply listed_NoDup in Hl. rewrite Hsplit in Hl.
  apply NoDup_app in Hl as (_ & Hl & _). apply (Hl _ Hin). by left.
Qed.

End FreshRun.

(** ** Resumption and the guard on the output directory *)




Lemma write_frames_ok (ffmpeg_frames : list content) (sDir : string) (i : nat) (fs : store) :
  ∃ fs', write_frames sDir i ffmpeg_frames fs = (fs', inr tt).
Proof.
  revert i fs. induction ffmpeg_frames as [|f frames IH]; intros i fs; simpl; [by eexists|].
  unfold bind, write. apply IH.
Qed.

Lemma past_guard_folder (e : exn) (sDir : string) : past_guard e → e ≠ folder_exists sDir.
Proof.
  intros He ->. destruct He as (c & rest & Heq & Hc).
  rewrite append_cons in Heq. by injection Heq as <- _.
Qed.

Lemma map_label_past_guard (l : list string) (e : exn) :
  map_exn label_of l = inl e → past_guard e.
Proof.
  apply (map_exn_exn _ past_guard). intros x e'. unfold label_of.
  destruct (PyStr.index_back _ 2); [done|]. by intros [= <-].
Qed.

Lemma restrict_past_guard (nClasses : option Z) (l : list string) (e : exn) :
  restrict_classes nClasses l = inl e → past_guard e.
Proof.
  unfold restrict_classes. destruct nClasses as [n|]; [|done].
  destruct (map_exn label_of l) as [e'|labels] eqn:Hl; [|done].
  intros [= <-]. by eapply map_label_past_guard.
Qed.

Lemma int_past_guard (s : string) (e : exn) : int s = inl e → past_guard e.
Proof.
  unfold int.
  assert (∀ l sign,
    match l with
    | [] => inl (ValueError ("invalid literal for int() with base 10: " +:+ s))
    | _ :: _ =>
        if forallb is_digit l then inr (sign * digits_value l)%Z
        else inl (ValueError ("invalid literal for int() with base 10: " +:+ s))
    end = inl e → past_guard e) as Hbody.
  { intros l sign. destruct l as [|c l].
    - intros [= <-]. rewrite append_cons. by eexists _, _.
    - destruct (forallb is_digit (c :: l)); [done|].
      intros [= <-]. rewrite append_cons. by eexists _, _. }
  destruct (strip (list_ascii_of_string s)) as [|c l]; [apply (Hbody [] 1%Z)|].
  destruct (decide (c = "-"%char)) as [->|Hm]; [apply (Hbody l)|].
  destruct (decide (c = "+"%char)) as [->|Hp]; [apply (Hbody l)|].
  intros H. apply (Hbody (c :: l) 1%Z). revert H.
  destruct c as [[] [] [] [] [] [] [] []]; done.
Qed.

Lemma video_dir_past_guard (sFrameDir sVideoPath : string) (e : exn) :
  video_dir sFrameDir sVideoPath = inl e → past_guard e.
Proof.
  unfold video_dir. destruct (_ <? 4)%nat.
  - intros [= <-]. rewrite append_cons. by eexists _, _.
  - destruct (PyStr.index_back _ 1); [|by intros [= <-]].
    destruct (PyStr.index_back _ 3); [|by intros [= <-]].
    destruct (PyStr.index_back _ 2); [|by intros [= <-]].
    destruct (PyStr.split "." _); [by intros [= <-]|done].
Qed.

Lemma video2frames_body_past_guard
    (mediainfo : option node → string) (ffmpeg : option node → Q → Z → list content)
    (sFrameDir : string) (nFramesNorm : Z) (sVideoPath : string)
    (fs fs' : store) (e : exn) :
  video2frames_body mediainfo ffmpeg sFrameDir nFramesNorm sVideoPath fs = (fs', inl e) →
  past_guard e.
Proof.
  unfold video2frames_body, bind, get. lazy beta iota.
  destruct (video_dir sFrameDir sVideoPath) as [e'|sDir] eqn:Hdir;
    unfold lift, raise, ret; lazy beta iota.
  { intros [= _ <-]. by eapply video_dir_past_guard. }
  destruct (os_makedirs sDir fs) as [fs1 [e'|[]]] eqn:Hmk.
  { apply mkdirs_exn in Hmk as ->. by intros [= _ <-]. }
  destruct (int _) as [e'|nMillis] eqn:Hint.
  { intros [= _ <-]. by eapply int_past_guard. }
  destruct (nMillis =? 0)%Z; [by intros [= _ <-]|].
  destruct (write_frames_ok (ffmpeg (fs1 !! OsPath.resolve sVideoPath)
              (inject_Z nFramesNorm / (inject_Z nMillis / 1000))%Q nFramesNorm) sDir 1 fs1)
    as [fs2 ->].
  destruct (decide _); [done|]. intros [= _ <-]. by eexists _, _.
Qed.

Lemma frames2features_body_past_guard
    (load_img : option node → nat * nat → option ndarray)
    (sFrameDir sFeatureDir : string) (oCNN : ConvNet) (nFramesNorm : Z) (seVideo : string)
    (fs fs' : store) (e : exn) :
  frames2features_body load_img sFrameDir sFeatureDir oCNN nFramesNorm seVideo fs
    = (fs', inl e) →
  past_guard e.
Proof.
  unfold frames2features_body, bind, get. lazy beta iota.
  destruct (OsPath.exists_ fs _); [done|].
  destruct (os_makedirs _ fs) as [fs1 [e'|[]]] eqn:Hmk.
  { apply mkdirs_exn in Hmk as ->. by intros [= _ <-]. }
  destruct (decide _); [|by intros [= _ <-]].
  destruct (map_exn _ _) as [e'|liFrames] eqn:Hload; unfold lift, raise, ret; lazy beta iota.
  { intros [= _ <-]. apply (map_exn_exn _ past_guard) in Hload; [done|].
    intros x e''. destruct (load_img _ _); [done|]. by intros [= <-]. }
  destruct (reshape_rows _ _) as [e'|arr] eqn:Hre; [|done].
  unfold reshape_rows in Hre. destruct (_ && _); [done|]. simplify_eq.
  intros [= _ <-]. by eexists _, _.
Qed.




(** ** Paths built by the frame stage *)

Lemma split_head (c : ascii) (s w : string) (ws : list string) :
  PyStr.split c s = w :: ws →
  PyStr.mem c w = false ∧ (s = w ∨ ∃ rest, s = w +:+ String c rest).
Proof.
  revert w ws. induction s as [|x s IH]; intros w ws; simpl.
  - intros [= <- <-]. split; [done|by left].
  - destruct (Ascii.eqb x c) eqn:Hx.
    + intros [= <- <-]. split; [done|]. right. exists s.
      by apply Ascii.eqb_eq in Hx as ->.
    + destruct (split_cons c s) as (w' & ws' & Hs). rewrite Hs.
      intros [= <- <-]. destruct (IH _ _ Hs) as [Hmem Hcases]. split.
      * simpl. by rewrite Hx, Hmem.
      * destruct Hcases as [->|[rest ->]]; [by left|]. right. by exists rest.
Qed.

(** The stem of a visible file name is itself a name. *)
Lemma stem_is_name (f stem : string) (ws : list string) :
  OsPath.is_name f → PyStr.startswith f "." = false →
  PyStr.split "." f = stem :: ws → OsPath.is_name stem.
Proof.
  intros (Hne & _ & _ & Hslash) Hdot Hsplit.
  destruct (split_head _ _ _ _ Hsplit) as [Hmem Hcases].
  assert (stem ≠ "") as Hstem.
  { intros ->. destruct Hcases as [->|[rest ->]]; [done|].
    change (PyStr.startswith (String "." rest) "." = false) in Hdot.
    cbn [PyStr.startswith] in Hdot. by rewrite Ascii.eqb_refl in Hdot. }
  repeat split; [done|by intros ->|by intros ->|].
  destruct Hcases as [->|[rest ->]]; [done|].
  rewrite mem_app in Hslash. by apply orb_false_iff in Hslash as [? _].
Qed.

Lemma resolve_slash (p : string) : p ≠ "" → OsPath.resolve (p +:+ "/") = OsPath.resolve p.
Proof.
  intros Hp. unfold OsPath.resolve. rewrite root_app by done.
  rewrite (split_app_sep "/" p ""), filter_app. cbn [PyStr.split].
  rewrite (filter_proper_empty [""]); [by rewrite app_nil_r|by repeat constructor].
Qed.

Lemma root_slash (p q : string) : OsPath.root (p +:+ String "/" q) = OsPath.root (p +:+ "/").
Proof.
  destruct p as [|c p]; [done|]. by rewrite !append_cons, !root_cons.
Qed.

Lemma resolve_snoc (p n : string) :
  OsPath.is_name n → OsPath.resolve (p +:+ "/" +:+ n) = OsPath.resolve (p +:+ "/") ++ [n].
Proof.
  intros Hn. unfold OsPath.resolve. rewrite append_slash, root_slash.
  rewrite split_app_sep, (split_app_sep "/" p ""), !filter_app.
  rewrite (split_no_sep "/" n) by by apply is_name_no_slash.
  cbn [PyStr.split]. rewrite (filter_proper_empty [""]) by by repeat constructor.
  rewrite (filter_proper_names [n]) by (apply Forall_cons; split; [done|constructor]).
  by rewrite app_nil_r, app_assoc.
Qed.

Lemma resolve_dirname_snoc (p n : string) :
  PyStr.mem "/" n = false →
  OsPath.resolve (OsPath.dirname (p +:+ "/" +:+ n)) = OsPath.resolve (p +:+ "/").
Proof.
  intros Hn. rewrite resolve_dirname. unfold OsPath.resolve.
  rewrite append_slash, root_slash, split_app_sep, (split_app_sep "/" p "").
  rewrite (split_no_sep "/" n) by done. rewrite removelast_snoc, filter_app. cbn [PyStr.split].
  by rewrite (filter_proper_empty [""]), app_nil_r by by repeat constructor.
Qed.

Lemma append_nonempty (p q : string) : q ≠ "" → p +:+ q ≠ "".
Proof. intros Hq. destruct p; [done|]. by rewrite append_cons. Qed.

(** The directory of a video's frames, resolved. *)
Lemma video_dir_resolve (sFrameDir a b stem : string) :
  OsPath.is_name a → OsPath.is_name b → OsPath.is_name stem →
  OsPath.resolve (sFrameDir +:+ "/" +:+ a +:+ "/" +:+ b +:+ "/" +:+ stem)
  = OsPath.resolve (sFrameDir +:+ "/") ++ [a; b; stem].
Proof.
  intros Ha Hb Hs.
  replace (sFrameDir +:+ "/" +:+ a +:+ "/" +:+ b +:+ "/" +:+ stem)
    with (((sFrameDir +:+ "/" +:+ a) +:+ "/" +:+ b) +:+ "/" +:+ stem)
    by (by rewrite !append_assoc).
  rewrite resolve_snoc, resolve_slash by (done || by apply append_nonempty).
  rewrite resolve_snoc, resolve_slash by (done || by apply append_nonempty).
  rewrite resolve_snoc by done. by rewrite <- !app_assoc.
Qed.

Lemma digit_not_slash (n : nat) : Ascii.eqb (PyStr.digit (n mod 10)) "/" = false.
Proof.
  pose proof (Nat.mod_upper_bound n 10 ltac:(lia)) as H.
  destruct (n mod 10)%nat as [|d]; [done|].
  do 9 (destruct d as [|d]; [done|]). lia.
Qed.

Lemma digits_no_slash (fuel n : nat) (acc : string) :
  PyStr.mem "/" (PyStr.digits_fuel fuel n acc) = PyStr.mem "/" acc.
Proof.
  revert n acc. induction fuel as [|fuel IH]; intros n acc; cbn [PyStr.digits_fuel]; [done|].
  destruct (n / 10 =? 0)%nat.
  - cbn [PyStr.mem]. by rewrite digit_not_slash.
  - rewrite IH. cbn [PyStr.mem]. by rewrite digit_not_slash.
Qed.

Lemma zeros_no_slash (k : nat) : PyStr.mem "/" (PyStr.zeros k) = false.
Proof. induction k as [|k IH]; [done|]. by cbn [PyStr.zeros PyStr.mem]. Qed.

Lemma frame_name_is_name (i : nat) : OsPath.is_name (frame_name i).
Proof.
  unfold frame_name. repeat split; try done.
  rewrite !mem_app. unfold PyStr.zero_pad, PyStr.str_of_nat.
  rewrite mem_app, zeros_no_slash, digits_no_slash. done.
Qed.

Lemma frame_file_resolve (sDir : string) (i : nat) :
  sDir ≠ "" →
  OsPath.resolve (frame_file sDir i) = OsPath.resolve sDir ++ [frame_name i].
Proof.
  intros Hne. unfold frame_file.
  by rewrite resolve_snoc, resolve_slash by (done || apply frame_name_is_name).
Qed.

Lemma join_dte_nonempty (l : list string) :
  OsPath.drop_trailing_empty l ≠ [] →
  PyStr.join "/" (OsPath.drop_trailing_empty l) ≠ "".
Proof.
  induction l as [|x l IH]; [done|]. cbn [OsPath.drop_trailing_empty].
  destruct (OsPath.drop_trailing_empty l) as [|y r].
  - by destruct (decide (x = "")).
  - intros _. change (PyStr.join "/" (x :: y :: r))
      with (x +:+ String "/" (PyStr.join "/" (y :: r))).
    by apply append_nonempty.
Qed.

(** The directory part of a pattern with a slash is not the empty path. *)
Lemma dirname_nonempty (p q : string) : OsPath.dirname (p +:+ String "/" q) ≠ "".
Proof.
  unfold OsPath.dirname. rewrite split_app_sep.
  rewrite removelast_app by apply split_nonempty.
  destruct (split_cons "/" p) as (w & ws & ->).
  destruct (decide _) as [_|Hsome]; [done|].
  by apply join_dte_nonempty, dte_not_nil.
Qed.

Section FrameStage.

Variable mediainfo : option node → string.
Variable ffmpeg : option node → Q → Z → list content.
Variables (sVideoDir sFrameDir : string) (nFramesNorm : Z).

Let base := OsPath.resolve (sFrameDir +:+ "/").

(** Every element the loop runs over is a located video. *)
Lemma located_names (fs : store) (nClasses : option Z) (dfVideos : list string) (v : string) :
  located_videos fs sVideoDir nClasses = inr dfVideos → v ∈ dfVideos →
  ∃ pre a b c, PyStr.split "/" v = pre ++ [a; b; c] ∧ pre ≠ []
               ∧ OsPath.is_name a ∧ OsPath.is_name b ∧ OsPath.is_name c
               ∧ PyStr.startswith c "." = false.
Proof.
  unfold located_videos, restrict_classes. intros Hl Hv.
  assert (v ∈ glob fs (OsPath.dirname (sVideoDir +:+ "/*")) [Star; Star; StarSuffix ".avi"])
    as (r & -> & Hr)%list_elem_of_fmap.
  { destruct nClasses as [n|]; [|by simplify_eq].
    destruct (map_exn label_of _) as [e|labels]; [done|]. simplify_eq.
    apply list_elem_of_fmap in Hv as ([s l] & -> & [_ Hin]%list_elem_of_filter).
    by eapply elem_of_zip_l. }
  destruct (glob_rel_3 _ _ _ _ _ _ Hr) as (a & b & c & -> & Ha & Hb & Hc & Hm).
  assert (Forall OsPath.is_name [a; b; c]) as Hnames.
  { repeat (apply Forall_cons; split; [done|]). constructor. }
  destruct (join_split (OsPath.dirname (sVideoDir +:+ "/*")) (PyStr.join "/" [a; b; c]))
    as (pre & Hsplit & _ & Hpre).
  { by apply join_startswith. }
  rewrite split_join in Hsplit; [|done|].
  - exists pre, a, b, c. split; [done|]. split; [apply Hpre, dirname_nonempty|].
    repeat (split; [done|]).
    unfold fnmatch in Hm. apply andb_true_iff in Hm as [Hm _].
    by apply negb_true_iff in Hm.
  - eapply Forall_impl; [exact Hnames|]. apply is_name_no_slash.
Qed.

Lemma located_video_dir (v : string) (pre : list string) (a b c : string) :
  PyStr.split "/" v = pre ++ [a; b; c] → pre ≠ [] →
  OsPath.is_name c → PyStr.startswith c "." = false →
  ∃ stem, OsPath.is_name stem
          ∧ video_dir sFrameDir v
            = inr (sFrameDir +:+ "/" +:+ a +:+ "/" +:+ b +:+ "/" +:+ stem).
Proof.
  intros Hsplit Hpre Hc Hdot. rewrite (video_dir_long _ _ _ _ _ _ Hsplit Hpre).
  destruct (split_cons "." c) as (stem & ws & Hstem). rewrite Hstem.
  exists stem. split; [by eapply stem_is_name|done].
Qed.

Lemma write_frames_spec (frames : list content) (sDir : string) (i : nat) (fs : store) :
  sDir ≠ "" →
  ∃ fs', write_frames sDir i frames fs = (fs', inr tt)
         ∧ ∀ k, (∀ j, k ≠ OsPath.resolve sDir ++ [frame_name j]) → fs' !! k = fs !! k.
Proof.
  intros Hne. revert i fs. induction frames as [|f frames IH]; intros i fs; simpl.
  - by exists fs.
  - unfold bind, write. lazy beta iota.
    destruct (IH (S i) (<[OsPath.resolve (frame_file sDir i) := File f]> fs))
      as (fs' & -> & Hfs').
    exists fs'. split; [done|]. intros k Hk. rewrite (Hfs' k Hk).
    apply lookup_insert_ne. rewrite frame_file_resolve by done. intros <-. by eapply Hk.
Qed.

(** One round of the loop on a located video: other frame directories
    keep their entries, and a normal return means the count was right. *)
Lemma video2frames_body_spec (v : string) (pre : list string) (a b c : string)
    (fs fs2 : store) (r : exn + unit) :
  PyStr.split "/" v = pre ++ [a; b; c] → pre ≠ [] →
  OsPath.is_name a → OsPath.is_name b → OsPath.is_name c →
  PyStr.startswith c "." = false →
  video2frames_body mediainfo ffmpeg sFrameDir nFramesNorm v fs = (fs2, r) →
  ∃ stem sDir,
    OsPath.is_name stem
    ∧ sDir = sFrameDir +:+ "/" +:+ a +:+ "/" +:+ b +:+ "/" +:+ stem
    ∧ video_dir sFrameDir v = inr sDir
    ∧ OsPath.resolve sDir = base ++ [a; b; stem]
    ∧ (∀ K name, length K = (length base + 3)%nat → K ≠ base ++ [a; b; stem] →
         fs2 !! (K ++ [name]) = fs !! (K ++ [name]))
    ∧ (r = inr tt → Z.of_nat (count_frames fs2 sDir) = nFramesNorm).
Proof.
  intros Hsplit Hpre Ha Hb Hc Hdot.
  destruct (located_video_dir v pre a b c Hsplit Hpre Hc Hdot) as (stem & Hstem & Hdir).
  pose proof (video_dir_resolve sFrameDir a b stem Ha Hb Hstem) as Hres.
  fold base in Hres.
  set (sDir := sFrameDir +:+ "/" +:+ a +:+ "/" +:+ b +:+ "/" +:+ stem) in *.
  assert (sDir ≠ "") as HsDir.
  { intros H. rewrite H in Hres. by destruct base. }
  intros Hbody. exists stem, sDir. do 4 (split; [done|]). revert Hbody.
  unfold video2frames_body, bind, get. lazy beta iota. rewrite Hdir.
  unfold lift, raise, ret. lazy beta iota.
  destruct (os_makedirs sDir fs) as [fs1 rm] eqn:Hmk.
  assert (∀ K name, length K = (length base + 3)%nat →
            fs1 !! (K ++ [name]) = fs !! (K ++ [name])) as Hframe1.
  { intros K name HK. apply os_makedirs_spec in Hmk as [Hsub Hnew].
    destruct (fs !! (K ++ [name])) as [x|] eqn:Hk; [by apply (lookup_weaken _ _ _ _ Hk Hsub)|].
    destruct (Hnew _ Hk) as [?|[_ [_ Hp%prefix_length]]]; [done|].
    rewrite Hres, !length_app in Hp. simpl in Hp. lia. }
  destruct rm as [e|[]].
  { intros [= <- <-]. split; [|done]. intros K name HK _. by apply Hframe1. }
  destruct (int _) as [e|nMillis].
  { intros [= <- <-]. split; [|done]. intros K name HK _. by apply Hframe1. }
  destruct (nMillis =? 0)%Z.
  { intros [= <- <-]. split; [|done]. intros K name HK _. by apply Hframe1. }
  destruct (write_frames_spec (ffmpeg (fs1 !! OsPath.resolve v)
              (inject_Z nFramesNorm / (inject_Z nMillis / 1000))%Q nFramesNorm) sDir 1 fs1 HsDir)
    as (fs3 & -> & Hframe3).
  assert (∀ K name, length K = (length base + 3)%nat → K ≠ base ++ [a; b; stem] →
            fs3 !! (K ++ [name]) = fs !! (K ++ [name])) as Hframe.
  { intros K name HK HKD. rewrite Hframe3; [by apply Hframe1|].
    intros j Heq. rewrite Hres in Heq. by apply app_inj_tail in Heq as [? _]. }
  destruct (decide _) as [Hcount|_].
  - intros [= <- <-]. done.
  - intros [= <- <-]. done.
Qed.

End FrameStage.

Lemma count_frames_resolve (fs : store) (sDir : string) :
  sDir ≠ "" →
  count_frames fs sDir = length (glob_rel fs (OsPath.resolve sDir) [StarSuffix ".jpg"]).
Proof.
  intros Hne. unfold count_frames, glob. rewrite length_fmap.
  change (sDir +:+ "/*.jpg") with (sDir +:+ "/" +:+ "*.jpg").
  by rewrite resolve_dirname_snoc, resolve_slash.
Qed.



(** ** The order in which frames are loaded *)

#[local] Instance str_le_dec : RelDecision str_le.
Proof. intros a b. unfold str_le. apply _. Defined.

Lemma compare_append (p a b : string) :
  String.compare (p +:+ a) (p +:+ b) = String.compare a b.
Proof.
  induction p as [|c p IH]; [done|]. rewrite !append_cons. simpl.
  assert (Ascii.compare c c = Eq) as ->; [|done].
  unfold Ascii.compare. apply N.compare_refl.
Qed.

Lemma str_le_append (p a b : string) : str_le a b → str_le (p +:+ a) (p +:+ b).
Proof. unfold str_le, PyStr.leb, String.leb. by rewrite compare_append. Qed.

(** [os.path.join] onto a fixed directory puts a fixed prefix in front. *)
Lemma join_prefix (D : string) :
  ∃ pfx, ∀ x, PyStr.startswith x "/" = false → OsPath.join D x = pfx +:+ x.
Proof.
  unfold OsPath.join. destruct (decide (D = "")) as [->|HD].
  - exists "". intros x ->. done.
  - destruct (PyStr.endswith D "/").
    + exists D. by intros x ->.
    + exists (D +:+ "/"). intros x ->. by rewrite append_assoc.
Qed.

(** Three digits keep up to 999 frame names in order. *)
Lemma frame_names_sorted_999 : Sorted str_le (frame_name <$> seq 1 999).
Proof. by_computation. Qed.

Lemma frame_names_sorted (k : nat) :
  (k ≤ 999)%nat → Sorted str_le (frame_name <$> seq 1 k).
Proof.
  intros Hk. pose proof frame_names_sorted_999 as H.
  replace 999%nat with (k + (999 - k))%nat in H by lia.
  rewrite seq_app, fmap_app in H.
  apply Sorted_StronglySorted in H; [|apply _].
  apply StronglySorted_app_1_l in H. by apply StronglySorted_Sorted.
Qed.




(** * Further properties of the stages *)

(** ** Prediction: when it returns, and what it reports *)

Lemma is_argmax_unique (row : list Q) (i j : nat) :
  is_argmax row i → is_argmax row j → i = j.
Proof.
  intros (x & Hx & Hmax & Hfirst) (y & Hy & Hmax' & Hfirst').
  destruct (lt_eq_lt_dec i j) as [[Hlt | ->] | Hlt]; [| done |]; exfalso.
  - specialize (Hfirst' _ _ Hx Hlt). specialize (Hmax _ _ Hy).
    by apply (Qlt_not_le _ _ Hfirst').
  - specialize (Hfirst _ _ Hy Hlt). specialize (Hmax' _ _ Hx).
    by apply (Qlt_not_le _ _ Hfirst).
Qed.

Lemma argmax_inr (row : list Q) (i : nat) :
  argmax row = inr i ↔ row ≠ [] ∧ is_argmax row i.
Proof.
  split.
  - intros Hi. assert (row ≠ []) as Hne by (by destruct row).
    split; [done|]. destruct (argmax_spec row Hne) as (j & Hj & Hmax).
    by assert (i = j) as -> by congruence.
  - intros [Hne Hmax]. destruct (argmax_spec row Hne) as (j & Hj & Hmax').
    by rewrite (is_argmax_unique _ _ _ Hmax Hmax').
Qed.

Lemma loc_sClass_inr (oC : VideoClasses) (arPred : list nat) (sePred : list string) :
  loc_sClass oC arPred = inr sePred
  ↔ Forall2 (fun i c => dfClass oC !! i = Some c) arPred sePred.
Proof.
  unfold loc_sClass. rewrite map_exn_inr.
  split; intros H; (eapply Forall2_impl; [exact H|]); intros i c; simpl.
  - by destruct (dfClass oC !! i); intros [= ->].
  - by intros ->.
Qed.

Lemma loc_sClass_exn (oC : VideoClasses) (arPred : list nat) (e : exn) :
  loc_sClass oC arPred = inl e → e = KeyError.
Proof.
  apply (map_exn_exn _ (fun e => e = KeyError)). intros i e'.
  by destruct (dfClass oC !! i); intros [= <-].
Qed.

Lemma argmax_exn (l : list (list Q)) (e : exn) :
  map_exn argmax l = inl e → ∃ msg, e = ValueError msg.
Proof.
  apply (map_exn_exn _ (fun e => ∃ msg, e = ValueError msg)). intros row e'.
  destruct row; intros [= <-]. eauto.
Qed.

(** X1.  [predict] returns normally exactly when the features load,
    every row of the model's output is non-empty and has its first largest
    entry at an index of the class table, and there are as many rows as
    labels.  Otherwise it raises and leaves the store as it was; the
    exception is the loader's, [KeyError] (a predicted index outside the
    class table) or [ValueError] (an empty row, or rows and labels of
    different number). *)
Theorem predict_returns_iff
    (load_features : store → string → Z → nat → list string → exn + VideoFeatures)
    (sFeatureDir : string) (oRNN : RecurrentNet) (fs : store) :
  ((∃ acc, predict load_features sFeatureDir oRNN fs = (fs, inr acc))
   ↔ ∃ oFeatures,
       load_features fs sFeatureDir (rnn_nFramesNorm oRNN) (nFeatureLength oRNN)
                     (liClasses (oClasses oRNN)) = inr oFeatures
       ∧ Forall (fun row => row ≠ []
                   ∧ ∀ i, is_argmax row i → (i < length (dfClass (oClasses oRNN)))%nat)
                (rnn_predict oRNN (arFeatures oFeatures))
       ∧ length (rnn_predict oRNN (arFeatures oFeatures)) = length (liLabels oFeatures))
  ∧ ∀ fs' e, predict load_features sFeatureDir oRNN fs = (fs', inl e) →
      fs' = fs
      ∧ (load_features fs sFeatureDir (rnn_nFramesNorm oRNN) (nFeatureLength oRNN)
                       (liClasses (oClasses oRNN)) = inl e
         ∨ e = KeyError ∨ ∃ msg, e = ValueError msg).
Proof.
  unfold predict, bind, get, lift, raise, ret; lazy beta iota.
  destruct (load_features _ _ _ _ _) as [e0|oF] eqn:Hload.
  { split; [|intros fs' e [= <- <-]; by auto].
    split; [by intros [acc [=]]|by intros (? & [=] & _)]. }
  destruct (map_exn argmax _) as [e1|arPred] eqn:Hmap.
  { split; [|intros fs' e [= <- <-]; split; [done|]; right; right; by eapply argmax_exn].
    split; [by intros [acc [=]]|]. intros (? & [= <-] & Hrows & _). exfalso.
    destruct (map_exn_argmax (rnn_predict oRNN (arFeatures oF))) as (? & Hok & _).
    - eapply Forall_impl; [exact Hrows|]. by intros row [? _].
    - by rewrite Hok in Hmap. }
  apply map_exn_inr in Hmap.
  assert (Forall2 (fun row i => row ≠ [] ∧ is_argmax row i)
                  (rnn_predict oRNN (arFeatures oF)) arPred) as Harg.
  { eapply Forall2_impl; [exact Hmap|]. intros row i. by rewrite argmax_inr. }
  destruct (loc_sClass _ _) as [e2|sePred] eqn:Hloc.
  { split; [|intros fs' e [= <- <-]; split; [done|]; right; left; by eapply loc_sClass_exn].
    split; [by intros [acc [=]]|]. intros (? & [= <-] & Hrows & _). exfalso.
    destruct (loc_sClass_spec (oClasses oRNN) arPred) as (? & Hok & _).
    - apply Forall_forall. intros i Hi.
      apply list_elem_of_lookup in Hi as [n Hn].
      destruct (Forall2_lookup_r _ _ _ _ _ Harg Hn) as (row & Hrow & _ & Hmax).
      apply list_elem_of_lookup_2 in Hrow.
      rewrite Forall_forall in Hrows. destruct (Hrows row Hrow) as [_ Hlt]. by apply Hlt.
    - by rewrite Hok in Hloc. }
  apply loc_sClass_inr in Hloc.
  assert (length sePred = length (rnn_predict oRNN (arFeatures oF))) as Hlen.
  { by rewrite (Forall2_length _ _ _ Harg), (Forall2_length _ _ _ Hloc). }
  unfold eq_elementwise. destruct (decide _) as [Heq|Hne].
  - split; [|by intros fs' e [=]].
    split; [intros _|by eauto]. exists oF. split; [done|]. split; [|congruence].
    apply Forall_forall. intros row Hrow.
    apply list_elem_of_lookup in Hrow as [n Hn].
    destruct (Forall2_lookup_l _ _ _ _ _ Harg Hn) as (i & Hi & Hne & Hmax).
    split; [done|]. intros j Hj. rewrite (is_argmax_unique _ _ _ Hj Hmax).
    destruct (Forall2_lookup_l _ _ _ _ _ Hloc Hi) as (c & _ & Hc).
    by apply lookup_lt_Some in Hc.
  - split; [|intros fs' e [= <- <-]; split; [done|]; right; right; by eauto].
    split; [by intros [acc [=]]|]. intros (? & [= <-] & _ & Hlen'). congruence.
Qed.

Lemma hits_le (pred truth : list string) : (hits pred truth ≤ length pred)%nat.
Proof.
  revert truth. induction pred as [|p pred IH]; intros [|t truth]; simpl; try lia.
  specialize (IH truth). destruct (decide (t = p)); lia.
Qed.

Lemma hits_all (pred truth : list string) :
  length truth = length pred → hits pred truth = length pred ↔ pred = truth.
Proof.
  revert truth. induction pred as [|p pred IH]; intros [|t truth]; simpl; try done.
  intros [= Hlen]. specialize (IH truth Hlen). pose proof (hits_le pred truth).
  destruct (decide (t = p)) as [->|Hne]; split.
  - intros [= Hh]. f_equal. by apply IH.
  - intros [= Hh]. f_equal. by apply IH.
  - lia.
  - intros [= ? ?]. by subst.
Qed.

(** X2.  When [predict] returns for at least one video, the accuracy it
    reports lies between 0 and 1, and it is 1 exactly when the predicted
    class name of every video is its label. *)
Theorem accuracy_range
    (load_features : store → string → Z → nat → list string → exn + VideoFeatures)
    (sFeatureDir : string) (oRNN : RecurrentNet) (fs fs' : store) (acc : Q)
    (oFeatures : VideoFeatures) :
  load_features fs sFeatureDir (rnn_nFramesNorm oRNN) (nFeatureLength oRNN)
                (liClasses (oClasses oRNN)) = inr oFeatures →
  liLabels oFeatures ≠ [] →
  predict load_features sFeatureDir oRNN fs = (fs', inr acc) →
  (0 <= acc <= 1)%Q
  ∧ ∃ sePred,
      Forall2 (fun row c => ∃ i, is_argmax row i ∧ dfClass (oClasses oRNN) !! i = Some c)
              (rnn_predict oRNN (arFeatures oFeatures)) sePred
      ∧ ((acc == 1)%Q ↔ sePred = liLabels oFeatures).
Proof.
  intros Hload Hne.
  unfold predict, bind, get, lift, raise, ret; lazy beta iota. rewrite Hload.
  destruct (map_exn argmax _) as [e1|arPred] eqn:Hmap; [done|].
  destruct (loc_sClass _ _) as [e2|sePred] eqn:Hloc; [done|].
  unfold eq_elementwise. destruct (decide _) as [Hlen|]; [|done].
  intros [= <- <-]. rewrite np_mean_hits by done.
  apply map_exn_inr in Hmap. apply loc_sClass_inr in Hloc.
  pose proof (hits_le sePred (liLabels oFeatures)) as Hle.
  pose proof (hits_all sePred (liLabels oFeatures) Hlen) as Hall.
  assert (0 < length sePred)%nat as Hpos.
  { rewrite <- Hlen. destruct (liLabels oFeatures); [done|simpl; lia]. }
  set (h := hits sePred (liLabels oFeatures)) in *. set (n := length sePred) in *.
  assert (0 < inject_Z (Z.of_nat n))%Q as HposQ.
  { change 0%Q with (inject_Z 0). rewrite <- Zlt_Qlt. lia. }
  split; [split|].
  - apply Qle_shift_div_l; [done|]. rewrite Qmult_0_l.
    change 0%Q with (inject_Z 0). rewrite <- Zle_Qle. lia.
  - apply Qle_shift_div_r; [done|]. rewrite Qmult_1_l. rewrite <- Zle_Qle. lia.
  - exists sePred. split.
    + apply Forall2_same_length_lookup. split.
      * by rewrite (Forall2_length _ _ _ Hmap), (Forall2_length _ _ _ Hloc).
      * intros j row c Hrow Hc.
        destruct (Forall2_lookup_l _ _ _ _ _ Hmap Hrow) as (i & Hi & Harg).
        destruct (Forall2_lookup_l _ _ _ _ _ Hloc Hi) as (c' & Hc' & Hlook).
        assert (c' = c) as -> by congruence.
        exists i. split; [|done]. by apply argmax_inr in Harg as [_ ?].
    + rewrite <- Hall. split.
      * intros Heq.
        assert (inject_Z (Z.of_nat h) == inject_Z (Z.of_nat n))%Q as Hq.
        { rewrite <- (Qmult_div_r (inject_Z (Z.of_nat h)) (inject_Z (Z.of_nat n))).
          - rewrite Heq. apply Qmult_1_r.
          - intros H0. rewrite H0 in HposQ. by apply Qlt_irrefl in HposQ. }
        pose proof (proj1 (inject_Z_injective (Z.of_nat h) (Z.of_nat n)) Hq). lia.
      * intros ->. apply Qmult_inv_r.
        intros H0. rewrite H0 in HposQ. by apply Qlt_irrefl in HposQ.
Qed.

Lemma accuracy_range_witness :
  let oRNN := {| rnn_nFramesNorm := 1; nFeatureLength := 1;
                 oClasses := {| dfClass := ["c1"; "c2"]; liClasses := ["c1"; "c2"] |};
                 rnn_predict := fun _ => [[(1#5)%Q; (4#5)%Q]; [(3#5)%Q; (2#5)%Q]] |} in
  (0 <= 1 # 2 <= 1)%Q
  ∧ ∃ sePred,
      Forall2 (fun row c => ∃ i, is_argmax row i ∧ ["c1"; "c2"] !! i = Some c)
              [[(1#5)%Q; (4#5)%Q]; [(3#5)%Q; (2#5)%Q]] sePred
      ∧ ((1 # 2 == 1)%Q ↔ sePred = ["c2"; "c2"]).
Proof.
  intros oRNN.
  apply (accuracy_range
           (fun _ _ _ _ _ =>
              inr {| arFeatures := {| shape := [2; 1; 1]%nat; data := [1%Q; 2%Q] |};
                     liLabels := ["c2"; "c2"]; nSamples := 2 |})
           "feat/val" oRNN ∅ ∅ (1 # 2)%Q
           {| arFeatures := {| shape := [2; 1; 1]%nat; data := [1%Q; 2%Q] |};
              liLabels := ["c2"; "c2"]; nSamples := 2 |}).
  - reflexivity.
  - done.
  - vm_compute. reflexivity.
Defined.

(** ** The class limit *)

Lemma restrict_rows_mono (C D : list string) (rows : list (string * string)) :
  (∀ l, l ∈ C → l ∈ D) →
  (filter (fun row : string * string => row.2 ∈ C) rows).*1
    `sublist_of` (filter (fun row : string * string => row.2 ∈ D) rows).*1.
Proof.
  intros Hsub. apply fmap_sublist.
  induction rows as [|row rows IH]; [done|].
  rewrite !filter_cons.
  destruct (decide (row.2 ∈ C)) as [HC|HC]; destruct (decide (row.2 ∈ D)) as [HD|HD].
  - by apply sublist_skip.
  - by destruct HD; apply Hsub.
  - by apply sublist_cons.
  - done.
Qed.

Lemma restrict_rows_all (C : list string) (paths labels : list string) :
  length paths = length labels → Forall (fun l => l ∈ C) labels →
  (filter (fun row : string * string => row.2 ∈ C) (zip paths labels)).*1 = paths.
Proof.
  revert labels. induction paths as [|s paths IH]; intros [|l labels]; simpl; try done.
  intros [= Hlen] [Hl Hall]%Forall_cons. rewrite filter_cons. simpl.
  destruct (decide (l ∈ C)); [|done]. simpl. f_equal. by apply IH.
Qed.

Lemma restrict_rows_none (rows : list (string * string)) :
  filter (fun row : string * string => row.2 ∈ @nil string) rows = [].
Proof.
  induction rows as [|row rows IH]; [done|]. rewrite filter_cons.
  destruct (decide _) as [Hin|]; [|done]. by apply elem_of_nil in Hin.
Qed.

Lemma restrict_classes_labels (n : Z) (paths sel : list string) :
  restrict_classes (Some n) paths = inr sel →
  ∃ labels, Forall2 second_to_last paths labels
            ∧ sel = (filter (fun row : string * string =>
                               row.2 ∈ PyStr.slice_to (PyStr.sorted (PyStr.unique labels)) n)
                            (zip paths labels)).*1.
Proof.
  unfold restrict_classes. destruct (map_exn label_of paths) as [|labels] eqn:Hmap; [done|].
  intros [= <-]. exists labels. split; [|done].
  apply map_exn_inr in Hmap. eapply Forall2_impl; [exact Hmap|].
  intros s l. by apply label_of_inr.
Qed.

Lemma second_to_last_unique (s l l' : string) :
  second_to_last s l → second_to_last s l' → l = l'.
Proof. intros H1%label_of_inr H2%label_of_inr. congruence. Qed.

Lemma labels_unique (paths labels labels' : list string) :
  Forall2 second_to_last paths labels → Forall2 second_to_last paths labels' →
  labels = labels'.
Proof.
  intros H. revert labels'. induction H as [|s l paths labels Hl _ IH]; intros labels' H'.
  - by apply Forall2_nil_inv_l in H'.
  - apply Forall2_cons_inv_l in H' as (l' & labels'' & Hl' & H' & ->).
    f_equal; [by eapply second_to_last_unique|by apply IH].
Qed.

(** X3.  The class limit is monotone: a larger non-negative limit keeps
    every video a smaller one keeps, in the same order. *)
Theorem class_limit_monotone (paths : list string) (n m : Z) (sel_n sel_m : list string) :
  (0 ≤ n ≤ m)%Z →
  restrict_classes (Some n) paths = inr sel_n →
  restrict_classes (Some m) paths = inr sel_m →
  sel_n `sublist_of` sel_m.
Proof.
  intros Hnm (labels & Hl & ->)%restrict_classes_labels
         (labels' & Hl' & ->)%restrict_classes_labels.
  rewrite <- (labels_unique _ _ _ Hl Hl').
  apply restrict_rows_mono. intros l.
  rewrite !slice_to_nonneg by lia.
  replace (Z.to_nat n) with (Z.to_nat n `min` Z.to_nat m)%nat by lia.
  rewrite <- take_take. intros Hin. eapply elem_of_sublist; [exact Hin|apply sublist_take].
Qed.

Lemma class_limit_monotone_witness :
  ["v/train/c1/a.avi"] `sublist_of` ["v/train/c1/a.avi"; "v/train/c2/b.avi"].
Proof.
  apply (class_limit_monotone ["v/train/c1/a.avi"; "v/train/c2/b.avi"] 1 2).
  - lia.
  - reflexivity.
  - reflexivity.
Defined.

Lemma restrict_classes_all (paths labels : list string) (m : Z) :
  Forall2 second_to_last paths labels →
  (Z.of_nat (length (PyStr.unique labels)) ≤ m)%Z →
  restrict_classes (Some m) paths = inr paths.
Proof.
  intros Hl Hm.
  assert (map_exn label_of paths = inr labels) as Hmap.
  { apply map_exn_inr. eapply Forall2_impl; [exact Hl|]. intros s l. by apply label_of_inr. }
  unfold restrict_classes. rewrite Hmap. f_equal.
  apply restrict_rows_all; [by eapply Forall2_length|].
  rewrite slice_to_nonneg by lia. rewrite take_ge.
  - apply Forall_forall. intros l Hin. by rewrite sorted_perm, unique_elem_of.
  - rewrite sorted_length. lia.
Qed.

Lemma restrict_classes_zero (paths : list string) :
  Forall (fun s => ∃ l, second_to_last s l) paths →
  restrict_classes (Some 0%Z) paths = inr [].
Proof.
  intros Hpaths.
  destruct (map_exn_total label_of paths) as [labels Hlabels].
  { eapply Forall_impl; [exact Hpaths|]. intros s [l Hl]. exists l. by apply label_of_inr. }
  unfold restrict_classes. rewrite Hlabels.
  change (PyStr.slice_to (PyStr.sorted (PyStr.unique labels)) 0) with (@nil string).
  by rewrite restrict_rows_none.
Qed.

(** X4.  A class limit that is at least the number of distinct labels
    restricts nothing: both stages loop over the whole listing. *)
Theorem class_limit_saturates (fs : store) (sVideoDir sFrameDir : string) (m : Z) :
  (∀ labels,
     Forall2 second_to_last
       (glob fs (OsPath.dirname (sVideoDir +:+ "/*")) [Star; Star; StarSuffix ".avi"]) labels →
     (Z.of_nat (length (PyStr.unique labels)) ≤ m)%Z →
     located_videos fs sVideoDir (Some m) = located_videos fs sVideoDir None)
  ∧ (∀ labels,
       Forall2 second_to_last
         (PyStr.join "/" <$> glob_rel fs (OsPath.resolve sFrameDir) [Star; Star; Star]) labels →
       (Z.of_nat (length (PyStr.unique labels)) ≤ m)%Z →
       listed_videos fs sFrameDir (Some m) = listed_videos fs sFrameDir None).
Proof.
  split; intros labels Hl Hm; unfold located_videos, listed_videos;
    by rewrite (restrict_classes_all _ labels m).
Qed.

Lemma class_limit_saturates_witness :
  located_videos Sample.fs_videos "v" (Some 5%Z) = located_videos Sample.fs_videos "v" None.
Proof.
  apply (proj1 (class_limit_saturates Sample.fs_videos "v" "f" 5) ["c2"; "c1"]).
  - eapply Forall2_impl; [apply (map_exn_inr label_of); by_computation|].
    intros s l. apply label_of_inr.
  - vm_compute. by intros [=].
Defined.

(** ** A class limit of zero *)

(** X5.  A class limit of [0] is not "no limit": the first zero classes
    are selected, the loop runs over nothing, and the stage returns
    normally without touching the store; the frame stage does not even
    create its output directory. *)
Theorem zero_classes_nothing_done
    (mediainfo : option node → string) (ffmpeg : option node → Q → Z → list content)
    (load_img : option node → nat * nat → option ndarray)
    (sVideoDir sFrameDir sFeatureDir : string) (oCNN : ConvNet) (nFramesNorm : Z)
    (fs : store) :
  (OsPath.exists_ fs sFrameDir = false →
     video2frames mediainfo ffmpeg sVideoDir sFrameDir nFramesNorm (Some 0%Z) fs
     = (fs, inr tt))
  ∧ (OsPath.exists_ fs sFeatureDir = false → OsPath.isdir fs sFrameDir = true →
     frames2features load_img sFrameDir sFeatureDir oCNN nFramesNorm (Some 0%Z) fs
     = (fs, inr tt)).
Proof.
  split.
  - intros Hex. unfold video2frames, bind, get. lazy beta iota. rewrite Hex.
    unfold located_videos. by rewrite restrict_classes_zero by apply located_second_to_last.
  - intros Hex Hdir. unfold frames2features, bind, get. lazy beta iota. rewrite Hex, Hdir.
    unfold listed_videos. by rewrite restrict_classes_zero by apply listed_second_to_last.
Qed.

Lemma zero_classes_nothing_done_witness :
  video2frames Sample.mediainfo Sample.ffmpeg "v" "f" 2 (Some 0%Z) Sample.fs_videos
  = (Sample.fs_videos, inr tt).
Proof.
  apply (proj1 (zero_classes_nothing_done Sample.mediainfo Sample.ffmpeg Sample.load_img
                  "v" "f" "feat" Sample.cnn 2 Sample.fs_videos)).
  reflexivity.
Defined.


(** ** The label of a video along the stages *)

(** X6.  The class label travels with the path.  For a video
    [.../a/b/stem.ext] the label the stages read off a path, its
    second-to-last component, is [b] for the video, for its frame
    directory [sFrameDir/a/b/stem], for the name [a/b/stem] under which
    the feature stage lists that directory, and for the feature file
    [sFeatureDir/a/b/stem.npy]. *)
Theorem label_travels (sFrameDir sFeatureDir v : string) (pre : list string)
    (a b f stem rest : string) :
  PyStr.split "/" v = pre ++ [a; b; f] → pre ≠ [] →
  OsPath.is_name a → OsPath.is_name b → OsPath.is_name stem →
  PyStr.mem "." stem = false → f = stem ∨ f = stem +:+ "." +:+ rest →
  label_of v = inr b
  ∧ video_dir sFrameDir v = inr (sFrameDir +:+ "/" +:+ PyStr.join "/" [a; b; stem])
  ∧ label_of (sFrameDir +:+ "/" +:+ PyStr.join "/" [a; b; stem]) = inr b
  ∧ label_of (PyStr.join "/" [a; b; stem]) = inr b
  ∧ label_of (OsPath.join sFeatureDir (PyStr.join "/" [a; b; stem] +:+ ".npy")) = inr b.
Proof.
  intros Hsplit Hpre Ha Hb Hstem Hdot Hf.
  assert (Forall (fun n => PyStr.mem "/" n = false) [a; b; stem]) as Hnames.
  { repeat (apply Forall_cons; split; [by apply is_name_no_slash|]). constructor. }
  assert (PyStr.split "/" (PyStr.join "/" [a; b; stem]) = [a; b; stem]) as Hd
    by by apply split_join.
  split; [|split; [|split; [|split]]].
  - apply label_of_inr. exists (pre ++ [a]), f. by rewrite <- app_assoc.
  - rewrite (video_dir_long _ _ _ _ _ _ Hsplit Hpre).
    destruct (split_stem "." f stem rest Hdot Hf) as [ws ->]. done.
  - apply label_of_inr. exists (PyStr.split "/" sFrameDir ++ [a]), stem.
    by rewrite append_slash, split_app_sep, Hd, <- app_assoc.
  - apply label_of_inr. exists [a], stem. by rewrite Hd.
  - rewrite npy_join. apply label_of_inr.
    destruct (join_split sFeatureDir (PyStr.join "/" [a; b; stem +:+ ".npy"]))
      as (pre' & Hsp & _).
    { apply join_startswith.
      repeat (apply Forall_cons; split; [done|]).
      apply Forall_cons. split; [by apply is_name_npy|constructor]. }
    exists (pre' ++ [a]), (stem +:+ ".npy").
    rewrite Hsp, split_join; [by rewrite <- app_assoc|done|].
    repeat (apply Forall_cons; split; [by apply is_name_no_slash|]).
    apply Forall_cons. split; [by apply is_name_no_slash, is_name_npy|constructor].
Qed.

Lemma label_travels_witness :
  label_of "v/train/c1/a.b.avi" = inr "c1"
  ∧ video_dir "f" "v/train/c1/a.b.avi" = inr ("f" +:+ "/" +:+ PyStr.join "/" ["train"; "c1"; "a"])
  ∧ label_of ("f" +:+ "/" +:+ PyStr.join "/" ["train"; "c1"; "a"]) = inr "c1"
  ∧ label_of (PyStr.join "/" ["train"; "c1"; "a"]) = inr "c1"
  ∧ label_of (OsPath.join "feat" (PyStr.join "/" ["train"; "c1"; "a"] +:+ ".npy")) = inr "c1".
Proof.
  apply (label_travels "f" "feat" "v/train/c1/a.b.avi" ["v"] "train" "c1" "a.b.avi" "a" "b.avi").
  - reflexivity.
  - done.
  - by_computation.
  - by_computation.
  - by_computation.
  - reflexivity.
  - by right.
Defined.


(** ** Frame names *)

Lemma chars_app (a b : string) :
  list_ascii_of_string (a +:+ b) = list_ascii_of_string a ++ list_ascii_of_string b.
Proof. induction a as [|c a IH]; [done|]. rewrite append_cons. simpl. by rewrite IH. Qed.

Lemma digits_value_snoc (l : list ascii) (c : ascii) :
  digits_value (l ++ [c]) = (10 * digits_value l + Z.of_nat (nat_of_ascii c - 48))%Z.
Proof. unfold digits_value. by rewrite foldl_app. Qed.

Lemma digits_fuel_acc (fuel n : nat) (acc : string) :
  PyStr.digits_fuel fuel n acc = PyStr.digits_fuel fuel n "" +:+ acc.
Proof.
  revert n acc. induction fuel as [|fuel IH]; intros n acc; [done|].
  cbn [PyStr.digits_fuel]. lazy zeta.
  destruct (n / 10 =? 0)%nat; [by rewrite append_cons|].
  rewrite (IH _ (String _ acc)), (IH _ (String _ "")).
  by rewrite append_assoc, append_cons.
Qed.

Lemma digit_value (d : nat) :
  (d < 10)%nat → (nat_of_ascii (PyStr.digit d) - 48)%nat = d.
Proof.
  intros Hd. unfold PyStr.digit. rewrite nat_ascii_embedding by lia. lia.
Qed.

Lemma digits_fuel_value (fuel n : nat) :
  (n < fuel)%nat →
  digits_value (list_ascii_of_string (PyStr.digits_fuel fuel n "")) = Z.of_nat n.
Proof.
  revert n. induction fuel as [|fuel IH]; intros n Hn; [lia|].
  cbn [PyStr.digits_fuel]. lazy zeta.
  pose proof (Nat.div_mod_eq n 10) as Hdm.
  pose proof (Nat.mod_upper_bound n 10 ltac:(lia)) as Hmod.
  destruct (Nat.eqb_spec (n / 10) 0) as [Hz|Hnz].
  - cbn [list_ascii_of_string].
    change [PyStr.digit (n mod 10)] with ([] ++ [PyStr.digit (n mod 10)]).
    rewrite digits_value_snoc, digit_value by done.
    change (digits_value []) with 0%Z. lia.
  - rewrite digits_fuel_acc, chars_app. cbn [list_ascii_of_string].
    rewrite digits_value_snoc, digit_value by done.
    rewrite IH; [lia|].
    assert (n / 10 < n)%nat by (apply Nat.div_lt; lia). lia.
Qed.

Lemma zeros_value (k : nat) (l : list ascii) :
  digits_value (list_ascii_of_string (PyStr.zeros k) ++ l) = digits_value l.
Proof. induction k as [|k IH]; [done|]. exact IH. Qed.

(** The number printed by [%0wd] can be read back. *)
Lemma zero_pad_value (w n : nat) :
  digits_value (list_ascii_of_string (PyStr.zero_pad w n)) = Z.of_nat n.
Proof.
  unfold PyStr.zero_pad, PyStr.str_of_nat. rewrite chars_app, zeros_value.
  apply digits_fuel_value. lia.
Qed.

Lemma append_inj_l (p a b : string) : p +:+ a = p +:+ b → a = b.
Proof.
  induction p as [|c p IH]; [done|]. rewrite !append_cons. intros [= H]. by apply IH.
Qed.

Lemma frame_name_inj (i j : nat) : frame_name i = frame_name j → i = j.
Proof.
  unfold frame_name. intros H%append_inj_l%append_inj_r.
  apply Nat2Z.inj. by rewrite <- (zero_pad_value 3 i), <- (zero_pad_value 3 j), H.
Qed.

Lemma endswith_app (a p : string) : PyStr.endswith (a +:+ p) p = true.
Proof.
  induction a as [|c a IH].
  - change ("" +:+ p) with p. destruct p; simpl; [done|].
    by rewrite Ascii.eqb_refl, String.eqb_refl.
  - rewrite append_cons. simpl. rewrite IH. apply orb_true_r.
Qed.

Lemma frame_name_jpg (i : nat) : fnmatch (StarSuffix ".jpg") (frame_name i) = true.
Proof.
  unfold fnmatch, frame_name. apply andb_true_iff. split.
  - by rewrite append_cons.
  - rewrite <- append_assoc. apply endswith_app.
Qed.

(** ** What a round of the frame stage writes *)

(** After [ffmpeg] every key either holds what it held, and is none of the
    frame files, or is the file of a frame and holds that frame. *)
Lemma write_frames_lookup (frames : list content) (sDir : string) (i : nat)
    (fs fs' : store) (r : exn + unit) :
  sDir ≠ "" →
  write_frames sDir i frames fs = (fs', r) →
  r = inr tt
  ∧ ∀ k, (fs' !! k = fs !! k
          ∧ ∀ j, (i ≤ j < i + length frames)%nat → k ≠ OsPath.resolve sDir ++ [frame_name j])
         ∨ ∃ j c, (i ≤ j < i + length frames)%nat
                  ∧ k = OsPath.resolve sDir ++ [frame_name j]
                  ∧ frames !! (j - i)%nat = Some c
                  ∧ fs' !! k = Some (File c).
Proof.
  intros Hne. revert i fs. induction frames as [|f frames IH]; intros i fs.
  - intros [= <- <-]. split; [done|]. intros k. left. split; [done|]. simpl. lia.
  - cbn [write_frames]. unfold bind, write. lazy beta iota.
    rewrite frame_file_resolve by done. intros Hw.
    destruct (IH _ _ Hw) as [-> Hrest]. split; [done|]. intros k.
    destruct (Hrest k) as [[Hk Hnot]|(j & c & Hj & -> & Hc & Hk)].
    + destruct (decide (k = OsPath.resolve sDir ++ [frame_name i])) as [->|Hki].
      * right. exists i, f. rewrite Nat.sub_diag. simpl. split; [lia|].
        split; [done|]. split; [done|]. by rewrite Hk, lookup_insert_eq.
      * left. split; [by rewrite Hk, lookup_insert_ne|].
        intros j Hj. destruct (decide (j = i)) as [->|]; [done|].
        apply Hnot. simpl in Hj. lia.
    + right. exists j, c. simpl. split; [lia|]. split; [done|]. split; [|done].
      by replace (j - i)%nat with (S (j - S i)) by lia.
Qed.

(** The entries matching [*.jpg] in the frame directory after [ffmpeg]:
    those that were there, and the frames. *)
Lemma jpg_after_frames (frames : list content) (sDir : string)
    (fs fs' : store) (r : exn + unit) (name : string) :
  sDir ≠ "" →
  write_frames sDir 1 frames fs = (fs', r) →
  [name] ∈ glob_rel fs' (OsPath.resolve sDir) [StarSuffix ".jpg"]
  ↔ [name] ∈ glob_rel fs (OsPath.resolve sDir) [StarSuffix ".jpg"]
    ∨ ∃ j, (1 ≤ j ≤ length frames)%nat ∧ name = frame_name j.
Proof.
  intros Hne Hw. apply write_frames_lookup in Hw as [_ Hw]; [|done].
  rewrite !elem_of_glob_rel. split.
  - intros [Hsome Hmatch].
    destruct (Hw (OsPath.resolve sDir ++ [name])) as [[Hk _]|(j & c & Hj & Heq & _)].
    + left. by rewrite <- Hk.
    + right. exists j. split; [lia|]. by apply app_inj_tail in Heq as [_ ->].
  - intros [[Hsome Hmatch]|(j & Hj & ->)].
    + split; [|done].
      destruct (Hw (OsPath.resolve sDir ++ [name])) as [[Hk _]|(j & c & _ & _ & _ & Hk)].
      * by rewrite Hk.
      * by rewrite Hk.
    + split.
      * destruct (Hw (OsPath.resolve sDir ++ [frame_name j]))
          as [[_ Hnot]|(j' & c & _ & _ & _ & Hk)].
        -- by destruct (Hnot j); [lia|].
        -- by rewrite Hk.
      * apply Forall2_cons; split; [|constructor].
        split; [apply frame_name_is_name|apply frame_name_jpg].
Qed.

Lemma glob_rel_1 (fs : store) (dir : list string) (p : pattern) (r : list string) :
  r ∈ glob_rel fs dir [p] → ∃ name, r = [name].
Proof.
  intros [Hlen _]%glob_rel_names. destruct r as [|name [|]]; try done. by exists name.
Qed.

(** When every such entry of the directory bears the name of one of the
    frames, [ffmpeg] leaves as many entries as it extracts frames. *)
Lemma count_after_frames (frames : list content) (sDir : string)
    (fs fs' : store) (r : exn + unit) :
  sDir ≠ "" →
  write_frames sDir 1 frames fs = (fs', r) →
  (∀ name, [name] ∈ glob_rel fs (OsPath.resolve sDir) [StarSuffix ".jpg"] →
           ∃ j, (1 ≤ j ≤ length frames)%nat ∧ name = frame_name j) →
  count_frames fs' sDir = length frames.
Proof.
  intros Hne Hw Hold. rewrite !count_frames_resolve by done.
  transitivity (length ((fun j => [frame_name j]) <$> seq 1 (length frames)));
    [|by rewrite length_fmap, length_seq].
  apply Permutation_length, NoDup_Permutation.
  - apply glob_rel_NoDup.
  - apply NoDup_fmap_2; [|apply NoDup_seq].
    intros i j H. apply frame_name_inj.
    exact (f_equal (fun l => default "" (head l)) H).
  - intros r'. split.
    + intros Hin. destruct (glob_rel_1 _ _ _ _ Hin) as [name ->].
      apply (jpg_after_frames _ _ _ _ _ _ Hne Hw) in Hin as [Hin|Hin].
      * destruct (Hold _ Hin) as (j & Hj & ->).
        apply list_elem_of_fmap. exists j. split; [done|]. apply elem_of_seq. lia.
      * destruct Hin as (j & Hj & ->).
        apply list_elem_of_fmap. exists j. split; [done|]. apply elem_of_seq. lia.
    + intros (j & -> & Hj%elem_of_seq)%list_elem_of_fmap.
      apply (jpg_after_frames _ _ _ _ _ _ Hne Hw). right. exists j. split; [lia|done].
Qed.

(** Creating the frame directory adds no entry inside it. *)
Lemma makedirs_keeps_entries (sDir : string) (fs fs1 : store) (r : exn + unit) (name : string) :
  os_makedirs sDir fs = (fs1, r) →
  fs1 !! (OsPath.resolve sDir ++ [name]) = fs !! (OsPath.resolve sDir ++ [name]).
Proof.
  intros [Hsub Hnew]%os_makedirs_spec.
  destruct (fs !! (OsPath.resolve sDir ++ [name])) as [x|] eqn:Hk;
    [by apply (lookup_weaken _ _ _ _ Hk Hsub)|].
  destruct (Hnew _ Hk) as [?|(_ & _ & Hp)]; [done|].
  by apply prefix_snoc_not in Hp.
Qed.

Lemma makedirs_keeps_jpg (sDir : string) (fs fs1 : store) (r : exn + unit) (l : list string) :
  os_makedirs sDir fs = (fs1, r) →
  l ∈ glob_rel fs1 (OsPath.resolve sDir) [StarSuffix ".jpg"]
  ↔ l ∈ glob_rel fs (OsPath.resolve sDir) [StarSuffix ".jpg"].
Proof.
  intros Hmk. rewrite !elem_of_glob_rel.
  split; intros [Hsome Hmatch]; (split; [|done]);
    inversion Hmatch as [|? name ? r'' _ Hr'']; subst; inversion Hr''; subst;
    by rewrite (makedirs_keeps_entries _ _ _ _ _ Hmk) in *.
Qed.

Lemma video_dir_nonempty (sFrameDir v sDir : string) :
  video_dir sFrameDir v = inr sDir → sDir ≠ "".
Proof.
  unfold video_dir. destruct (_ <? _)%nat; [done|].
  destruct (PyStr.index_back _ 1); [|done].
  destruct (PyStr.index_back _ 3); [|done].
  destruct (PyStr.index_back _ 2); [|done].
  destruct (PyStr.split "." _); [done|]. intros [= <-].
  apply append_nonempty. by rewrite append_cons.
Qed.

Lemma frames_made_refl (base : list string) (fs : store) : frames_made base fs fs.
Proof. intros k. by left. Qed.

Lemma frames_made_trans (base : list string) (fs0 fs1 fs2 : store) :
  frames_made base fs0 fs1 → frames_made base fs1 fs2 → frames_made base fs0 fs2.
Proof.
  intros H1 H2 k.
  destruct (H2 k) as [Heq|[(Hnone & Hdir & Hk)|(x & y & z & i & c & -> & Hc)]].
  - rewrite Heq. destruct (H1 k) as [?|[?|(x & y & z & i & c & -> & Hc)]]; [by left|by right; left|].
    right. right. by exists x, y, z, i, c.
  - destruct (H1 k) as [Heq|[(_ & Hdir' & _)|(x & y & z & i & c & -> & Hc)]].
    + right. left. by rewrite <- Heq.
    + congruence.
    + congruence.
  - right. right. by exists x, y, z, i, c.
Qed.

Section FrameEffect.

Variable mediainfo : option node → string.
Variable ffmpeg : option node → Q → Z → list content.
Variables (sVideoDir sFrameDir : string) (nFramesNorm : Z).

Let base := OsPath.resolve (sFrameDir +:+ "/").

(** One round on a located video: what each key holds afterwards. *)
Lemma video2frames_body_effect (v : string) (pre : list string) (a b c : string)
    (fs fs2 : store) (r : exn + unit) :
  PyStr.split "/" v = pre ++ [a; b; c] → pre ≠ [] →
  OsPath.is_name a → OsPath.is_name b → OsPath.is_name c →
  PyStr.startswith c "." = false →
  video2frames_body mediainfo ffmpeg sFrameDir nFramesNorm v fs = (fs2, r) →
  ∃ stem, OsPath.is_name stem
    ∧ video_dir sFrameDir v
      = inr (sFrameDir +:+ "/" +:+ a +:+ "/" +:+ b +:+ "/" +:+ stem)
    ∧ ∀ k, fs2 !! k = fs !! k
           ∨ (fs !! k = None ∧ fs2 !! k = Some Dir
              ∧ k ≠ [] ∧ k `prefix_of` base ++ [a; b; stem])
           ∨ (∃ i c, k = base ++ [a; b; stem; frame_name i] ∧ fs2 !! k = Some (File c)).
Proof.
  intros Hsplit Hpre Ha Hb Hc Hdot.
  destruct (located_video_dir sFrameDir v pre a b c Hsplit Hpre Hc Hdot) as (stem & Hstem & Hdir).
  pose proof (video_dir_resolve sFrameDir a b stem Ha Hb Hstem) as Hres.
  fold base in Hres.
  set (sDir := sFrameDir +:+ "/" +:+ a +:+ "/" +:+ b +:+ "/" +:+ stem) in *.
  assert (sDir ≠ "") as HsDir.
  { intros H. rewrite H in Hres. by destruct base. }
  intros Hbody. exists stem. do 2 (split; [done|]). revert Hbody.
  unfold video2frames_body, bind, get. lazy beta iota. rewrite Hdir.
  unfold lift, raise, ret. lazy beta iota.
  destruct (os_makedirs sDir fs) as [fs1 rm] eqn:Hmk.
  apply os_makedirs_spec in Hmk as [Hsub Hnew]. rewrite Hres in Hnew.
  assert (∀ k, fs1 !! k = fs !! k
               ∨ (fs !! k = None ∧ fs1 !! k = Some Dir
                  ∧ k ≠ [] ∧ k `prefix_of` base ++ [a; b; stem])) as Hmade.
  { intros k. destruct (fs !! k) as [x|] eqn:Hk.
    - left. by apply (lookup_weaken _ _ _ _ Hk Hsub).
    - destruct (Hnew _ Hk) as [?|(? & ? & ?)]; [by left|by right]. }
  assert (∀ k, fs1 !! k = fs !! k
               ∨ (fs !! k = None ∧ fs1 !! k = Some Dir
                  ∧ k ≠ [] ∧ k `prefix_of` base ++ [a; b; stem])
               ∨ (∃ i c, k = base ++ [a; b; stem; frame_name i]
                         ∧ fs1 !! k = Some (File c))) as Hmade'.
  { intros k. destruct (Hmade k) as [?|?]; [by left|by right; left]. }
  destruct rm as [e|[]]; [by intros [= <- <-]|].
  destruct (int _) as [e|nMillis]; [by intros [= <- <-]|].
  destruct (nMillis =? 0)%Z; [by intros [= <- <-]|].
  destruct (write_frames sDir 1 _ fs1) as [fs3 rw] eqn:Hw.
  apply write_frames_lookup in Hw as [-> Hw]; [|done]. rewrite Hres in Hw.
  assert (∀ k, fs3 !! k = fs !! k
               ∨ (fs !! k = None ∧ fs3 !! k = Some Dir
                  ∧ k ≠ [] ∧ k `prefix_of` base ++ [a; b; stem])
               ∨ (∃ i c, k = base ++ [a; b; stem; frame_name i]
                         ∧ fs3 !! k = Some (File c))) as Hall.
  { intros k. destruct (Hw k) as [[Hk _]|(j & c' & _ & Heq & _ & Hk)].
    - rewrite Hk. apply Hmade'.
    - rewrite <- app_assoc in Heq. cbn [app] in Heq.
      right. right. by exists j, c'. }
  by destruct (decide _); intros [= <- <-].
Qed.

Lemma video2frames_body_made (v : string) (pre : list string) (a b c : string)
    (fs fs2 : store) (r : exn + unit) :
  PyStr.split "/" v = pre ++ [a; b; c] → pre ≠ [] →
  OsPath.is_name a → OsPath.is_name b → OsPath.is_name c →
  PyStr.startswith c "." = false →
  video2frames_body mediainfo ffmpeg sFrameDir nFramesNorm v fs = (fs2, r) →
  frames_made base fs fs2.
Proof.
  intros Hsplit Hpre Ha Hb Hc Hdot Hbody.
  destruct (video2frames_body_effect v pre a b c fs fs2 r Hsplit Hpre Ha Hb Hc Hdot Hbody)
    as (stem & _ & _ & Hall).
  intros k. destruct (Hall k) as [?|[(? & ? & _ & Hp)|(i & c' & -> & ?)]].
  - by left.
  - right. left. do 2 (split; [done|]).
    apply prefix_app_cases in Hp as [?|(r' & -> & Hr%prefix_length)]; [by left|].
    right. by exists r'.
  - right. right. by exists a, b, stem, i, c'.
Qed.

Lemma video2frames_made (nClasses : option Z) (fs fs' : store) (r : exn + unit) :
  video2frames mediainfo ffmpeg sVideoDir sFrameDir nFramesNorm nClasses fs = (fs', r) →
  frames_made base fs fs'.
Proof.
  unfold video2frames, bind, get. lazy beta iota.
  destruct (OsPath.exists_ fs sFrameDir); [intros [= <- <-]; apply frames_made_refl|].
  destruct (located_videos fs sVideoDir nClasses) as [e|dfVideos] eqn:Hloc;
    [intros [= <- <-]; apply frames_made_refl|].
  unfold lift, ret. lazy beta iota.
  apply (for_each_inv (frames_made base fs)); [|apply frames_made_refl].
  intros v s s' r' Hv Hs Hbody.
  destruct (located_names sVideoDir fs nClasses _ v Hloc Hv)
    as (pre & a & b & c & Hsplit & Hpre & Ha & Hb & Hc & Hdot).
  eapply frames_made_trans; [exact Hs|].
  by eapply video2frames_body_made.
Qed.

End FrameEffect.

(** X7.  The frame stage only adds: whatever [video2frames] changes is a
    new directory on the way to the frame directory or at most three
    levels below it, or a file [frame-NNN.jpg] four levels below it;
    nothing else is created, changed or removed, however the run ends. *)
Theorem frame_stage_writes
    (mediainfo : option node → string) (ffmpeg : option node → Q → Z → list content)
    (sVideoDir sFrameDir : string) (nFramesNorm : Z) (nClasses : option Z)
    (fs fs' : store) (r : exn + unit) :
  video2frames mediainfo ffmpeg sVideoDir sFrameDir nFramesNorm nClasses fs = (fs', r) →
  ∀ k, fs' !! k ≠ fs !! k →
    (fs !! k = None ∧ fs' !! k = Some Dir
     ∧ (k `prefix_of` OsPath.resolve (sFrameDir +:+ "/")
        ∨ ∃ r, k = OsPath.resolve (sFrameDir +:+ "/") ++ r ∧ (length r ≤ 3)%nat))
    ∨ ∃ x y z i c, k = OsPath.resolve (sFrameDir +:+ "/") ++ [x; y; z; frame_name i]
                   ∧ fs' !! k = Some (File c).
Proof.
  intros Hrun k Hk.
  destruct (video2frames_made _ _ _ _ _ _ _ _ _ Hrun k) as [?|[?|?]]; [done|by left|by right].
Qed.

Lemma frame_stage_writes_witness :
  (Sample.fs_videos !! ["f"; "train"; "c1"; "a"; "frame-001.jpg"] = None
   ∧ Sample.fs_frames !! ["f"; "train"; "c1"; "a"; "frame-001.jpg"] = Some Dir
   ∧ (["f"; "train"; "c1"; "a"; "frame-001.jpg"] `prefix_of` OsPath.resolve ("f" +:+ "/")
      ∨ ∃ r, ["f"; "train"; "c1"; "a"; "frame-001.jpg"] = OsPath.resolve ("f" +:+ "/") ++ r
             ∧ (length r ≤ 3)%nat))
  ∨ ∃ x y z i c,
      ["f"; "train"; "c1"; "a"; "frame-001.jpg"]
      = OsPath.resolve ("f" +:+ "/") ++ [x; y; z; frame_name i]
      ∧ Sample.fs_frames !! ["f"; "train"; "c1"; "a"; "frame-001.jpg"] = Some (File c).
Proof.
  apply (frame_stage_writes Sample.mediainfo Sample.ffmpeg "v" "f" 2 None
           Sample.fs_videos Sample.fs_frames (inr tt)).
  - exact sample_frames.
  - vm_compute. by intros [=].
Defined.

Lemma frame_name_not_avi (i : nat) : PyStr.endswith (frame_name i) ".avi" = false.
Proof.
  apply not_true_is_false. intros [a' Heq]%endswith_inv.
  apply (f_equal list_ascii_of_string) in Heq. revert Heq. unfold frame_name.
  change ".jpg" with (".jp" +:+ "g"). change ".avi" with (".av" +:+ "i").
  rewrite <- !append_assoc, !(chars_app _ "g"), !(chars_app _ "i").
  by intros [_ [=]]%app_inj_tail.
Qed.

(** Where a located video lies in the store. *)
Lemma located_resolve (fs : store) (sVideoDir : string) (nClasses : option Z)
    (dfVideos : list string) (v : string) :
  located_videos fs sVideoDir nClasses = inr dfVideos → v ∈ dfVideos →
  ∃ a b c, OsPath.resolve v = OsPath.resolve (OsPath.dirname (sVideoDir +:+ "/*")) ++ [a; b; c]
           ∧ is_Some (fs !! OsPath.resolve v)
           ∧ PyStr.endswith c ".avi" = true.
Proof.
  unfold located_videos, restrict_classes. intros Hl Hv.
  assert (v ∈ glob fs (OsPath.dirname (sVideoDir +:+ "/*")) [Star; Star; StarSuffix ".avi"])
    as (r & -> & Hr)%list_elem_of_fmap.
  { destruct nClasses as [n|]; [|by simplify_eq].
    destruct (map_exn label_of _) as [e|labels]; [done|]. simplify_eq.
    apply list_elem_of_fmap in Hv as ([s l] & -> & [_ Hin]%list_elem_of_filter).
    by eapply elem_of_zip_l. }
  destruct (glob_rel_3 _ _ _ _ _ _ Hr) as (a & b & c & -> & Ha & Hb & Hc & Hm).
  exists a, b, c.
  rewrite resolve_join_names; [|done|by repeat (apply Forall_cons; split; [done|])].
  split; [done|]. split; [by apply elem_of_glob_rel in Hr as [? _]|].
  unfold fnmatch in Hm. by apply andb_true_iff in Hm as [_ ?].
Qed.

(** X8.  The frame stage leaves every video as it is, wherever the two
    directories lie, and however the run ends. *)
Theorem videos_untouched
    (mediainfo : option node → string) (ffmpeg : option node → Q → Z → list content)
    (sVideoDir sFrameDir : string) (nFramesNorm : Z) (nClasses : option Z)
    (fs fs' : store) (r : exn + unit) (dfVideos : list string) :
  video2frames mediainfo ffmpeg sVideoDir sFrameDir nFramesNorm nClasses fs = (fs', r) →
  located_videos fs sVideoDir nClasses = inr dfVideos →
  ∀ v, v ∈ dfVideos →
    is_Some (fs !! OsPath.resolve v) ∧ fs' !! OsPath.resolve v = fs !! OsPath.resolve v.
Proof.
  intros Hrun Hloc v Hv.
  destruct (located_resolve _ _ _ _ _ Hloc Hv) as (a & b & c & Hres & Hsome & Havi).
  split; [done|].
  destruct (video2frames_made _ _ _ _ _ _ _ _ _ Hrun (OsPath.resolve v))
    as [?|[(Hnone & _)|(x & y & z & i & c' & Heq & _)]]; [done| |].
  - rewrite Hnone in Hsome. by destruct Hsome.
  - rewrite Hres in Heq.
    change [a; b; c] with ([a; b] ++ [c]) in Heq.
    change [x; y; z; frame_name i] with ([x; y; z] ++ [frame_name i]) in Heq.
    rewrite !app_assoc in Heq. apply app_inj_tail in Heq as [_ ->].
    by rewrite frame_name_not_avi in Havi.
Qed.

Lemma videos_untouched_witness :
  is_Some (Sample.fs_videos !! OsPath.resolve "v/train/c1/a.avi")
  ∧ Sample.fs_frames !! OsPath.resolve "v/train/c1/a.avi"
    = Sample.fs_videos !! OsPath.resolve "v/train/c1/a.avi".
Proof.
  apply (videos_untouched Sample.mediainfo Sample.ffmpeg "v" "f" 2 None
           Sample.fs_videos Sample.fs_frames (inr tt)
           ["v/train/c2/b.avi"; "v/train/c1/a.avi"]).
  - exact sample_frames.
  - by_computation.
  - by_computation.
Defined.



(** ** A video without a usable duration *)

Lemma int_exn (s : string) (e : exn) : int s = inl e → ∃ msg, e = ValueError msg.
Proof.
  unfold int. intros H. repeat case_match; simplify_eq; by eexists.
Qed.



(** ** A run of the frame stage that goes through *)

Lemma for_each_succeeds {A : Type} (I : store → Prop) (body : A → M unit) (l : list A) :
  (∀ x s, x ∈ l → I s → ∃ s', body x s = (s', inr tt) ∧ I s') →
  ∀ fs, I fs → ∃ fs', for_each l body fs = (fs', inr tt) ∧ I fs'.
Proof.
  induction l as [|x l IH]; intros Hbody fs HI.
  - by exists fs.
  - destruct (Hbody x fs) as (s' & Hx & HI'); [by left|done|].
    destruct (IH (fun y s Hy => Hbody y s (list_elem_of_further _ _ _ Hy)) s' HI')
      as (fs' & Hl & HI'').
    exists fs'. split; [|done]. cbn [for_each]. unfold bind. by rewrite Hx.
Qed.

Lemma mkdirs_ok (todo above : list string) (fs : store) :
  (∀ i c, (0 < i ≤ length todo)%nat → fs !! (above ++ take i todo) ≠ Some (File c)) →
  ∃ fs', mkdirs above todo fs = (fs', inr tt).
Proof.
  revert above fs. induction todo as [|c todo IH]; intros above fs H.
  - by exists fs.
  - cbn [mkdirs]. unfold bind, get, write. lazy beta iota.
    assert (∀ i c', (0 < i ≤ length todo)%nat →
              fs !! ((above ++ [c]) ++ take i todo) ≠ Some (File c')) as Hstep.
    { intros i c' Hi. rewrite <- app_assoc. apply (H (S i)). simpl. lia. }
    destruct (fs !! (above ++ [c])) as [[|c0]|] eqn:Hk.
    + by apply IH.
    + destruct (H 1%nat c0); [simpl; lia|done].
    + apply IH. intros i c' Hi. rewrite lookup_insert_ne; [by apply Hstep|].
      intros Heq. apply (f_equal length) in Heq.
      rewrite !length_app, length_take in Heq. simpl in Heq. lia.
Qed.

Lemma os_makedirs_ok (p : string) (fs : store) :
  (∀ k c, k `prefix_of` OsPath.resolve p → fs !! k ≠ Some (File c)) →
  ∃ fs', os_makedirs p fs = (fs', inr tt).
Proof.
  intros H. apply mkdirs_ok. intros i c _. apply H, prefix_take.
Qed.

Lemma mkdirs_post (todo above : list string) (fs fs' : store) :
  mkdirs above todo fs = (fs', inr tt) →
  ∀ i, (0 < i ≤ length todo)%nat → fs' !! (above ++ take i todo) = Some Dir.
Proof.
  revert above fs. induction todo as [|c todo IH]; intros above fs Hmk i Hi;
    [simpl in Hi; lia|].
  revert Hmk. cbn [mkdirs]. unfold bind, get, write. lazy beta iota.
  assert (∀ s, s !! (above ++ [c]) = Some Dir → mkdirs (above ++ [c]) todo s = (fs', inr tt) →
               fs' !! (above ++ take i (c :: todo)) = Some Dir) as Hstep.
  { intros s Hs Hrest. destruct i as [|i]; [lia|]. cbn [take].
    destruct i as [|i].
    - rewrite take_0. apply mkdirs_spec in Hrest as [Hsub _].
      by apply (lookup_weaken _ _ _ _ Hs Hsub).
    - rewrite (cons_middle c), app_assoc. apply (IH _ _ Hrest). simpl in Hi. lia. }
  destruct (fs !! (above ++ [c])) as [[|c0]|] eqn:Hk.
  - by apply Hstep.
  - done.
  - apply Hstep. by rewrite lookup_insert_eq.
Qed.

Lemma os_makedirs_post (p : string) (fs fs' : store) (k : list string) :
  os_makedirs p fs = (fs', inr tt) → k ≠ [] → k `prefix_of` OsPath.resolve p →
  fs' !! k = Some Dir.
Proof.
  intros Hmk Hne [r Hr].
  rewrite <- (take_app_length k r), <- Hr.
  apply (mkdirs_post _ [] _ _ Hmk). split.
  - destruct k; [done|simpl; lia].
  - rewrite Hr, length_app. lia.
Qed.

Section FrameSuccess.

Variable mediainfo : option node → string.
Variable ffmpeg : option node → Q → Z → list content.
Variables (sVideoDir sFrameDir : string) (nFramesNorm : Z) (nClasses : option Z).
Variables (fs : store) (dfVideos : list string).

(** What the transcoder delivers: a property all its frames have. *)
Variable is_image : content → Prop.

Let base := OsPath.resolve (sFrameDir +:+ "/").

Hypothesis Hwf : well_formed fs.
Hypothesis Hbase : base ≠ [].
Hypothesis Hfresh : fs !! base = None.
Hypothesis Hway : ∀ k c, k `prefix_of` base → fs !! k ≠ Some (File c).
Hypothesis Hloc : located_videos fs sVideoDir nClasses = inr dfVideos.
Hypothesis Hvid : ∀ v, v ∈ dfVideos →
  ∃ nMillis, int (mediainfo (fs !! OsPath.resolve v)) = inr nMillis ∧ nMillis ≠ 0%Z
    ∧ Z.of_nat (length (ffmpeg (fs !! OsPath.resolve v)
                          (inject_Z nFramesNorm / (inject_Z nMillis / 1000))%Q nFramesNorm))
      = nFramesNorm
    ∧ Forall is_image (ffmpeg (fs !! OsPath.resolve v)
                         (inject_Z nFramesNorm / (inject_Z nMillis / 1000))%Q nFramesNorm).

(** The invariant of the loop in a fresh run: only the stage's own writes
    separate the store from the initial one, and whatever lies four levels
    below the frame directory is one of the frames [1 .. nFramesNorm]. *)
Let frames_inv (s : store) : Prop :=
  frames_made base fs s
  ∧ ∀ x y z name, is_Some (s !! (base ++ [x; y; z; name])) →
      ∃ j c, (1 ≤ j ≤ Z.to_nat nFramesNorm)%nat ∧ name = frame_name j
             ∧ s !! (base ++ [x; y; z; name]) = Some (File c) ∧ is_image c.

Lemma fresh_below (r : list string) : fs !! (base ++ r) = None.
Proof.
  destruct (fs !! (base ++ r)) as [x|] eqn:Hk; [|done].
  destruct (Hwf (base ++ r) base) as [y Hy]; [by eexists|by apply prefix_app_r|done|].
  congruence.
Qed.

Lemma frames_inv_init : frames_inv fs.
Proof.
  split; [apply frames_made_refl|]. intros x y z name [? Hk].
  by rewrite fresh_below in Hk.
Qed.

Lemma frames_inv_not_file (s : store) (r3 k : list string) (c : content) :
  frames_inv s → length r3 = 3%nat → k `prefix_of` base ++ r3 → s !! k ≠ Some (File c).
Proof.
  intros [Hmade _] Hr3 Hk.
  destruct (Hmade k) as [->|[(_ & -> & _)|(x & y & z & i & c' & -> & _)]]; [|done|].
  - apply prefix_app_cases in Hk as [?|(r & -> & _)]; [by apply Hway|].
    by rewrite fresh_below.
  - apply prefix_length in Hk. rewrite !length_app in Hk. simpl in Hk. lia.
Qed.

Lemma frames_inv_video (s : store) (v : string) :
  frames_inv s → v ∈ dfVideos →
  is_Some (fs !! OsPath.resolve v) ∧ s !! OsPath.resolve v = fs !! OsPath.resolve v.
Proof.
  intros [Hmade _] Hv.
  destruct (located_resolve _ _ _ _ _ Hloc Hv) as (a & b & c & Hres & Hsome & Havi).
  split; [done|].
  destruct (Hmade (OsPath.resolve v))
    as [?|[(Hnone & _)|(x & y & z & i & c' & Heq & _)]]; [done| |].
  - rewrite Hnone in Hsome. by destruct Hsome.
  - rewrite Hres in Heq.
    change [a; b; c] with ([a; b] ++ [c]) in Heq.
    change [x; y; z; frame_name i] with ([x; y; z] ++ [frame_name i]) in Heq.
    rewrite !app_assoc in Heq. apply app_inj_tail in Heq as [_ ->].
    by rewrite frame_name_not_avi in Havi.
Qed.

Lemma video2frames_body_succeeds (v : string) (s : store) :
  v ∈ dfVideos → frames_inv s →
  ∃ s', video2frames_body mediainfo ffmpeg sFrameDir nFramesNorm v s = (s', inr tt)
        ∧ frames_inv s'.
Proof.
  intros Hv Hinv.
  destruct (located_names sVideoDir fs nClasses _ v Hloc Hv)
    as (pre & a & b & c & Hsplit & Hpre & Ha & Hb & Hc & Hdot).
  destruct (located_video_dir sFrameDir v pre a b c Hsplit Hpre Hc Hdot) as (stem & Hstem & Hdir).
  pose proof (video_dir_resolve sFrameDir a b stem Ha Hb Hstem) as Hres.
  fold base in Hres.
  set (sDir := sFrameDir +:+ "/" +:+ a +:+ "/" +:+ b +:+ "/" +:+ stem) in *.
  pose proof (video_dir_nonempty _ _ _ Hdir) as Hne.
  destruct (os_makedirs_ok sDir s) as [s1 Hmk].
  { intros k c0 Hk. rewrite Hres in Hk.
    exact (frames_inv_not_file s [a; b; stem] k c0 Hinv eq_refl Hk). }
  destruct (frames_inv_video s v Hinv Hv) as [[x Hx] Hsame].
  assert (s1 !! OsPath.resolve v = fs !! OsPath.resolve v) as Hv1.
  { pose proof Hmk as [Hsub _]%os_makedirs_spec.
    rewrite Hx in Hsame |- *. by apply (lookup_weaken _ _ _ _ Hsame Hsub). }
  destruct (Hvid v Hv) as (nMillis & Hint & Hms & Hlen & Himg).
  set (frames := ffmpeg (fs !! OsPath.resolve v)
                   (inject_Z nFramesNorm / (inject_Z nMillis / 1000))%Q nFramesNorm) in *.
  destruct (write_frames_ok frames sDir 1 s1) as [s2 Hw].
  assert (count_frames s2 sDir = length frames) as Hcount.
  { apply (count_after_frames _ _ _ _ _ Hne Hw). intros name Hin.
    apply (makedirs_keeps_jpg _ _ _ _ _ Hmk) in Hin.
    apply elem_of_glob_rel in Hin as [Hsome _].
    rewrite Hres, <- app_assoc in Hsome. destruct Hinv as [_ Hnames].
    destruct (Hnames _ _ _ _ Hsome) as (j & c0 & Hj & -> & _). exists j. split; [lia|done]. }
  assert (video2frames_body mediainfo ffmpeg sFrameDir nFramesNorm v s = (s2, inr tt))
    as Hbody.
  { unfold video2frames_body, bind, get. lazy beta iota. rewrite Hdir.
    unfold lift, raise, ret. lazy beta iota. rewrite Hmk, Hv1, Hint.
    destruct (Z.eqb_spec nMillis 0); [done|]. fold frames. rewrite Hw, Hcount.
    by destruct (decide _). }
  exists s2. split; [done|]. split.
  - eapply frames_made_trans; [apply Hinv|].
    by eapply (video2frames_body_made mediainfo ffmpeg sFrameDir nFramesNorm v pre a b c).
  - intros x' y' z' name Hsome.
    apply write_frames_lookup in Hw as [_ Hw]; [|done].
    destruct (Hw (base ++ [x'; y'; z'; name])) as [[Hk _]|(j & c' & Hj & Heq & Hc' & Hk)].
    + rewrite Hk in Hsome |- *. destruct Hinv as [_ Hnames].
      apply os_makedirs_spec in Hmk as [Hsub Hnew].
      destruct (s !! (base ++ [x'; y'; z'; name])) as [n0|] eqn:Hs.
      * destruct (Hnames x' y' z' name) as (j & c0 & Hj & -> & Hc0 & Hi); [by eexists|].
        exists j, c0. do 2 (split; [done|]). split; [|done].
        by apply (lookup_weaken _ _ _ _ Hc0 Hsub).
      * destruct (Hnew _ Hs) as [Hnone|(_ & _ & Hp)].
        -- rewrite Hnone in Hsome. by destruct Hsome.
        -- apply prefix_length in Hp. rewrite Hres, !length_app in Hp. simpl in Hp. lia.
    + rewrite Hk. rewrite Hres in Heq.
      change [x'; y'; z'; name] with ([x'; y'; z'] ++ [name]) in Heq.
      rewrite !app_assoc in Heq. apply app_inj_tail in Heq as [_ ->].
      exists j, c'. split; [lia|]. do 2 (split; [done|]).
      rewrite Forall_forall in Himg. apply Himg. by eapply list_elem_of_lookup_2.
Qed.

Lemma video2frames_succeeds :
  ∃ fs', video2frames mediainfo ffmpeg sVideoDir sFrameDir nFramesNorm nClasses fs
         = (fs', inr tt)
         ∧ frames_inv fs'.
Proof.
  destruct (for_each_succeeds frames_inv
              (video2frames_body mediainfo ffmpeg sFrameDir nFramesNorm) dfVideos)
    with (fs := fs) as (fs' & Hrun & Hinv').
  { intros v s Hv Hs. by apply video2frames_body_succeeds. }
  { apply frames_inv_init. }
  exists fs'. split; [|done].
  unfold video2frames, bind, get. lazy beta iota.
  assert (OsPath.exists_ fs sFrameDir = false) as ->.
  { unfold OsPath.exists_. destruct (decide (sFrameDir = "")) as [|Hne]; [done|].
    apply bool_decide_eq_false. rewrite <- (resolve_slash sFrameDir Hne).
    fold base. rewrite Hfresh. by intros [? ?]. }
  by rewrite Hloc.
Qed.

End FrameSuccess.

(** ** From the frame stage to the feature stage *)

Lemma video_dir_fresh_below (fs : store) (base r : list string) :
  well_formed fs → base ≠ [] → fs !! base = None → fs !! (base ++ r) = None.
Proof.
  intros Hwf Hbase Hfresh.
  destruct (fs !! (base ++ r)) as [x|] eqn:Hk; [|done].
  destruct (Hwf (base ++ r) base) as [y Hy]; [by eexists|by apply prefix_app_r|done|].
  congruence.
Qed.

Section Handover.

Variable mediainfo : option node → string.
Variable ffmpeg : option node → Q → Z → list content.
Variables (sVideoDir sFrameDir : string) (nFramesNorm : Z) (nClasses : option Z).

Let base := OsPath.resolve (sFrameDir +:+ "/").

(** After a normal return the frame directory of every video holds
    [nFramesNorm] frames. *)
Lemma processed_counts (fs fs' : store) (dfVideos : list string) (v : string) :
  video2frames mediainfo ffmpeg sVideoDir sFrameDir nFramesNorm nClasses fs = (fs', inr tt) →
  located_videos fs sVideoDir nClasses = inr dfVideos → v ∈ dfVideos →
  ∃ sDir, video_dir sFrameDir v = inr sDir
          ∧ Z.of_nat (count_frames fs' sDir) = nFramesNorm.
Proof.
  intros Hrun Hloc Hv.
  revert Hrun. unfold video2frames, bind, get. lazy beta iota.
  destruct (OsPath.exists_ fs sFrameDir); [done|]. rewrite Hloc.
  unfold lift, ret. lazy beta iota. intros Hloop.
  apply list_elem_of_split in Hv as (l1 & l2 & ->).
  apply for_each_ok in Hloop as (fs1 & fs2 & _ & Hbody & Hrest).
  destruct (located_names sVideoDir fs nClasses _ v Hloc)
    as (pre & a & b & c & Hsplit & Hpre & Ha & Hb & Hc & Hdot).
  { apply elem_of_app. right. by left. }
  destruct (video2frames_body_spec mediainfo ffmpeg sFrameDir nFramesNorm
              v pre a b c fs1 fs2 _ Hsplit Hpre Ha Hb Hc Hdot Hbody)
    as (stem & sDir & Hstem & HsDir & Hdir & Hres & _ & Hcount).
  exists sDir. split; [done|].
  pose proof (video_dir_nonempty _ _ _ Hdir) as Hne.
  apply (for_each_inv_ok
           (fun s => Z.of_nat (count_frames s sDir) = nFramesNorm)) in Hrest;
    [done| |by apply Hcount].
  intros w s s' Hw HI Hbodyw.
  destruct (located_names sVideoDir fs nClasses _ w Hloc)
    as (pre' & a' & b' & c' & Hsplit' & Hpre' & Ha' & Hb' & Hc' & Hdot').
  { apply elem_of_app. right. by right. }
  destruct (video2frames_body_spec mediainfo ffmpeg sFrameDir nFramesNorm
              w pre' a' b' c' s s' _ Hsplit' Hpre' Ha' Hb' Hc' Hdot' Hbodyw)
    as (stem' & sDir' & Hstem' & HsDir' & Hdir' & Hres' & Hframe & Hcount').
  pose proof (video_dir_nonempty _ _ _ Hdir') as Hne'.
  destruct (decide (OsPath.resolve sDir = OsPath.resolve sDir')) as [Heq|Hneq].
  + rewrite count_frames_resolve, Heq, <- count_frames_resolve by done. by apply Hcount'.
  + rewrite <- HI. f_equal. rewrite !count_frames_resolve by done.
    apply Permutation_length, glob_rel_perm. intros r' Hr'.
    inversion Hr' as [|? name ? r'' _ Hr'']; subst. inversion Hr''; subst.
    rewrite Hframe; [done| |].
    * rewrite Hres, length_app. simpl. lia.
    * by rewrite <- Hres'.
Qed.

(** In a fresh run, whatever lies three levels below the frame directory
    is the frame directory of a video. *)
Lemma frame_dirs_of_videos (fs fs' : store) (r : exn + unit) (dfVideos : list string)
    (r3 : list string) :
  well_formed fs → base ≠ [] → fs !! base = None →
  video2frames mediainfo ffmpeg sVideoDir sFrameDir nFramesNorm nClasses fs = (fs', r) →
  located_videos fs sVideoDir nClasses = inr dfVideos →
  length r3 = 3%nat → is_Some (fs' !! (base ++ r3)) →
  ∃ v sDir, v ∈ dfVideos ∧ video_dir sFrameDir v = inr sDir
            ∧ OsPath.resolve sDir = base ++ r3.
Proof.
  intros Hwf Hbase Hfresh Hrun Hloc Hr3. revert Hrun.
  unfold video2frames, bind, get. lazy beta iota.
  assert (∀ x, fs !! (base ++ r3) ≠ Some x) as Hnone.
  { intros x. by rewrite (video_dir_fresh_below fs base r3 Hwf Hbase Hfresh). }
  destruct (OsPath.exists_ fs sFrameDir);
    [by intros [= <- <-] [x Hx]; destruct (Hnone x)|].
  rewrite Hloc. unfold lift, ret. lazy beta iota. intros Hloop.
  revert Hloop.
  apply (for_each_inv
           (fun s => is_Some (s !! (base ++ r3)) →
                     ∃ v sDir, v ∈ dfVideos ∧ video_dir sFrameDir v = inr sDir
                               ∧ OsPath.resolve sDir = base ++ r3)).
  - intros v s s' r' Hv Hs Hbody Hsome.
    destruct (located_names sVideoDir fs nClasses _ v Hloc Hv)
      as (pre & a & b & c & Hsplit & Hpre & Ha & Hb & Hc & Hdot).
    destruct (video2frames_body_effect mediainfo ffmpeg sFrameDir nFramesNorm
                v pre a b c s s' r' Hsplit Hpre Ha Hb Hc Hdot Hbody)
      as (stem & Hstem & Hdir & Hall).
    destruct (Hall (base ++ r3)) as [Heq|[(_ & _ & _ & Hp)|(i & c' & Heq & _)]].
    + apply Hs. by rewrite <- Heq.
    + exists v, (sFrameDir +:+ "/" +:+ a +:+ "/" +:+ b +:+ "/" +:+ stem).
      split; [done|]. split; [done|].
      rewrite (video_dir_resolve sFrameDir a b stem Ha Hb Hstem). fold base.
      symmetry. apply prefix_length_eq; [done|]. rewrite !length_app, Hr3. simpl. lia.
    + apply app_inv_head in Heq. apply (f_equal length) in Heq. simpl in Heq. lia.
  - intros [x Hx]. by destruct (Hnone x).
Qed.

End Handover.

(** The assertion does not fail when every listed directory holds
    [nFramesNorm] frames at the start. *)
Lemma counted_dirs_pass
    (load_img : option node → nat * nat → option ndarray)
    (sFrameDir sFeatureDir : string) (oCNN : ConvNet) (nFramesNorm : Z)
    (nClasses : option Z) (fs fs' : store) (r : exn + unit) :
  ¬ OsPath.resolve sFrameDir `prefix_of` OsPath.resolve sFeatureDir →
  (∀ d, d ∈ glob_rel fs (OsPath.resolve sFrameDir) [Star; Star; Star] →
        Z.of_nat (length (glob_rel fs (OsPath.resolve sFrameDir ++ d) [StarSuffix ".jpg"]))
        = nFramesNorm) →
  frames2features load_img sFrameDir sFeatureDir oCNN nFramesNorm nClasses fs = (fs', r) →
  r ≠ inl AssertionError.
Proof.
  intros Hnest Hcount. unfold frames2features, bind, get. lazy beta iota.
  destruct (OsPath.exists_ fs sFeatureDir); [by intros [= _ <-]|].
  destruct (negb _); [by intros [= _ <-]|].
  destruct (listed_videos fs sFrameDir nClasses) as [e|dfVideos] eqn:Hl;
    unfold lift, raise, ret; lazy beta iota.
  { intros [= _ <-] [= ->]. revert Hl. unfold listed_videos, restrict_classes.
    destruct nClasses as [n|]; [|done].
    destruct (map_exn label_of _) as [e|labels] eqn:Hlab; [|done].
    intros [= ->].
    apply (map_exn_exn _ (fun e => e ≠ AssertionError)) in Hlab; [done|].
    intros x e. unfold label_of. destruct (PyStr.index_back _ 2); [done|]. by intros [= <-]. }
  intros Hloop Hr.
  apply (for_each_inv_exn
           (feature_made (OsPath.resolve sFeatureDir) nFramesNorm fs)
           (fun e => e ≠ AssertionError)) in Hloop as [_ HQ].
  - by eapply HQ.
  - intros d fs1 fs2 r' Hd Hinv Hbody.
    destruct (listed_names sFrameDir fs nClasses dfVideos d Hl Hd)
      as (a & b & c & -> & Hin & Ha & Hb & Hc).
    split.
    + eapply feature_made_trans; [exact Hinv|].
      exact (body_made load_img sFrameDir sFeatureDir oCNN nFramesNorm a b c fs1 fs2 r'
               Ha Hb Hc Hbody).
    + intros e -> ->.
      by eapply (body_asserts load_img sFrameDir sFeatureDir oCNN nFramesNorm fs Hnest
                   a b c fs1 fs2 _ Ha Hb Hc (Hcount _ Hin) Hinv Hbody).
  - apply feature_made_refl.
Qed.


(** A check of well-formedness that can be run on a given store. *)
Lemma well_formed_check (fs : store) :
  Forall (fun k => Forall (fun i => is_Some (fs !! take (S i) k)) (seq 0 (length k)))
         (elements (dom fs)) →
  well_formed fs.
Proof.
  rewrite Forall_forall. intros H k k' Hk [r ->] Hne.
  specialize (H (k' ++ r)). rewrite Forall_forall in H.
  destruct k' as [|x k'] using rev_ind; [done|]. clear IHk'.
  specialize (H ltac:(by apply elem_of_elements, elem_of_dom) (length k')).
  rewrite <- (take_app_length (k' ++ [x]) r) at 1.
  rewrite length_app. simpl. rewrite Nat.add_1_r. apply H.
  apply elem_of_seq. rewrite !length_app. simpl. lia.
Qed.

Lemma sample_well_formed : well_formed Sample.fs_videos.
Proof. apply well_formed_check. by_computation. Qed.




(** ** The feature files of a run *)

Lemma for_each_snoc {A : Type} (body : A → M unit) (l : list A) (x : A) (fs fs1 fs2 : store) :
  for_each l body fs = (fs1, inr tt) → body x fs1 = (fs2, inr tt) →
  for_each (l ++ [x]) body fs = (fs2, inr tt).
Proof.
  revert fs. induction l as [|y l IH]; intros fs; cbn [for_each app]; unfold bind.
  - intros [= <-] ->. done.
  - destruct (body y fs) as [s [e|[]]]; [done|]. apply IH.
Qed.

Section FeatureRun.

Variable load_img : option node → nat * nat → option ndarray.
Variables (sFrameDir sFeatureDir : string) (oCNN : ConvNet) (nFramesNorm : Z).
Variables (nClasses : option Z) (fs : store) (dfVideos : list string).

Let BF := OsPath.resolve sFeatureDir.
Let KF := OsPath.resolve sFrameDir.
Let body := frames2features_body load_img sFrameDir sFeatureDir oCNN nFramesNorm.

Hypothesis Hsub : ∀ r, fs !! (BF ++ r) = None.
Hypothesis Hlist : listed_videos fs sFrameDir nClasses = inr dfVideos.

Lemma listed_are_names (d : string) :
  d ∈ dfVideos →
  ∃ a b c, d = PyStr.join "/" [a; b; c]
           ∧ OsPath.is_name a ∧ OsPath.is_name b ∧ OsPath.is_name c.
Proof.
  intros Hd. destruct (listed_names sFrameDir fs nClasses dfVideos d Hlist Hd)
    as (a & b & c & ? & _ & ? & ? & ?). by exists a, b, c.
Qed.

(** No feature file of a video exists before the loop comes to it. *)
Lemma not_yet_there (l1 l2 : list string) (d : string) (fs1 : store) :
  dfVideos = l1 ++ d :: l2 →
  for_each l1 body fs = (fs1, inr tt) →
  OsPath.exists_ fs1 (OsPath.join sFeatureDir (d +:+ ".npy")) = false.
Proof.
  intros Hsplit Hloop.
  assert (∀ r3, length r3 = 3%nat → is_Some (fs1 !! (BF ++ r3)) →
                ∃ a b c, PyStr.join "/" [a; b; c] ∈ l1 ∧ r3 = [a; b; c +:+ ".npy"]) as Hinv.
  { revert Hloop.
    apply (for_each_inv_ok
             (fun s => ∀ r3, length r3 = 3%nat → is_Some (s !! (BF ++ r3)) →
                             ∃ a b c, PyStr.join "/" [a; b; c] ∈ l1
                                      ∧ r3 = [a; b; c +:+ ".npy"])).
    - intros d' s s' Hd' HI Hbody r3 Hr3 Hsome.
      destruct (listed_are_names d') as (a & b & c & -> & Ha & Hb & Hc).
      { rewrite Hsplit. apply elem_of_app. by left. }
      destruct (body_feature_keys load_img sFrameDir sFeatureDir oCNN nFramesNorm
                  a b c s s' _ r3 Ha Hb Hc Hbody Hr3 Hsome) as [Hold| ->].
      + destruct (HI r3 Hr3 Hold) as (a' & b' & c' & Hin & ->). by exists a', b', c'.
      + by exists a, b, c.
    - intros r3 Hr3 [x Hx]. by rewrite Hsub in Hx. }
  destruct (listed_are_names d) as (a & b & c & -> & Ha & Hb & Hc).
  { rewrite Hsplit. apply elem_of_app. right. by left. }
  destruct (OsPath.exists_ fs1 _) eqn:Hex; [|done]. exfalso.
  unfold OsPath.exists_ in Hex. destruct (decide _); [done|].
  apply bool_decide_eq_true_1 in Hex.
  rewrite (feature_path_resolve sFeatureDir a b c Ha Hb Hc) in Hex.
  destruct (Hinv [a; b; c +:+ ".npy"] eq_refl Hex) as (a' & b' & c' & Hin & Heq).
  injection Heq as -> -> Hc'. apply append_inj_r in Hc' as ->.
  pose proof (listed_NoDup _ _ _ _ Hlist) as Hnd. rewrite Hsplit in Hnd.
  apply NoDup_app in Hnd as (_ & Hnd & _). apply (Hnd _ Hin). by left.
Qed.

(** A round that is not skipped and returns has saved the features. *)
Lemma body_saves (a b c : string) (s s' : store) :
  OsPath.is_name a → OsPath.is_name b → OsPath.is_name c →
  OsPath.exists_ s (OsPath.join sFeatureDir (PyStr.join "/" [a; b; c] +:+ ".npy")) = false →
  body (PyStr.join "/" [a; b; c]) s = (s', inr tt) →
  ∃ arr F, s' !! (BF ++ [a; b; c +:+ ".npy"]) = Some (File (Npy arr))
           ∧ (0 < nFramesNorm)%Z ∧ shape arr = [Z.to_nat nFramesNorm; F].
Proof.
  intros Ha Hb Hc Hex. unfold body, frames2features_body, bind, get. lazy beta iota.
  rewrite Hex.
  destruct (os_makedirs _ s) as [s1 [e1|[]]]; [done|].
  destruct (decide _); [|done].
  destruct (map_exn _ _) as [e2|liFrames]; unfold lift, raise, ret; lazy beta iota; [done|].
  destruct (reshape_rows _ _) as [e3|arr] eqn:Hre; lazy beta iota; [done|].
  unfold write. rewrite (feature_path_resolve sFeatureDir a b c Ha Hb Hc). intros [= <-].
  apply reshape_rows_shape in Hre as [Hn Hshape].
  exists arr, (size (cnn_predict oCNN (preprocess_input oCNN (np_array liFrames)))
               / Z.to_nat nFramesNorm)%nat.
  by rewrite lookup_insert_eq.
Qed.

Lemma features_saved (fs' : store) (d : string) :
  for_each dfVideos body fs = (fs', inr tt) → d ∈ dfVideos →
  ∃ arr F,
    fs' !! OsPath.resolve (OsPath.join sFeatureDir (d +:+ ".npy")) = Some (File (Npy arr))
    ∧ (0 < nFramesNorm)%Z ∧ shape arr = [Z.to_nat nFramesNorm; F].
Proof.
  intros Hloop Hd.
  destruct (listed_are_names d Hd) as (a & b & c & -> & Ha & Hb & Hc).
  apply list_elem_of_split in Hd as (l1 & l2 & Hsplit).
  rewrite Hsplit in Hloop.
  apply for_each_ok in Hloop as (fs1 & fs2 & Hl1 & Hbody & Hrest).
  pose proof (not_yet_there l1 l2 _ fs1 Hsplit Hl1) as Hex.
  destruct (body_saves a b c fs1 fs2 Ha Hb Hc Hex Hbody) as (arr & F & Hk & Hn & Hshape).
  exists arr, F. split; [|done].
  rewrite (feature_path_resolve sFeatureDir a b c Ha Hb Hc).
  assert (feature_made BF nFramesNorm fs2 fs') as [Hincl _].
  { revert Hrest. apply for_each_inv; [|apply feature_made_refl].
    intros d' s s' r' Hd' Hs Hb'.
    destruct (listed_are_names d') as (a' & b' & c' & -> & Ha' & Hb'' & Hc').
    { rewrite Hsplit. apply elem_of_app. right. by right. }
    eapply feature_made_trans; [exact Hs|].
    exact (body_made load_img sFrameDir sFeatureDir oCNN nFramesNorm a' b' c' s s' r'
             Ha' Hb'' Hc' Hb'). }
  by apply (lookup_weaken _ _ _ _ Hk Hincl).
Qed.

End FeatureRun.

(** X13.  A run of the feature stage that starts without anything at or
    below the feature directory and returns normally has saved, for every
    frame directory [a/b/c] it went through, an array with [nFramesNorm]
    rows at [sFeatureDir/a/b/c.npy]. *)
Theorem features_complete
    (load_img : option node → nat * nat → option ndarray)
    (sFrameDir sFeatureDir : string) (oCNN : ConvNet) (nFramesNorm : Z)
    (nClasses : option Z) (fs fs' : store) (dfVideos : list string) :
  (∀ r, fs !! (OsPath.resolve sFeatureDir ++ r) = None) →
  frames2features load_img sFrameDir sFeatureDir oCNN nFramesNorm nClasses fs
    = (fs', inr tt) →
  listed_videos fs sFrameDir nClasses = inr dfVideos →
  ∀ d, d ∈ dfVideos →
    ∃ arr F,
      fs' !! OsPath.resolve (OsPath.join sFeatureDir (d +:+ ".npy")) = Some (File (Npy arr))
      ∧ shape arr = [Z.to_nat nFramesNorm; F] ∧ (0 < nFramesNorm)%Z.
Proof.
  intros Hsub Hrun Hlist d Hd. revert Hrun.
  unfold frames2features, bind, get. lazy beta iota.
  destruct (OsPath.exists_ fs sFeatureDir); [done|].
  destruct (negb _); [done|]. rewrite Hlist. unfold lift, ret. lazy beta iota.
  intros Hloop.
  destruct (features_saved load_img sFrameDir sFeatureDir oCNN nFramesNorm nClasses
              fs dfVideos Hsub Hlist fs' d Hloop Hd) as (arr & F & Hk & Hn & Hshape).
  by exists arr, F.
Qed.

Lemma sample_frames_well_formed : well_formed Sample.fs_frames.
Proof. apply well_formed_check. by_computation. Qed.

Lemma features_complete_witness :
  ∃ arr F,
    Sample.fs_features !! OsPath.resolve (OsPath.join "feat" ("train/c1/a" +:+ ".npy"))
    = Some (File (Npy arr))
    ∧ shape arr = [Z.to_nat 2; F] ∧ (0 < 2)%Z.
Proof.
  apply (features_complete Sample.load_img "f" "feat" Sample.cnn 2 None
           Sample.fs_frames Sample.fs_features ["train/c2/b"; "train/c1/a"]).
  - intros r. apply video_dir_fresh_below;
      [apply sample_frames_well_formed|done|vm_compute; reflexivity].
  - exact sample_features.
  - by_computation.
  - by_computation.
Defined.

(** ** Features only for complete frame directories *)

Section Counted.

Variable load_img : option node → nat * nat → option ndarray.
Variables (sFrameDir sFeatureDir : string) (oCNN : ConvNet) (nFramesNorm : Z).
Variable fs0 : store.

Let BF := OsPath.resolve sFeatureDir.
Let KF := OsPath.resolve sFrameDir.

Hypothesis not_inside : ¬ KF `prefix_of` BF.

(** A round that creates the feature file has counted [nFramesNorm]
    frames, and these were there when the stage began. *)
Lemma body_writes_counted (a b c : string) (fs fs' : store) (r : exn + unit) :
  OsPath.is_name a → OsPath.is_name b → OsPath.is_name c →
  feature_made BF nFramesNorm fs0 fs →
  frames2features_body load_img sFrameDir sFeatureDir oCNN nFramesNorm
    (PyStr.join "/" [a; b; c]) fs = (fs', r) →
  fs !! (BF ++ [a; b; c +:+ ".npy"]) = None →
  is_Some (fs' !! (BF ++ [a; b; c +:+ ".npy"])) →
  Z.of_nat (length (glob_rel fs0 (KF ++ [a; b; c]) [StarSuffix ".jpg"])) = nFramesNorm.
Proof.
  intros Ha Hb Hc Hmade Hbody Hnone Hsome. revert Hbody.
  unfold frames2features_body, bind, get. lazy beta iota.
  pose proof (feature_path_resolve sFeatureDir a b c Ha Hb Hc) as Hkey.
  pose proof (feature_dir_resolve sFeatureDir a b c Ha Hb Hc) as Hdir.
  assert (∀ s, s = fs → is_Some (s !! (BF ++ [a; b; c +:+ ".npy"])) → False) as Hsame.
  { intros s -> [x Hx]. congruence. }
  destruct (OsPath.exists_ fs _); [intros [= <- _]; by destruct (Hsame fs)|].
  destruct (os_makedirs _ fs) as [fs1 rm] eqn:Hmk.
  assert (fs1 !! (BF ++ [a; b; c +:+ ".npy"]) = None) as Hk1.
  { pose proof Hmk as [_ Hnew]%os_makedirs_spec.
    destruct (Hnew _ Hnone) as [?|[_ [_ Hpre%prefix_length]]]; [done|].
    rewrite Hdir in Hpre. unfold BF in Hpre. rewrite !length_app in Hpre. simpl in Hpre. lia. }
  assert (is_Some (fs1 !! (BF ++ [a; b; c +:+ ".npy"])) → False) as Hsame1.
  { intros [x Hx]. congruence. }
  destruct rm as [e1|[]]; [intros [= <- _]; by destruct Hsame1|].
  destruct (decide _) as [Hlen|_]; [|intros [= <- _]; by destruct Hsame1].
  intros _. rewrite <- Hlen. f_equal.
  unfold frame_files, glob. rewrite sorted_length, length_fmap.
  rewrite (frame_dir_resolve sFrameDir a b c Ha Hb Hc).
  symmetry.
  apply Permutation_length, (frames_kept BF _ nFramesNorm); [|done..].
  eapply feature_made_trans; [exact Hmade|]. by eapply feature_made_makedirs.
Qed.

End Counted.



(** ** A run of the feature stage that goes through *)

Section FeatureSuccess.

Variable load_img : option node → nat * nat → option ndarray.
Variables (sFrameDir sFeatureDir : string) (oCNN : ConvNet) (nFramesNorm : Z).
Variables (nClasses : option Z) (fs : store) (dfVideos : list string).

Let BF := OsPath.resolve sFeatureDir.
Let KF := OsPath.resolve sFrameDir.
Let body := frames2features_body load_img sFrameDir sFeatureDir oCNN nFramesNorm.

Hypothesis Hsub : ∀ r, fs !! (BF ++ r) = None.
Hypothesis Hway : ∀ k c, k `prefix_of` BF → fs !! k ≠ Some (File c).
Hypothesis not_inside : ¬ KF `prefix_of` BF.
Hypothesis Hlist : listed_videos fs sFrameDir nClasses = inr dfVideos.
Hypothesis Hcount : ∀ r3, PyStr.join "/" r3 ∈ dfVideos →
  r3 ∈ glob_rel fs KF [Star; Star; Star] →
  Z.of_nat (length (glob_rel fs (KF ++ r3) [StarSuffix ".jpg"])) = nFramesNorm.
Hypothesis Hload : ∀ r3 name, PyStr.join "/" r3 ∈ dfVideos →
  r3 ∈ glob_rel fs KF [Star; Star; Star] →
  [name] ∈ glob_rel fs (KF ++ r3) [StarSuffix ".jpg"] →
  is_Some (load_img (fs !! (KF ++ r3 ++ [name])) (tuHeightWidth oCNN)).
Hypothesis Hreshape : ∀ liFrames, Z.of_nat (length liFrames) = nFramesNorm →
  ∃ arr, reshape_rows (cnn_predict oCNN (preprocess_input oCNN (np_array liFrames)))
           nFramesNorm = inr arr.

Lemma made_not_file (s : store) (x y : string) (k : list string) (c : content) :
  feature_made BF nFramesNorm fs s → k `prefix_of` BF ++ [x; y] → s !! k ≠ Some (File c).
Proof.
  intros [Hincl Hnew] Hk Hs.
  destruct (fs !! k) as [z|] eqn:Hz.
  - pose proof (lookup_weaken _ _ _ _ Hz Hincl) as Hz'.
    assert (z = File c) as -> by congruence.
    apply prefix_app_cases in Hk as [?|(r & -> & _)]; [by eapply Hway|].
    by rewrite Hsub in Hz.
  - specialize (Hnew k Hz). rewrite Hs in Hnew. destruct c as [|arr]; [done|].
    destruct Hnew as [(x' & y' & c' & ->) _].
    apply prefix_length in Hk. rewrite !length_app in Hk. simpl in Hk. lia.
Qed.

Lemma body_succeeds (a b c : string) (s : store) :
  PyStr.join "/" [a; b; c] ∈ dfVideos →
  [a; b; c] ∈ glob_rel fs KF [Star; Star; Star] →
  feature_made BF nFramesNorm fs s →
  OsPath.exists_ s (OsPath.join sFeatureDir (PyStr.join "/" [a; b; c] +:+ ".npy")) = false →
  ∃ s', body (PyStr.join "/" [a; b; c]) s = (s', inr tt).
Proof.
  intros Hd Hin Hmade Hex.
  destruct (glob_rel_3 _ _ _ _ _ _ Hin) as (a' & b' & c' & [= <- <- <-] & Ha & Hb & Hc & _).
  pose proof (feature_dir_resolve sFeatureDir a b c Ha Hb Hc) as Hdir.
  pose proof (frame_dir_resolve sFrameDir a b c Ha Hb Hc) as Hfdir.
  unfold body, frames2features_body, bind, get. lazy beta iota. rewrite Hex.
  destruct (os_makedirs_ok
              (OsPath.dirname (OsPath.join sFeatureDir (PyStr.join "/" [a; b; c] +:+ ".npy"))) s)
    as [s1 Hmk].
  { intros k c0 Hk. rewrite Hdir in Hk. by eapply made_not_file. }
  rewrite Hmk.
  assert (feature_made BF nFramesNorm fs s1) as Hmade1.
  { eapply feature_made_trans; [exact Hmade|]. by eapply feature_made_makedirs. }
  pose proof (frames_kept BF KF nFramesNorm fs s1 [a; b; c] Hmade1 not_inside eq_refl) as Hperm.
  destruct (decide _) as [_|Hlen].
  2:{ destruct Hlen. rewrite <- (Hcount [a; b; c] Hd Hin). f_equal.
      unfold frame_files, glob. rewrite sorted_length, length_fmap, Hfdir.
      by apply Permutation_length. }
  destruct (map_exn_total
              (fun sFrame =>
                 match load_img (s1 !! OsPath.resolve sFrame) (tuHeightWidth oCNN) with
                 | Some arFrame => inr arFrame
                 | None => inl (OSError "cannot identify image file")
                 end)
              (frame_files s1 sFrameDir (PyStr.join "/" [a; b; c]))) as [liFrames Hframes].
  { apply Forall_forall. intros sFrame HsFrame.
    unfold frame_files in HsFrame. rewrite sorted_perm in HsFrame.
    apply list_elem_of_fmap in HsFrame as (r & -> & Hr). rewrite Hfdir in Hr.
    fold KF in Hr.
    destruct (glob_rel_1 _ _ _ _ Hr) as [name ->].
    pose proof (glob_rel_names _ _ _ _ Hr) as [_ Hname].
    rewrite resolve_join_names, Hfdir by done. fold KF.
    rewrite Hperm in Hr.
    pose proof Hr as [[x Hx] _]%elem_of_glob_rel.
    destruct Hmade1 as [Hincl _].
    rewrite (lookup_weaken _ _ _ _ Hx Hincl), <- Hx, <- app_assoc.
    destruct (Hload [a; b; c] name Hd Hin Hr) as [arr ->]. by eexists. }
  rewrite Hframes. unfold lift, raise, ret. lazy beta iota.
  destruct (Hreshape liFrames) as [arr ->].
  { apply map_exn_inr, Forall2_length in Hframes. rewrite <- Hframes.
    rewrite <- (Hcount [a; b; c] Hd Hin). f_equal.
    unfold frame_files, glob. rewrite sorted_length, length_fmap, Hfdir.
    by apply Permutation_length. }
  unfold write. by eexists.
Qed.

Lemma loop_made (l : list string) (s s' : store) (r : exn + unit) :
  (∀ d, d ∈ l → d ∈ dfVideos) →
  for_each l body s = (s', r) → feature_made BF nFramesNorm s s'.
Proof.
  intros Hl. apply for_each_inv; [|apply feature_made_refl].
  intros d s1 s2 r' Hd Hs Hb.
  destruct (listed_names sFrameDir fs nClasses dfVideos d Hlist (Hl d Hd))
    as (a & b & c & -> & _ & Ha & Hb' & Hc).
  eapply feature_made_trans; [exact Hs|].
  exact (body_made load_img sFrameDir sFeatureDir oCNN nFramesNorm a b c s1 s2 r'
           Ha Hb' Hc Hb).
Qed.

Lemma loop_succeeds (l2 l1 : list string) (s : store) :
  dfVideos = l1 ++ l2 → for_each l1 body fs = (s, inr tt) →
  ∃ fs', for_each l2 body s = (fs', inr tt).
Proof.
  revert l1 s. induction l2 as [|d l2 IH]; intros l1 s Hsplit Hl1.
  - by exists s.
  - pose proof (not_yet_there load_img sFrameDir sFeatureDir oCNN nFramesNorm nClasses
                  fs dfVideos Hsub Hlist l1 l2 d s Hsplit Hl1) as Hex.
    assert (d ∈ dfVideos) as Hd.
    { rewrite Hsplit. apply elem_of_app. right. by left. }
    destruct (listed_names sFrameDir fs nClasses dfVideos d Hlist Hd)
      as (a & b & c & -> & Hin & Ha & Hb & Hc).
    destruct (body_succeeds a b c s Hd Hin) as [s' Hbody]; [|done|].
    { apply (loop_made l1 fs s (inr tt)); [|done].
      intros d' Hd'. rewrite Hsplit. apply elem_of_app. by left. }
    destruct (IH (l1 ++ [PyStr.join "/" [a; b; c]]) s') as [fs' Hrest].
    { by rewrite <- app_assoc. }
    { by eapply for_each_snoc. }
    exists fs'. cbn [for_each]. unfold bind. fold body. by rewrite Hbody.
Qed.

Lemma frames2features_succeeds :
  OsPath.isdir fs sFrameDir = true →
  ∃ fs', frames2features load_img sFrameDir sFeatureDir oCNN nFramesNorm nClasses fs
         = (fs', inr tt)
         ∧ ∀ d, d ∈ dfVideos →
             ∃ arr F,
               fs' !! OsPath.resolve (OsPath.join sFeatureDir (d +:+ ".npy"))
               = Some (File (Npy arr))
               ∧ (0 < nFramesNorm)%Z ∧ shape arr = [Z.to_nat nFramesNorm; F].
Proof.
  intros Hisdir. destruct (loop_succeeds dfVideos [] fs eq_refl eq_refl) as [fs' Hloop].
  exists fs'. split.
  2:{ intros d Hd.
      exact (features_saved load_img sFrameDir sFeatureDir oCNN nFramesNorm nClasses
               fs dfVideos Hsub Hlist fs' d Hloop Hd). }
  unfold frames2features, bind, get. lazy beta iota.
  assert (OsPath.exists_ fs sFeatureDir = false) as ->.
  { unfold OsPath.exists_. destruct (decide (sFeatureDir = "")); [done|].
    apply bool_decide_eq_false. specialize (Hsub []). rewrite app_nil_r in Hsub.
    fold BF. rewrite Hsub. by intros [? ?]. }
  rewrite Hisdir, Hlist. exact Hloop.
Qed.

End FeatureSuccess.

(** The stacked frames themselves can be reshaped into one row each. *)
Lemma reshape_stack (l : list ndarray) (n : Z) :
  Z.of_nat (length l) = n → (0 < n)%Z → ∃ arr, reshape_rows (np_array l) n = inr arr.
Proof.
  intros <- Hpos. unfold reshape_rows. rewrite Nat2Z.id.
  unfold size, np_array. cbn [shape foldr].
  rewrite Nat.mul_comm, Nat.Div0.mod_mul.
  destruct (Z.ltb_spec 0 (Z.of_nat (length l))); [|lia]. by eexists.
Qed.



(** ** Both extraction stages in a row *)

Lemma listed_total (fs : store) (sFrameDir : string) (nClasses : option Z) :
  ∃ dfVideos, listed_videos fs sFrameDir nClasses = inr dfVideos.
Proof.
  destruct nClasses as [n|]; [|by eexists]. unfold listed_videos.
  destruct (restrict_classes_spec n _ (listed_second_to_last fs (OsPath.resolve sFrameDir)
                                         Star Star Star))
    as (labels & L & sel & _ & _ & -> & _).
  by eexists.
Qed.

Lemma frames_made_keeps_dir (base k : list string) (s s' : store) :
  frames_made base s s' → (length k ≤ length base + 3)%nat →
  s !! k = Some Dir → s' !! k = Some Dir.
Proof.
  intros Hmade Hlen Hk.
  destruct (Hmade k) as [->|[(Hnone & _)|(x & y & z & i & c & -> & Hc)]]; [done|congruence|].
  rewrite length_app in Hlen. simpl in Hlen. lia.
Qed.

Lemma nonempty_elem {A : Type} (l : list A) : l ≠ [] → ∃ x, x ∈ l.
Proof. destruct l as [|x l]; [done|]. exists x. by left. Qed.

Section Extraction.

Variable mediainfo : option node → string.
Variable ffmpeg : option node → Q → Z → list content.
Variable load_img : option node → nat * nat → option ndarray.
Variables (sVideoDir sFrameDir sFeatureDir : string) (oCNN : ConvNet) (nFramesNorm : Z).
Variables (nClasses nClasses' : option Z) (fs : store) (dfVideos : list string).
Variable is_image : content → Prop.

Let KF := OsPath.resolve sFrameDir.
Let BF := OsPath.resolve sFeatureDir.

Hypothesis Hwf : well_formed fs.
Hypothesis HKF : KF ≠ [].
Hypothesis HBF : BF ≠ [].
Hypothesis Hframe_fresh : fs !! KF = None.
Hypothesis Hfeature_fresh : fs !! BF = None.
Hypothesis Hway : ∀ k c, k `prefix_of` KF ∨ k `prefix_of` BF → fs !! k ≠ Some (File c).
Hypothesis Hapart : ¬ KF `prefix_of` BF ∧ ¬ BF `prefix_of` KF.
Hypothesis Hloc : located_videos fs sVideoDir nClasses = inr dfVideos.
Hypothesis Hsome_video : dfVideos ≠ [].
Hypothesis Hvid : ∀ v, v ∈ dfVideos →
  ∃ nMillis, int (mediainfo (fs !! OsPath.resolve v)) = inr nMillis ∧ nMillis ≠ 0%Z
    ∧ Z.of_nat (length (ffmpeg (fs !! OsPath.resolve v)
                          (inject_Z nFramesNorm / (inject_Z nMillis / 1000))%Q nFramesNorm))
      = nFramesNorm
    ∧ Forall is_image (ffmpeg (fs !! OsPath.resolve v)
                         (inject_Z nFramesNorm / (inject_Z nMillis / 1000))%Q nFramesNorm).
Hypothesis Hload : ∀ c, is_image c →
  is_Some (load_img (Some (File c)) (tuHeightWidth oCNN)).
Hypothesis Hreshape : ∀ liFrames, Z.of_nat (length liFrames) = nFramesNorm →
  ∃ arr, reshape_rows (cnn_predict oCNN (preprocess_input oCNN (np_array liFrames)))
           nFramesNorm = inr arr.

Lemma frame_dir_given : sFrameDir ≠ "".
Proof. intros H. apply HKF. unfold KF. by rewrite H. Qed.

Lemma base_is_frame_dir : OsPath.resolve (sFrameDir +:+ "/") = KF.
Proof. apply resolve_slash, frame_dir_given. Qed.

Lemma apart_keys (r r' : list string) : BF ++ r ≠ KF ++ r'.
Proof.
  intros Heq. destruct Hapart as [H1 H2].
  destruct (prefix_weak_total BF KF (BF ++ r)) as [?|?];
    [by apply prefix_app_r|rewrite Heq; by apply prefix_app_r|done|done].
Qed.

(** The frame stage leaves the way to the feature directory as it was. *)
Lemma feature_side_kept (fs1 : store) (k : list string) :
  frames_made KF fs fs1 →
  (k `prefix_of` BF ∨ ∃ r, k = BF ++ r) →
  fs1 !! k = fs !! k ∨ fs1 !! k = Some Dir.
Proof.
  intros Hmade Hk.
  destruct (Hmade k) as [?|[(_ & ? & _)|(x & y & z & i & c & -> & _)]];
    [by left|by right|].
  exfalso. destruct Hapart as [H1 H2]. destruct Hk as [Hk|[r Hr]].
  - apply H1. by eapply prefix_app_l.
  - by eapply apart_keys.
Qed.

(** A round that returns leaves the frame directory of its video, and
    what lies above it, as directories. *)
Lemma round_makes_dirs (v : string) (pre : list string) (a b c : string) (s s' : store) :
  PyStr.split "/" v = pre ++ [a; b; c] → pre ≠ [] →
  OsPath.is_name a → OsPath.is_name b → OsPath.is_name c →
  PyStr.startswith c "." = false →
  video2frames_body mediainfo ffmpeg sFrameDir nFramesNorm v s = (s', inr tt) →
  ∃ stem, OsPath.is_name stem
    ∧ video_dir sFrameDir v
      = inr (sFrameDir +:+ "/" +:+ a +:+ "/" +:+ b +:+ "/" +:+ stem)
    ∧ (∃ ws, PyStr.split "." c = stem :: ws)
    ∧ ∀ k, k ≠ [] → k `prefix_of` KF ++ [a; b; stem] → s' !! k = Some Dir.
Proof.
  intros Hsplit Hpre Ha Hb Hc Hdot Hbody.
  rewrite (video_dir_long _ _ _ _ _ _ Hsplit Hpre).
  destruct (split_cons "." c) as (stem & ws & Hstem). rewrite Hstem.
  assert (OsPath.is_name stem) as Hname by by eapply stem_is_name.
  exists stem. split; [done|]. split; [done|]. split; [by exists ws|].
  pose proof (video_dir_resolve sFrameDir a b stem Ha Hb Hname) as Hres.
  rewrite base_is_frame_dir in Hres.
  intros k Hne Hk. revert Hbody.
  unfold video2frames_body, bind, get. lazy beta iota.
  rewrite (video_dir_long _ _ _ _ _ _ Hsplit Hpre), Hstem.
  unfold lift, raise, ret. lazy beta iota.
  destruct (os_makedirs _ s) as [s1 [e|[]]] eqn:Hmk; [done|].
  apply (os_makedirs_post _ _ _ k) in Hmk; [|done|by rewrite Hres].
  destruct (int _) as [e|nMillis]; [done|].
  destruct (nMillis =? 0)%Z; [done|].
  destruct (write_frames _ 1 _ s1) as [s2 rw] eqn:Hw.
  destruct (write_frames_spec
              (ffmpeg (s1 !! OsPath.resolve v)
                 (inject_Z nFramesNorm / (inject_Z nMillis / 1000))%Q nFramesNorm)
              (sFrameDir +:+ "/" +:+ a +:+ "/" +:+ b +:+ "/" +:+ stem) 1 s1)
    as (s2' & Hw' & Hkeep).
  { apply append_nonempty. by rewrite append_cons. }
  rewrite Hw in Hw'. injection Hw' as <- ->.
  destruct (decide _); [|done]. intros [= <-].
  rewrite Hkeep; [done|]. intros j Heq. rewrite Hres in Heq. subst k.
  by apply prefix_snoc_not in Hk.
Qed.

(** After the frame stage the frame directory of every video is there. *)
Lemma video_dirs_made (fs1 : store) (v : string) :
  video2frames mediainfo ffmpeg sVideoDir sFrameDir nFramesNorm nClasses fs = (fs1, inr tt) →
  v ∈ dfVideos →
  ∃ a b c stem ws,
    OsPath.is_name a ∧ OsPath.is_name b ∧ OsPath.is_name stem
    ∧ fnmatch Star a = true ∧ fnmatch Star b = true
    ∧ PyStr.startswith c "." = false ∧ OsPath.is_name c ∧ PyStr.split "." c = stem :: ws
    ∧ video_dir sFrameDir v
      = inr (sFrameDir +:+ "/" +:+ a +:+ "/" +:+ b +:+ "/" +:+ stem)
    ∧ ∀ k, k ≠ [] → k `prefix_of` KF ++ [a; b; stem] → fs1 !! k = Some Dir.
Proof.
  unfold video2frames, bind, get. lazy beta iota.
  destruct (OsPath.exists_ fs sFrameDir); [done|]. rewrite Hloc.
  unfold lift, ret. lazy beta iota. intros Hloop Hv.
  pose proof Hv as (l1 & l2 & Hdf)%list_elem_of_split. rewrite Hdf in Hloop.
  apply for_each_ok in Hloop as (s0 & s & _ & Hbody & Hrest).
  assert (v ∈ glob fs (OsPath.dirname (sVideoDir +:+ "/*")) [Star; Star; StarSuffix ".avi"])
    as (r & Hvr & Hr)%list_elem_of_fmap.
  { revert Hloc. unfold located_videos, restrict_classes.
    destruct nClasses as [n|]; [|intros [= Heq]; by rewrite Heq].
    destruct (map_exn label_of _) as [e|labels]; [done|]. intros [= Heq].
    rewrite <- Heq in Hv.
    apply list_elem_of_fmap in Hv as ([s' l] & -> & [_ Hin]%list_elem_of_filter).
    by eapply elem_of_zip_l. }
  pose proof Hr as [_ Hmatch]%elem_of_glob_rel.
  destruct (glob_rel_3 _ _ _ _ _ _ Hr) as (a & b & c & -> & _).
  apply Forall2_cons in Hmatch as [[_ Hfa] Hmatch].
  apply Forall2_cons in Hmatch as [[_ Hfb] _].
  destruct (located_names sVideoDir fs nClasses _ v Hloc Hv)
    as (pre & a' & b' & c' & Hsplit & Hpre & Ha & Hb & Hc & Hdot).
  assert (a' = a ∧ b' = b ∧ c' = c) as (-> & -> & ->).
  { destruct (join_split (OsPath.dirname (sVideoDir +:+ "/*")) (PyStr.join "/" [a; b; c]))
      as (pre2 & Hsplit2 & _).
    { apply join_startswith. apply glob_rel_names in Hr as [_ ?]. done. }
    rewrite <- Hvr, Hsplit, split_join in Hsplit2; [| done |].
    - by apply app_inj_2 in Hsplit2 as [_ [= -> -> ->]].
    - apply glob_rel_names in Hr as [_ Hn].
      eapply Forall_impl; [exact Hn|]. apply is_name_no_slash. }
  destruct (round_makes_dirs v pre a b c s0 s Hsplit Hpre Ha Hb Hc Hdot Hbody)
    as (stem & Hstem & Hdir & [ws Hws] & Hdirs).
  exists a, b, c, stem, ws. do 9 (split; [done|]).
  intros k Hne Hk.
  assert (frames_made KF s fs1) as Hmade.
  { rewrite <- base_is_frame_dir. revert Hrest.
    apply for_each_inv; [|apply frames_made_refl].
    intros w s1 s2 r' Hw Hs1 Hbodyw.
    destruct (located_names sVideoDir fs nClasses _ w Hloc)
      as (pre' & a' & b' & c' & Hsplit' & Hpre' & Ha' & Hb' & Hc' & Hdot').
    { rewrite Hdf. apply elem_of_app. right. by right. }
    eapply frames_made_trans; [exact Hs1|].
    by eapply (video2frames_body_made mediainfo ffmpeg sFrameDir nFramesNorm w pre' a' b' c'). }
  apply (frames_made_keeps_dir KF k s fs1 Hmade); [|by apply Hdirs].
  apply prefix_length in Hk. rewrite length_app in Hk. simpl in Hk. lia.
Qed.

Lemma frame_dir_made (fs1 : store) :
  video2frames mediainfo ffmpeg sVideoDir sFrameDir nFramesNorm nClasses fs = (fs1, inr tt) →
  OsPath.isdir fs1 sFrameDir = true.
Proof.
  intros Hrun. destruct (nonempty_elem dfVideos Hsome_video) as [v Hv].
  destruct (video_dirs_made fs1 v Hrun Hv)
    as (a & b & c & stem & ws & _ & _ & _ & _ & _ & _ & _ & _ & _ & Hdirs).
  unfold OsPath.isdir. destruct (decide _) as [H|_]; [by destruct frame_dir_given|].
  fold KF. by rewrite (Hdirs KF HKF (prefix_app_r _ _ _ (reflexivity KF))).
Qed.

Lemma stem_not_hidden (c stem : string) (ws : list string) :
  OsPath.is_name c → PyStr.startswith c "." = false →
  PyStr.split "." c = stem :: ws → PyStr.startswith stem "." = false.
Proof.
  intros Hc Hdot Hsplit.
  destruct (split_head "." c stem ws Hsplit) as [Hmem Hcase].
  destruct stem as [|x stem]; [|simpl in *; by destruct (Ascii.eqb x ".")].
  destruct Hcase as [->|[rest ->]]; [by destruct Hc|done].
Qed.

Lemma extraction_runs :
  ∃ fs1 fs2 dfDirs,
    video2frames mediainfo ffmpeg sVideoDir sFrameDir nFramesNorm nClasses fs = (fs1, inr tt)
    ∧ listed_videos fs1 sFrameDir nClasses' = inr dfDirs
    ∧ frames2features load_img sFrameDir sFeatureDir oCNN nFramesNorm nClasses' fs1
      = (fs2, inr tt)
    ∧ ∀ d, d ∈ dfDirs →
        ∃ arr F,
          fs2 !! OsPath.resolve (OsPath.join sFeatureDir (d +:+ ".npy"))
          = Some (File (Npy arr))
          ∧ shape arr = [Z.to_nat nFramesNorm; F] ∧ (0 < nFramesNorm)%Z.
Proof.
  pose proof base_is_frame_dir as Hbase.
  destruct (video2frames_succeeds mediainfo ffmpeg sVideoDir sFrameDir nFramesNorm nClasses
              fs dfVideos is_image Hwf) as (fs1 & Hrun & Hmade & Hframes);
    rewrite ?Hbase; try done.
  { intros k c Hk. apply Hway. by left. }
  rewrite Hbase in Hmade, Hframes.
  destruct (listed_total fs1 sFrameDir nClasses') as [dfDirs Hlist].
  assert (∀ r, fs1 !! (BF ++ r) = None) as Hsub.
  { intros r. destruct (feature_side_kept fs1 (BF ++ r) Hmade) as [->|Hdir]; [by eauto| |].
    - by apply video_dir_fresh_below.
    - destruct (Hmade (BF ++ r)) as [Heq|[(_ & _ & [Hp|(r' & Hr' & _)])|(x & y & z & i & c & Hk & _)]].
      + rewrite Heq, (video_dir_fresh_below fs BF r Hwf HBF Hfeature_fresh) in Hdir. done.
      + destruct Hapart as [_ H2]. destruct H2. by eapply prefix_app_l.
      + by destruct (apart_keys r r').
      + by destruct (apart_keys r [x; y; z; frame_name i]). }
  destruct (frames2features_succeeds load_img sFrameDir sFeatureDir oCNN nFramesNorm nClasses'
              fs1 dfDirs Hsub) as (fs2 & Hfeat & Hall); try done.
  - intros k c Hk. destruct (feature_side_kept fs1 k Hmade) as [-> | ->]; [by left| |done].
    apply Hway. by right.
  - apply Hapart.
  - intros r3 _ Hr3.
    pose proof (glob_rel_names _ _ _ _ Hr3) as [Hlen _].
    apply elem_of_glob_rel in Hr3 as [Hsome _].
    destruct (frame_dirs_of_videos mediainfo ffmpeg sVideoDir sFrameDir nFramesNorm nClasses
                fs fs1 (inr tt) dfVideos r3) as (v & sDir & Hv & Hdir & HsDir);
      rewrite ?Hbase; try done.
    destruct (processed_counts mediainfo ffmpeg sVideoDir sFrameDir nFramesNorm nClasses
                fs fs1 dfVideos v Hrun Hloc Hv) as (sDir' & Hdir' & Hcount).
    assert (sDir' = sDir) as -> by congruence.
    rewrite count_frames_resolve in Hcount by by eapply video_dir_nonempty.
    by rewrite HsDir, Hbase in Hcount.
  - intros r3 name _ Hr3 Hname.
    destruct (glob_rel_3 _ _ _ _ _ _ Hr3) as (x & y & z & -> & _).
    apply elem_of_glob_rel in Hname as [Hsome _].
    rewrite <- app_assoc in Hsome. cbn [app] in Hsome |- *. fold KF.
    destruct (Hframes x y z name Hsome) as (j & c & _ & _ & -> & Himg).
    by apply Hload.
  - by apply frame_dir_made.
  - exists fs1, fs2, dfDirs. do 3 (split; [done|]). intros d Hd.
    destruct (Hall d Hd) as (arr & F & ? & ? & ?). by exists arr, F.
Qed.

Lemma video_dir_listed (fs1 : store) (v : string) :
  video2frames mediainfo ffmpeg sVideoDir sFrameDir nFramesNorm nClasses fs = (fs1, inr tt) →
  v ∈ dfVideos →
  ∃ a b stem,
    video_dir sFrameDir v = inr (sFrameDir +:+ "/" +:+ a +:+ "/" +:+ b +:+ "/" +:+ stem)
    ∧ [a; b; stem] ∈ glob_rel fs1 KF [Star; Star; Star].
Proof.
  intros Hrun Hv.
  destruct (video_dirs_made fs1 v Hrun Hv)
    as (a & b & c & stem & ws & Ha & Hb & Hstem & Hfa & Hfb & Hdot & Hc & Hws & Hdir & Hdirs).
  exists a, b, stem. split; [done|]. apply elem_of_glob_rel. split.
  - rewrite (Hdirs (KF ++ [a; b; stem])); [by eexists| |done].
    intros H. apply (f_equal length) in H. rewrite length_app in H. simpl in H. lia.
  - repeat (apply Forall2_cons; split; [done|]).
    apply Forall2_cons. split; [|constructor]. split; [done|].
    unfold fnmatch. by rewrite (stem_not_hidden c stem ws Hc Hdot Hws).
Qed.

End Extraction.



(** ** The frames of a fresh run, and the order in which they are loaded *)

(** The files matching [*.jpg] in a directory whose entries are frames
    [1 .. m]. *)
Lemma jpg_of_segment (fs : store) (K : list string) (m : nat) :
  (∀ name, is_Some (fs !! (K ++ [name])) ↔ ∃ j, (1 ≤ j ≤ m)%nat ∧ name = frame_name j) →
  glob_rel fs K [StarSuffix ".jpg"] ≡ₚ (fun j => [frame_name j]) <$> seq 1 m.
Proof.
  intros Hseg. apply NoDup_Permutation.
  - apply glob_rel_NoDup.
  - apply NoDup_fmap_2; [|apply NoDup_seq].
    intros i j H. apply frame_name_inj.
    exact (f_equal (fun l => default "" (head l)) H).
  - intros r. split.
    + intros Hin. destruct (glob_rel_1 _ _ _ _ Hin) as [name ->].
      apply elem_of_glob_rel in Hin as [Hsome _].
      apply Hseg in Hsome as (j & Hj & ->).
      apply list_elem_of_fmap. exists j. split; [done|]. apply elem_of_seq. lia.
    + intros (j & -> & Hj%elem_of_seq)%list_elem_of_fmap.
      apply elem_of_glob_rel. split.
      * apply Hseg. exists j. split; [lia|done].
      * apply Forall2_cons; split; [|constructor].
        split; [apply frame_name_is_name|apply frame_name_jpg].
Qed.

(** The sorted listing of a directory that holds frames [1 .. k]. *)
Lemma frame_files_of_segment (fs : store) (sFrameDir seVideo : string) (k : nat) :
  (k ≤ 999)%nat →
  glob_rel fs (OsPath.resolve (OsPath.dirname (OsPath.join (OsPath.join sFrameDir seVideo)
                                                  "*.jpg")))
           [StarSuffix ".jpg"]
    ≡ₚ (fun i => [frame_name i]) <$> seq 1 k →
  frame_files fs sFrameDir seVideo
  = (fun i => OsPath.join (OsPath.dirname (OsPath.join (OsPath.join sFrameDir seVideo) "*.jpg"))
                          (frame_name i)) <$> seq 1 k.
Proof.
  intros Hk Hperm. unfold frame_files, glob.
  set (sDir := OsPath.dirname (OsPath.join (OsPath.join sFrameDir seVideo) "*.jpg")) in *.
  apply sorted_of_perm.
  - destruct (join_prefix sDir) as [pfx Hpfx].
    assert ((fun i => OsPath.join sDir (frame_name i)) <$> seq 1 k
            = (fun x => pfx +:+ x) <$> (frame_name <$> seq 1 k)) as ->.
    { rewrite <- list_fmap_compose. apply list_fmap_ext. intros i x _. simpl.
      apply Hpfx, no_slash_startswith, is_name_no_slash, frame_name_is_name. }
    apply (Sorted_fmap _ str_le str_le); [|by apply frame_names_sorted].
    intros a b. apply str_le_append.
  - rewrite Hperm. by rewrite <- list_fmap_compose.
Qed.

Section FrameSegments.

Variable mediainfo : option node → string.
Variable ffmpeg : option node → Q → Z → list content.
Variables (sVideoDir sFrameDir : string) (nFramesNorm : Z) (nClasses : option Z).
Variables (fs : store) (dfVideos : list string).

Let base := OsPath.resolve (sFrameDir +:+ "/").

Hypothesis Hwf : well_formed fs.
Hypothesis Hbase : base ≠ [].
Hypothesis Hfresh : fs !! base = None.
Hypothesis Hloc : located_videos fs sVideoDir nClasses = inr dfVideos.

(** In every directory three levels below the frame directory the
    entries are the frames [1 .. m], for some [m]. *)
Let segments (s : store) : Prop :=
  ∀ r3, length r3 = 3%nat →
    ∃ m, ∀ name, is_Some (s !! (base ++ r3 ++ [name]))
                 ↔ ∃ j, (1 ≤ j ≤ m)%nat ∧ name = frame_name j.

Lemma segments_init : segments fs.
Proof.
  intros r3 _. exists 0%nat. intros name. split.
  - intros [x Hx]. by rewrite (video_dir_fresh_below fs base _ Hwf Hbase Hfresh) in Hx.
  - intros (j & Hj & _). lia.
Qed.

Lemma segments_round (v : string) (s s' : store) :
  v ∈ dfVideos → segments s →
  video2frames_body mediainfo ffmpeg sFrameDir nFramesNorm v s = (s', inr tt) →
  segments s'.
Proof.
  intros Hv Hseg Hbody.
  destruct (located_names sVideoDir fs nClasses _ v Hloc Hv)
    as (pre & a & b & c & Hsplit & Hpre & Ha & Hb & Hc & Hdot).
  destruct (located_video_dir sFrameDir v pre a b c Hsplit Hpre Hc Hdot) as (stem & Hstem & Hdir).
  pose proof (video_dir_resolve sFrameDir a b stem Ha Hb Hstem) as Hres.
  fold base in Hres.
  pose proof (video_dir_nonempty _ _ _ Hdir) as Hne.
  revert Hbody. unfold video2frames_body, bind, get. lazy beta iota. rewrite Hdir.
  unfold lift, raise, ret. lazy beta iota.
  destruct (os_makedirs _ s) as [s1 [e|[]]] eqn:Hmk; [done|].
  destruct (int _) as [e|nMillis]; [done|].
  destruct (nMillis =? 0)%Z; [done|].
  destruct (write_frames _ 1 _ s1) as [s2 rw] eqn:Hw.
  apply write_frames_lookup in Hw as [-> Hw]; [|done].
  destruct (decide _); [|done]. intros [= <-].
  set (frames := ffmpeg (s1 !! OsPath.resolve v)
                   (inject_Z nFramesNorm / (inject_Z nMillis / 1000))%Q nFramesNorm) in *.
  assert (∀ r3 name, length r3 = 3%nat →
            s1 !! (base ++ r3 ++ [name]) = s !! (base ++ r3 ++ [name])) as Hsame.
  { intros r3 name Hr3. apply os_makedirs_spec in Hmk as [Hsub Hnew].
    destruct (s !! (base ++ r3 ++ [name])) as [x|] eqn:Hk;
      [by apply (lookup_weaken _ _ _ _ Hk Hsub)|].
    destruct (Hnew _ Hk) as [?|(_ & _ & Hp%prefix_length)]; [done|].
    rewrite Hres, !length_app in Hp. simpl in Hp. lia. }
  intros r3 Hr3. destruct (Hseg r3 Hr3) as [m Hm].
  destruct (decide (r3 = [a; b; stem])) as [->|Hother].
  - exists (m `max` length frames)%nat. intros name.
    destruct (Hw (base ++ [a; b; stem] ++ [name])) as [[Hk Hnot]|(j & c' & Hj & Heq & _ & Hk)].
    + rewrite Hk, Hsame, Hm by done. split.
      * intros (j & Hj & ->). exists j. split; [lia|done].
      * intros (j & Hj & ->). exists j. split; [|done].
        destruct (decide (j ≤ m)%nat); [lia|]. destruct (Hnot j); [lia|].
        by rewrite Hres, <- app_assoc.
    + rewrite Hk. split; [|by eexists]. intros _.
      rewrite Hres, <- app_assoc in Heq. apply app_inv_head in Heq.
      apply app_inv_head in Heq. injection Heq as ->. exists j. split; [lia|done].
  - exists m. intros name. rewrite <- Hm, <- Hsame by done.
    destruct (Hw (base ++ r3 ++ [name])) as [[-> _]|(j & c' & _ & Heq & _)]; [done|].
    rewrite Hres, <- app_assoc in Heq. apply app_inv_head in Heq.
    destruct Hother. apply app_inj_tail in Heq. by destruct Heq.
Qed.

Lemma frame_dirs_segments (fs' : store) (v : string) :
  video2frames mediainfo ffmpeg sVideoDir sFrameDir nFramesNorm nClasses fs = (fs', inr tt) →
  v ∈ dfVideos →
  ∃ a b stem,
    OsPath.is_name a ∧ OsPath.is_name b ∧ OsPath.is_name stem
    ∧ video_dir sFrameDir v
      = inr (sFrameDir +:+ "/" +:+ a +:+ "/" +:+ b +:+ "/" +:+ stem)
    ∧ glob_rel fs' (base ++ [a; b; stem]) [StarSuffix ".jpg"]
      ≡ₚ (fun j => [frame_name j]) <$> seq 1 (Z.to_nat nFramesNorm).
Proof.
  intros Hrun Hv.
  destruct (processed_counts mediainfo ffmpeg sVideoDir sFrameDir nFramesNorm nClasses
              fs fs' dfVideos v Hrun Hloc Hv) as (sDir & Hdir & Hcount).
  destruct (located_names sVideoDir fs nClasses _ v Hloc Hv)
    as (pre & a & b & c & Hsplit & Hpre & Ha & Hb & Hc & Hdot).
  destruct (located_video_dir sFrameDir v pre a b c Hsplit Hpre Hc Hdot) as (stem & Hstem & Hdir').
  pose proof (video_dir_resolve sFrameDir a b stem Ha Hb Hstem) as Hres.
  fold base in Hres.
  exists a, b, stem. do 4 (split; [done|]).
  assert (segments fs') as Hseg.
  { revert Hrun. unfold video2frames, bind, get. lazy beta iota.
    destruct (OsPath.exists_ fs sFrameDir); [done|]. rewrite Hloc.
    unfold lift, ret. lazy beta iota.
    apply (for_each_inv_ok segments); [|apply segments_init].
    intros w s s' Hw Hs Hbody. by eapply segments_round. }
  destruct (Hseg [a; b; stem] eq_refl) as [m Hm].
  assert (glob_rel fs' (base ++ [a; b; stem]) [StarSuffix ".jpg"]
          ≡ₚ (fun j => [frame_name j]) <$> seq 1 m) as Hperm.
  { apply jpg_of_segment. intros name. by rewrite <- app_assoc. }
  assert (m = Z.to_nat nFramesNorm) as <-; [|done].
  rewrite Hdir' in Hdir. injection Hdir as <-.
  rewrite count_frames_resolve, Hres, Hperm, length_fmap, length_seq in Hcount
    by by eapply video_dir_nonempty.
  lia.
Qed.

End FrameSegments.


